(** * HaloView signalling: broker registry, routing rules and client session maps

    A shallow embedding of
    - [prototype/src/signaling/server.js]   (the signalling broker),
    - [prototype/src/streaming/StreamClient.js] (the viewer endpoint),
    - the capture endpoints' [peer-disconnected] handler,
    followed by the properties of the routing contract and of the per-endpoint
    session maps.

    Conventions of the embedding.
    - A JavaScript [Map] that is iterated is an insertion-ordered association
      list ([JsMap]): iteration order is observable (it is the order of the
      outbound messages), so the order is kept.
    - A parsed JSON message is a [json] value; an object keeps its properties
      in insertion order, as [JSON.stringify] prints them.
    - The broker owns one socket per peer, so a socket is named by the peer id
      it was accepted under.  Whether that socket is in the OPEN state when
      [send] runs is decided by the environment and is an argument ([open])
      of every handler.
    - Logging ([console.log], [console.warn]) has no effect on the state.  A
      log line is part of the embedding where building its text can throw:
      a template literal that converts a property of a received message to
      a string ([printable]). *)

From Stdlib Require Import ZArith Ascii String List Lia.
From stdpp Require Import base decidable option list strings gmap pretty sorting.

Local Open Scope string_scope.
Local Open Scope Z_scope.
Local Open Scope list_scope.

(** ** JavaScript [Map]: insertion-ordered association lists *)

Module JsMap.
Section jsmap.
Context {K V : Type} `{EqDecision K}.

(** [m.get(k)]: the value of the entry with key [k], if any. *)
Fixpoint get (k : K) (m : list (K * V)) : option V :=
  match m with
  | [] => None
  | (k', v) :: m' => if decide (k = k') then Some v else get k m'
  end.

(** [m.set(k, v)]: an existing key keeps its position, a new key goes last. *)
Fixpoint set (k : K) (v : V) (m : list (K * V)) : list (K * V) :=
  match m with
  | [] => [(k, v)]
  | (k', v') :: m' =>
      if decide (k = k') then (k, v) :: m' else (k', v') :: set k v m'
  end.

(** [m.delete(k)]. *)
Definition delete (k : K) (m : list (K * V)) : list (K * V) :=
  filter (λ e, e.1 ≠ k) m.

End jsmap.
End JsMap.

(** ** Parsed JSON values *)

(** [JUndef] is JavaScript's [undefined] (the value of a missing property);
    numbers are the integer-valued ones, which is what peer ids are. *)
#[warnings="-register-all"] Inductive json :=
  | JUndef
  | JNull
  | JBool (b : bool)
  | JNum (n : Z)
  | JStr (s : string)
  | JArr (xs : list json)
  | JObj (fields : list (string * json)).

(** JavaScript truthiness, as used by [||], [&&] and [if]. *)
Definition truthy (v : json) : bool :=
  match v with
  | JUndef | JNull => false
  | JBool b => b
  | JNum n => negb (Z.eqb n 0)
  | JStr s => negb (String.eqb s "")
  | JArr _ | JObj _ => true
  end.

(** [a || b]. *)
Definition js_or (a b : json) : json := if truthy a then a else b.

(** [v === 'lit'] for a string literal. *)
Definition is_str (lit : string) (v : json) : bool :=
  match v with
  | JStr s => bool_decide (s = lit)
  | _ => false
  end.

(** Property read [o.k] on the property list of an object. *)
Definition field (k : string) (fs : list (string * json)) : json :=
  default JUndef (JsMap.get k fs).

(** [`${v}`] on a parsed JSON value.  The conversion to a string throws a
    [TypeError] when it meets an object with an own [toString] property: a
    parsed value is never callable, so the property is skipped, and the
    inherited [valueOf] returns the object itself.  Every other object
    prints as [[object Object]].  An array is converted by [join], element
    by element ([null] and [undefined] print as the empty string).
    [printable v]: the conversion returns. *)
Fixpoint printable (v : json) : bool :=
  match v with
  | JArr xs => forallb printable xs
  | JObj fs =>
      match JsMap.get "toString" fs with
      | Some _ => false
      | None => true
      end
  | _ => true
  end.

(** ** The signalling broker ([server.js]) *)

Module Server.

(** An entry of [peers]: [{ ws, role, panelIds, windowList? }].  The socket
    [ws] is the one accepted under the entry's key. *)
Record peer := Peer {
  role : json;
  panelIds : json;
  windowList : json;
}.

(** [peers] and [nextPeerId]. *)
Record broker := Broker {
  peers : list (Z * peer);
  nextPeerId : Z;
}.

(** The state when the server starts: [new Map()], [nextPeerId = 1]. *)
Definition init : broker := Broker [] 1.

(** One [ws.send(JSON.stringify(msg))]: the socket (by peer id) and the
    message object. *)
Definition packet : Type := Z * json.

(** What handling one event leaves behind: the new state and the packets
    put on the wire, or an uncaught exception. *)
Inductive outcome :=
  | Done (s : broker) (out : list packet)
  | Thrown.

(** The arms of [switch (msg.type)]. *)
Inductive kind :=
  | KRegister | KDirected | KPanelRequest | KWindowList
  | KRequestWindowList | KCommand | KUnknown.

Definition kind_of (type : json) : kind :=
  match type with
  | JStr t =>
      if decide (t = "register") then KRegister
      else if decide (t = "offer") then KDirected
      else if decide (t = "answer") then KDirected
      else if decide (t = "ice-candidate") then KDirected
      else if decide (t = "panel-request") then KPanelRequest
      else if decide (t = "window-list") then KWindowList
      else if decide (t = "request-window-list") then KRequestWindowList
      else if decide (t = "capture-window") then KCommand
      else if decide (t = "release-panel") then KCommand
      else KUnknown
  | _ => KUnknown
  end.

(** The events the server reacts to.  [Message id None] is a frame that
    [JSON.parse] rejects. *)
Inductive event :=
  | Connection
  | Message (peerId : Z) (data : option json)
  | Close (peerId : Z).

(** [peers.get(msg.targetId)]: the keys of [peers] are numbers, so only a
    number finds an entry.  The entry comes with its key, which names
    [target.ws]. *)
Definition lookup_target (ps : list (Z * peer)) (targetId : json)
    : option (Z * peer) :=
  match targetId with
  | JNum n => (λ p, (n, p)) <$> JsMap.get n ps
  | _ => None
  end.

(** The entry of a peer in the welcome message. *)
Definition describe (e : Z * peer) : json :=
  JObj [("peerId", JNum e.1); ("role", role e.2); ("panelIds", panelIds e.2)].

(** [p.role === 'capture'] on an entry of [peers]. *)
Definition is_capture (e : Z * peer) : bool := is_str "capture" (role e.2).

Section handlers.
(** [open id]: the socket of peer [id] has [readyState === OPEN]. *)
Variable open : Z → bool.

(** [send(ws, msg)]. *)
Definition send (to : Z) (msg : json) : list packet :=
  if open to then [(to, msg)] else [].

(** [broadcast(msg, excludeId = null)] over the current [peers]. *)
Definition broadcast (ps : list (Z * peer)) (msg : json)
    (excludeId : option Z) : list packet :=
  ps ≫= λ e, if decide (Some e.1 = excludeId) then [] else send e.1 msg.

(** The body of [wss.on('connection', ...)]. *)
Definition connection (s : broker) : outcome :=
  let peerId := nextPeerId s in
  let ps := JsMap.set peerId (Peer JNull (JArr []) JUndef) (peers s) in
  let capturePeer :=
    find (λ p, is_str "capture" (role p) && truthy (windowList p)) ps.*2 in
  let cached :=
    match capturePeer with
    | Some p => js_or (windowList p) JNull
    | None => JNull
    end in
  Done (Broker ps (peerId + 1))
    (send peerId
       (JObj [("type", JStr "welcome");
              ("peerId", JNum peerId);
              ("peers", JArr (describe <$> filter (λ e, e.1 ≠ peerId) ps));
              ("windowList", cached)])).

(** The body of [ws.on('close', ...)] of the socket of [peerId].  Its log
    line prints the role stored for the peer, which is [null] or a role the
    [register] arm has already printed. *)
Definition close (peerId : Z) (s : broker) : outcome :=
  let ps := JsMap.delete peerId (peers s) in
  Done (Broker ps (nextPeerId s))
    (broadcast ps
       (JObj [("type", JStr "peer-disconnected"); ("peerId", JNum peerId)])
       None).

(** [handleMessage] once the sender's entry [me] is found and [msg] is an
    object with properties [msg]. *)
Definition handleObject (fromId : Z) (me : peer)
    (msg : list (string * json)) (s : broker) : outcome :=
  match kind_of (field "type" msg) with
  | KRegister =>
      let pids := js_or (field "panelIds" msg) (JArr []) in
      let me' := Peer (field "role" msg) pids (windowList me) in
      let ps := JsMap.set fromId me' (peers s) in
      (* the log line: [`... '${msg.role}', panels:
         [${peer.panelIds.join(', ')}]`] *)
      if printable (field "role" msg)
      then
        match pids with
        | JArr l =>
            if forallb printable l
            then
              Done (Broker ps (nextPeerId s))
                (broadcast ps
                   (JObj [("type", JStr "peer-registered");
                          ("peerId", JNum fromId);
                          ("role", field "role" msg);
                          ("panelIds", pids)])
                   None)
            else Thrown (* [join] converts an element *)
        | _ => Thrown (* [peer.panelIds.join] is not a function *)
        end
      else Thrown
  | KDirected =>
      match lookup_target (peers s) (field "targetId" msg) with
      | Some (t, _) =>
          Done s (send t (JObj (JsMap.set "fromId" (JNum fromId) msg)))
      | None =>
          (* the log line: [`Target peer ${msg.targetId} not found ...`] *)
          if printable (field "targetId" msg) then Done s [] else Thrown
      end
  | KPanelRequest =>
      let capturePeers := filter (λ e, is_capture e = true) (peers s) in
      Done s
        (capturePeers ≫= λ e,
           send e.1
             (JObj [("type", JStr "panel-request");
                    ("fromId", JNum fromId);
                    ("panelId", field "panelId" msg)]))
  | KWindowList =>
      let me' := Peer (role me) (panelIds me) (field "windows" msg) in
      let ps := JsMap.set fromId me' (peers s) in
      Done (Broker ps (nextPeerId s))
        (ps ≫= λ e,
           if is_str "viewer" (role e.2)
           then send e.1
                  (JObj [("type", JStr "window-list");
                         ("fromId", JNum fromId);
                         ("windows", field "windows" msg)])
           else [])
  | KRequestWindowList =>
      Done s
        (peers s ≫= λ e,
           if is_capture e
           then send e.1
                  (JObj [("type", JStr "request-window-list");
                         ("fromId", JNum fromId)])
           else [])
  | KCommand =>
      match lookup_target (peers s) (field "targetId" msg) with
      | Some (t, target) =>
          if is_str "capture" (role target)
          then Done s (send t (JObj (JsMap.set "fromId" (JNum fromId) msg)))
          else Done s []
      | None => Done s []
      end
  | KUnknown =>
      (* the log line: [`Unknown message type '${msg.type}' ...`] *)
      if printable (field "type" msg) then Done s [] else Thrown
  end.

(** [handleMessage(fromId, msg)]. *)
Definition handleMessage (fromId : Z) (msg : json) (s : broker) : outcome :=
  match JsMap.get fromId (peers s) with
  | None => Done s []
  | Some me =>
      match msg with
      | JUndef | JNull => Thrown (* reading [type] of null *)
      | JObj fs => handleObject fromId me fs s
      | _ => Done s [] (* [msg.type] is undefined: the default arm *)
      end
  end.

(** One event of the server's loop. *)
Definition step (e : event) (s : broker) : outcome :=
  match e with
  | Connection => connection s
  | Message peerId (Some msg) => handleMessage peerId msg s
  | Message _ None => Done s []
  | Close peerId => close peerId s
  end.
End handlers.

(** The states visited while a sequence of events is served, each event
    with the socket states it meets; an uncaught exception ends the run. *)
Fixpoint trace (es : list ((Z → bool) * event)) (s : broker) : list broker :=
  match es with
  | [] => []
  | (open, e) :: es' =>
      match step open e s with
      | Done s' _ => s' :: trace es' s'
      | Thrown => []
      end
  end.

(** The states the server can be in. *)
Inductive reachable : broker → Prop :=
  | reach_init : reachable init
  | reach_step open e s s' out :
      reachable s → step open e s = Done s' out → reachable s'.

(** The capture-role peers, as the [panel-request] arm lists them. *)
Definition capturePeers (s : broker) : list (Z * peer) :=
  filter (λ e, is_capture e = true) (peers s).

End Server.

(** ** Session maps of the endpoints *)

(** Every endpoint keeps [peerConnections], a [Map] from the composite key
    to an [RTCPeerConnection].  The connection objects live in a store
    ([list pc], a reference is an index); the map holds references. *)
Module Sessions.

(** What the embedding keeps of an [RTCPeerConnection]: the variables its
    callbacks close over, whether [close()] was called, the descriptions
    and the remote candidates applied to it. *)
Record pc := PC {
  remotePeerId : Z;
  panelId : string;
  closed : bool;
  remoteDescription : json;
  localDescription : json;
  candidates : list json;
}.

(** The template literal [`${remotePeerId}:${panelId}`]. *)
Definition key (remotePeerId : Z) (panelId : string) : string :=
  pretty remotePeerId +:+ ":" +:+ panelId.

(** [pc.close()] on the object behind reference [r]. *)
Definition close_pc (r : nat) (store : list pc) : list pc :=
  alter (λ p, PC (remotePeerId p) (panelId p) true (remoteDescription p)
                 (localDescription p) (candidates p)) r store.

(** One turn of the loop of the [peer-disconnected] arm. *)
Definition closeIfOf (peerId : Z) (st : list (string * nat) * list pc)
    (e : string * nat) : list (string * nat) * list pc :=
  if String.prefix (pretty peerId +:+ ":") e.1
  then (JsMap.delete e.1 st.1, close_pc e.2 st.2)
  else st.

(** The [peer-disconnected] arm, the same text in [StreamClient],
    [CaptureClient] and [ElectronCaptureClient]:
    [for (const [key, pc] of this.peerConnections)
       if (key.startsWith(`${msg.peerId}:`)) { pc.close(); this.peerConnections.delete(key); }]
    Deleting the entry being visited does not disturb a [Map] iteration, so
    the loop visits the entries the map had when it started. *)
Definition closePeer (peerId : Z) (sessions : list (string * nat))
    (store : list pc) : list (string * nat) * list pc :=
  foldl (closeIfOf peerId) (sessions, store) sessions.

End Sessions.

(** ** The viewer endpoint ([StreamClient.js]) *)

Module StreamClient.
Import Sessions.

(** An [RTCDataChannel] as the viewer sees it: its label and the session
    (connection reference) whose [ondatachannel] delivered it. *)
Record channel := Channel {
  label : string;
  session : nat;
}.

(** The fields of a [StreamClient] that signalling reads or writes.
    [wsOpen] is [this.ws?.readyState === WebSocket.OPEN]. *)
Record client := Client {
  wsOpen : bool;
  peerConnections : list (string * nat);
  dataChannels : gmap string channel;
  capturePeerIds : list Z;
  store : list pc;
}.

(** The signalling messages as the broker delivers them. *)
Inductive signal :=
  | PeerRegistered (peerId : Z) (role : json) (panelIds : list string)
  | Offer (fromId : Z) (panelId : string) (sdp : json)
  | IceCandidate (fromId : Z) (panelId : string) (candidate : json)
  | WindowList (windows : json)
  | PeerDisconnected (peerId : Z)
  | OtherSignal.

(** [_send(msg)]. *)
Definition _send (c : client) (msg : json) : list json :=
  if wsOpen c then [msg] else [].

(** [_requestStreams(capturePeerId, panelIds)]. *)
Definition _requestStreams (c : client) (capturePeerId : Z)
    (panelIds : list string) : list json :=
  panelIds ≫= λ panelId,
    _send c (JObj [("type", JStr "panel-request");
                   ("panelId", JStr panelId);
                   ("targetId", JNum capturePeerId)]).

(** [_getOrCreatePC(remotePeerId, panelId)]: the reference returned and the
    client afterwards.  The source asks [has(key)] and then [get(key)]; one
    lookup answers both. *)
Definition _getOrCreatePC (remotePeerId : Z) (panelId : string) (c : client)
    : nat * client :=
  let key := key remotePeerId panelId in
  match JsMap.get key (peerConnections c) with
  | Some r => (r, c)
  | None =>
      let r := length (store c) in
      (r, Client (wsOpen c)
            (JsMap.set key r (peerConnections c))
            (dataChannels c)
            (capturePeerIds c)
            (store c ++ [PC remotePeerId panelId false JUndef JUndef []]))
  end.

(** [string.slice(n)]. *)
Fixpoint slice (n : nat) (s : string) : string :=
  match n, s with
  | S n', String _ s' => slice n' s'
  | _, _ => s
  end.

(** [pc.ondatachannel] of the connection behind [r], for a channel with
    label [lbl]. *)
Definition ondatachannel (r : nat) (lbl : string) (c : client) : client :=
  match store c !! r with
  | Some p =>
      let channelPanelId :=
        if String.prefix "input:" lbl then slice 6 lbl else panelId p in
      Client (wsOpen c) (peerConnections c)
        (<[channelPanelId := Channel lbl r]> (dataChannels c))
        (capturePeerIds c) (store c)
  | None => c
  end.

(** [releasePanel(targetCapturePeerId, panelId)]. *)
Definition releasePanel (targetCapturePeerId : Z) (panelId : string)
    (c : client) : client * list json :=
  let out :=
    _send c (JObj [("type", JStr "release-panel");
                   ("targetId", JNum targetCapturePeerId);
                   ("panelId", JStr panelId)]) in
  let key := key targetCapturePeerId panelId in
  let '(sessions, objs) :=
    match JsMap.get key (peerConnections c) with
    | Some r => (JsMap.delete key (peerConnections c), close_pc r (store c))
    | None => (peerConnections c, store c)
    end in
  (Client (wsOpen c) sessions (delete panelId (dataChannels c))
     (capturePeerIds c) objs, out).

Section signalling.
(** The answer [pc.createAnswer()] resolves to; the calls into the WebRTC
    stack are taken to succeed. *)
Variable createAnswer : pc → json.

(** [_handleSignal(msg)]: the client afterwards and the messages sent to the
    broker. *)
Definition _handleSignal (msg : signal) (c : client) : client * list json :=
  match msg with
  | PeerRegistered peerId role panelIds =>
      if is_str "capture" role
      then
        let ids :=
          if bool_decide (peerId ∈ capturePeerIds c) then capturePeerIds c
          else capturePeerIds c ++ [peerId] in
        (Client (wsOpen c) (peerConnections c) (dataChannels c) ids (store c),
         _requestStreams c peerId panelIds)
      else (c, [])
  | Offer fromId panelId sdp =>
      let '(r, c1) := _getOrCreatePC fromId panelId c in
      let objs :=
        alter (λ p, let p1 := PC (remotePeerId p) (Sessions.panelId p)
                                 (closed p) sdp (localDescription p)
                                 (candidates p) in
                    PC (remotePeerId p1) (Sessions.panelId p1) (closed p1)
                       (remoteDescription p1) (createAnswer p1)
                       (candidates p1))
              r (store c1) in
      let sdp' := default JUndef (localDescription <$> objs !! r) in
      (Client (wsOpen c1) (peerConnections c1) (dataChannels c1)
         (capturePeerIds c1) objs,
       _send c1 (JObj [("type", JStr "answer");
                       ("targetId", JNum fromId);
                       ("sdp", sdp');
                       ("panelId", JStr panelId)]))
  | IceCandidate fromId panelId candidate =>
      match JsMap.get (key fromId panelId) (peerConnections c) with
      | Some r =>
          if truthy candidate
          then (Client (wsOpen c) (peerConnections c) (dataChannels c)
                  (capturePeerIds c)
                  (alter (λ p, PC (remotePeerId p) (Sessions.panelId p)
                                  (closed p) (remoteDescription p)
                                  (localDescription p)
                                  (candidates p ++ [candidate]))
                         r (store c)), [])
          else (c, [])
      | None => (c, [])
      end
  | WindowList _ => (c, [])
  | PeerDisconnected peerId =>
      let '(sessions, objs) :=
        closePeer peerId (peerConnections c) (store c) in
      (Client (wsOpen c) sessions (dataChannels c)
         (filter (λ id, id ≠ peerId) (capturePeerIds c)) objs, [])
  | OtherSignal => (c, [])
  end.
End signalling.

(** [pc.onicecandidate] of the connection behind [r]: a candidate gathered
    locally is sent to the session's remote peer; the end-of-candidates
    event ([event.candidate] null) sends nothing. *)
Definition onicecandidate (r : nat) (candidate : json) (c : client)
    : list json :=
  match store c !! r with
  | Some p =>
      if truthy candidate
      then _send c (JObj [("type", JStr "ice-candidate");
                          ("targetId", JNum (remotePeerId p));
                          ("panelId", JStr (Sessions.panelId p));
                          ("candidate", candidate)])
      else []
  | None => []
  end.

(** An entry of [caps.codecs]: its [mimeType] and the rest of it. *)
Record codec := Codec {
  mimeType : string;
  parameters : json;
}.

(** The list [pc.ontrack] hands to [setCodecPreferences]: H.264 first,
    then VP9, then the rest. *)
Definition preferred (codecs : list codec) : list codec :=
  let h264 := filter (λ c, mimeType c = "video/H264") codecs in
  let vp9 := filter (λ c, mimeType c = "video/VP9") codecs in
  let rest :=
    filter (λ c, mimeType c ≠ "video/H264" ∧ mimeType c ≠ "video/VP9")
      codecs in
  h264 ++ vp9 ++ rest.

(** An entry of [msg.peers] in the welcome message. *)
Record peerInfo := PeerInfo {
  infoId : Z;
  infoRole : json;
  infoPanels : list string;
}.

(** The [welcome] branch of [ws.onmessage] in [connect()]: register as a
    viewer, remember the capture peers and request their panels.  ([peerId]
    and the [onWindowList] callback do not bear on signalling and are left
    out.) *)
Definition onWelcome (peers : list peerInfo) (c : client)
    : client * list json :=
  let capturePeers :=
    filter (λ p, is_str "capture" (infoRole p) = true) peers in
  (Client (wsOpen c) (peerConnections c) (dataChannels c)
     (infoId <$> capturePeers) (store c),
   _send c (JObj [("type", JStr "register"); ("role", JStr "viewer")])
   ++ (capturePeers ≫= λ cp, _requestStreams c (infoId cp) (infoPanels cp))).

(** [requestWindowCapture(targetCapturePeerId, sourceId, panelId,
    orientation = 'landscape')]. *)
Definition requestWindowCapture (targetCapturePeerId : Z)
    (sourceId panelId : string) (orientation : option string) (c : client)
    : list json :=
  _send c (JObj [("type", JStr "capture-window");
                 ("targetId", JNum targetCapturePeerId);
                 ("sourceId", JStr sourceId);
                 ("panelId", JStr panelId);
                 ("orientation", JStr (default "landscape" orientation))]).

(** [requestWindowList()]. *)
Definition requestWindowList (c : client) : list json :=
  _send c (JObj [("type", JStr "request-window-list")]).

(** [sendInput(panelId, event)]: the channel written to and the event, when
    the panel has a channel and it is open ([channelOpen] is the channel's
    [readyState === 'open'], which the WebRTC stack decides). *)
Definition sendInput (channelOpen : channel → bool) (panelId : string)
    (event : json) (c : client) : list (channel * json) :=
  match dataChannels c !! panelId with
  | Some ch => if channelOpen ch then [(ch, event)] else []
  | None => []
  end.

(** [disconnect()]: close every connection of the session map, clear both
    maps, close the socket (which leaves the OPEN state at once). *)
Definition disconnect (c : client) : client :=
  Client false [] ∅ (capturePeerIds c)
    (foldl (λ objs e, close_pc e.2 objs) (store c) (peerConnections c)).

End StreamClient.

(** ** The viewer application ([main.js]), as far as it drives signalling *)

Module HaloViewApp.

(** [inputManager.onPanelDismissed]: release the panel at the first known
    capture peer, if there is one.  (The scene bookkeeping that follows
    does not touch the stream client.) *)
Definition onPanelDismissed (panelId : string) (c : StreamClient.client)
    : StreamClient.client * list json :=
  match StreamClient.capturePeerIds c with
  | captureId :: _ => StreamClient.releasePanel captureId panelId c
  | [] => (c, [])
  end.

(** [inputManager.onWindowSelected]: ask the first known capture peer to
    capture the window, if there is one. *)
Definition onWindowSelected (sourceId panelId orientation : string)
    (c : StreamClient.client) : list json :=
  match StreamClient.capturePeerIds c with
  | captureId :: _ =>
      StreamClient.requestWindowCapture captureId sourceId panelId
        (Some orientation) c
  | [] => []
  end.

End HaloViewApp.

(** ** The capture endpoints ([CaptureClient], [ElectronCaptureClient]) *)

Module CaptureClient.
Import Sessions.

(** The part of a capture client that the [peer-disconnected] arm of its
    [_handleSignal] touches. *)
Record client := Client {
  peerConnections : list (string * nat);
  store : list pc;
}.

(** The [peer-disconnected] arm of [_handleSignal]. *)
Definition peerDisconnected (peerId : Z) (c : client) : client :=
  let '(sessions, objs) := closePeer peerId (peerConnections c) (store c) in
  Client sessions objs.

End CaptureClient.

(** ** The Electron capture endpoint ([ElectronCaptureClient]) *)

(** The signalling side of [ElectronCaptureClient].  The browser
    [CaptureClient] has the same [panel-request], [answer],
    [ice-candidate] and [peer-disconnected] arms and the same
    [_sendStreamToViewer]. *)
Module ElectronCaptureClient.
Import Sessions.

(** A [MediaStream]: the source it captures and whether its tracks were
    stopped. *)
Record stream := Stream {
  source : string;
  stopped : bool;
}.

(** An entry of [captureInfo]. *)
Record info := Info {
  sourceId : string;
  width : Z;
  height : Z;
}.

(** The fields signalling reads or writes.  [streams] and
    [peerConnections] hold references into [media] and [store]. *)
Record client := Client {
  wsOpen : bool;
  streams : list (string * nat);
  captureInfo : gmap string info;
  peerConnections : list (string * nat);
  media : list stream;
  store : list pc;
}.

(** The signalling messages as the broker delivers them. *)
Inductive signal :=
  | CaptureWindow (fromId : Z) (sourceId panelId : string) (orientation : json)
  | ReleasePanel (fromId : Z) (panelId : string)
  | RequestWindowList
  | PanelRequest (fromId : Z) (panelId : string)
  | Answer (fromId : Z) (panelId : string) (sdp : json)
  | IceCandidate (fromId : Z) (panelId : string) (candidate : json)
  | PeerDisconnected (peerId : Z)
  | OtherSignal.

(** [_send(msg)]. *)
Definition _send (c : client) (msg : json) : list json :=
  if wsOpen c then [msg] else [].

(** [stream.getTracks().forEach(t => t.stop())] on the stream behind [m]. *)
Definition stop (m : nat) (objs : list stream) : list stream :=
  alter (λ st, Stream (source st) true) m objs.

(** [maxW] and [maxH] of [captureWindow]. *)
Definition maxSize (sourceId : string) (orientation : json) : Z * Z :=
  let isPortrait := is_str "portrait" orientation in
  let isScreen := String.prefix "screen:" sourceId in
  (if isScreen then (if isPortrait then 1440 else 2560)
   else (if isPortrait then 1080 else 1920),
   if isScreen then (if isPortrait then 2560 else 1440)
   else (if isPortrait then 1920 else 1080)).

(** The size of the second attempt of [captureWindow]. *)
Definition retrySize (orientation : json) : Z * Z :=
  let isPortrait := is_str "portrait" orientation in
  (if isPortrait then 720 else 1280, if isPortrait then 1280 else 720).

(** [settings.width || maxW]. *)
Definition or_size (measured : option Z) (fallback : Z) : Z :=
  match measured with
  | Some n => if Z.eqb n 0 then fallback else n
  | None => fallback
  end.

Section environment.
(** The offer [pc.createOffer()] resolves to, the outcome of
    [getUserMedia] for a source, a maximal size and a frame rate ([None]:
    rejected; otherwise the width and height the track reports, if any),
    and the list [enumerateWindows()] resolves to. *)
Variable createOffer : pc → json.
Variable getUserMedia : string → Z → Z → Z → option (option Z * option Z).
Variable enumerateWindows : json.

(** [_sendStreamToViewer(viewerPeerId, panelId, stream)].  The tracks and
    the input channel added to the connection are not part of the
    embedding. *)
Definition _sendStreamToViewer (viewerPeerId : Z) (panelId : string)
    (stream : nat) (c : client) : client * list json :=
  let r := length (store c) in
  let offer := createOffer (PC viewerPeerId panelId false JUndef JUndef []) in
  (Client (wsOpen c) (streams c) (captureInfo c)
     (JsMap.set (key viewerPeerId panelId) r (peerConnections c))
     (media c)
     (store c ++ [PC viewerPeerId panelId false JUndef offer []]),
   _send c (JObj [("type", JStr "offer");
                  ("targetId", JNum viewerPeerId);
                  ("sdp", offer);
                  ("panelId", JStr panelId)])).

(** [captureWindow(sourceId, panelId, orientation)]: the client
    afterwards, the messages sent and the stream returned.  [None]: the
    call throws, either because both attempts are rejected, or because the
    log line that follows [streams.set] cannot convert [orientation] to a
    string; the panel is then published and no registration is sent. *)
Definition captureWindow (sourceId panelId : string) (orientation : json)
    (c : client) : client * list json * option nat :=
  let c1 :=
    match JsMap.get panelId (streams c) with
    | Some m =>
        Client (wsOpen c) (JsMap.delete panelId (streams c))
          (delete panelId (captureInfo c)) (peerConnections c)
          (stop m (media c)) (store c)
    | None => c
    end in
  let size := maxSize sourceId orientation in
  let attempt :=
    match getUserMedia sourceId size.1 size.2 60 with
    | Some settings => Some settings
    | None =>
        getUserMedia sourceId (retrySize orientation).1
          (retrySize orientation).2 30
    end in
  match attempt with
  | None => (c1, [], None)
  | Some settings =>
      let m := length (media c1) in
      let c2 :=
        Client (wsOpen c1) (JsMap.set panelId m (streams c1))
          (<[panelId := Info sourceId (or_size settings.1 size.1)
                          (or_size settings.2 size.2)]> (captureInfo c1))
          (peerConnections c1)
          (media c1 ++ [Stream sourceId false]) (store c1) in
      if printable orientation
      then
        (c2,
         _send c2 (JObj [("type", JStr "register");
                         ("role", JStr "capture");
                         ("panelIds", JArr (JStr <$> (streams c2).*1))]),
         Some m)
      else (c2, [], None)
  end.

(** [_handleSignal(msg)].  The [capture-window] arm catches what
    [captureWindow] throws and goes no further. *)
Definition _handleSignal (msg : signal) (c : client) : client * list json :=
  match msg with
  | CaptureWindow fromId sourceId panelId orientation =>
      match captureWindow sourceId panelId orientation c with
      | (c1, out1, Some m) =>
          let '(c2, out2) := _sendStreamToViewer fromId panelId m c1 in
          (c2, out1 ++ out2)
      | (c1, out1, None) => (c1, out1)
      end
  | ReleasePanel fromId panelId =>
      let '(streams', media') :=
        match JsMap.get panelId (streams c) with
        | Some m => (JsMap.delete panelId (streams c), stop m (media c))
        | None => (streams c, media c)
        end in
      let key := key fromId panelId in
      let '(sessions, objs) :=
        match JsMap.get key (peerConnections c) with
        | Some r =>
            (JsMap.delete key (peerConnections c), close_pc r (store c))
        | None => (peerConnections c, store c)
        end in
      (Client (wsOpen c) streams' (delete panelId (captureInfo c)) sessions
         media' objs, [])
  | RequestWindowList =>
      (c, _send c (JObj [("type", JStr "window-list");
                         ("windows", enumerateWindows)]))
  | PanelRequest fromId panelId =>
      match JsMap.get panelId (streams c) with
      | Some m => _sendStreamToViewer fromId panelId m c
      | None => (c, [])
      end
  | Answer fromId panelId sdp =>
      match JsMap.get (key fromId panelId) (peerConnections c) with
      | Some r =>
          (Client (wsOpen c) (streams c) (captureInfo c) (peerConnections c)
             (media c)
             (alter (λ p, PC (remotePeerId p) (Sessions.panelId p) (closed p)
                             sdp (localDescription p) (candidates p))
                    r (store c)), [])
      | None => (c, [])
      end
  | IceCandidate fromId panelId candidate =>
      match JsMap.get (key fromId panelId) (peerConnections c) with
      | Some r =>
          if truthy candidate
          then (Client (wsOpen c) (streams c) (captureInfo c)
                  (peerConnections c) (media c)
                  (alter (λ p, PC (remotePeerId p) (Sessions.panelId p)
                                  (closed p) (remoteDescription p)
                                  (localDescription p)
                                  (candidates p ++ [candidate]))
                         r (store c)), [])
          else (c, [])
      | None => (c, [])
      end
  | PeerDisconnected peerId =>
      let '(sessions, objs) :=
        closePeer peerId (peerConnections c) (store c) in
      (Client (wsOpen c) (streams c) (captureInfo c) sessions (media c) objs,
       [])
  | OtherSignal => (c, [])
  end.
End environment.

End ElectronCaptureClient.

(** ** Vocabulary of the properties *)

(** The packets an event put on the wire. *)
Definition packets (o : Server.outcome) : list Server.packet :=
  match o with
  | Server.Done _ out => out
  | Server.Thrown => []
  end.

(** [msg] is a directed negotiation message. *)
Definition is_directed (msg : list (string * json)) : Prop :=
  field "type" msg = JStr "offer" ∨ field "type" msg = JStr "answer"
  ∨ field "type" msg = JStr "ice-candidate".

(** [{ ...msg, fromId }]: the message as relayed. *)
Definition relayed (fromId : Z) (msg : list (string * json)) : json :=
  JObj (JsMap.set "fromId" (JNum fromId) msg).

(** [msg] is a [capture-window] or [release-panel] command. *)
Definition is_command (msg : list (string * json)) : Prop :=
  field "type" msg = JStr "capture-window"
  ∨ field "type" msg = JStr "release-panel".

(** The log line of the [register] arm can be written for [msg]: the role
    converts to a string, and [panelIds] is an array of values that do, or
    is missing (or otherwise falsy) and replaced by [[]]. *)
Definition loggable (msg : list (string * json)) : bool :=
  printable (field "role" msg)
  && match js_or (field "panelIds" msg) (JArr []) with
     | JArr l => forallb printable l
     | _ => false
     end.

(** [msg] is a [register] message the broker can log. *)
Definition registration (msg : list (string * json)) : Prop :=
  field "type" msg = JStr "register" ∧ loggable msg = true.

(** The peer list of the welcome message an accepted connection is sent. *)
Definition welcomePeers (o : Server.outcome) : list json :=
  match packets o with
  | [(_, JObj fs)] =>
      match field "peers" fs with
      | JArr l => l
      | _ => []
      end
  | _ => []
  end.

(** "The welcome message never lists a connected peer that has not
    registered": no entry of the registry whose role is still [null] is
    described in the welcome message of the next connection. *)
Definition welcome_only_registered (open : Z → bool) (s : Server.broker)
    : Prop :=
  ∀ e, e ∈ Server.peers s → Server.role e.2 = JNull →
       Server.describe e ∉ welcomePeers (Server.connection open s).

(** "The notification is not sent to the registering peer itself". *)
Definition excludes_sender (fromId : Z) (o : Server.outcome) : Prop :=
  ∀ pk, pk ∈ packets o → pk.1 ≠ fromId.

(** "Presence of the target in the registry is the only condition governing
    forwarding": a message for a registered target with an open socket is
    relayed. *)
Definition forwards_when_present (open : Z → bool) (fromId : Z)
    (msg : list (string * json)) (s : Server.broker) : Prop :=
  ∀ t, field "targetId" msg = JNum t →
       is_Some (JsMap.get t (Server.peers s)) → open t = true →
       packets (Server.handleMessage open fromId (JObj msg) s)
       = [(t, relayed fromId msg)].

(** Every socket is open. *)
Definition all_open : Z → bool := λ _, true.

(** One peer, connected and not registered: the registry after the first
    connection. *)
Definition one_unregistered : Server.broker :=
  Server.Broker [(1, Server.Peer JNull (JArr []) JUndef)] 2.

(** Two registered viewers. *)
Definition two_viewers : Server.broker :=
  Server.Broker [(1, Server.Peer (JStr "viewer") (JArr []) JUndef);
                 (2, Server.Peer (JStr "viewer") (JArr []) JUndef)] 3.

(** The events of one peer sending the [register] messages [msgs], each
    met by its own socket states. *)
Definition registrations (peerId : Z)
    (msgs : list ((Z → bool) * list (string * json)))
    : list ((Z → bool) * Server.event) :=
  (λ om, (om.1, Server.Message peerId (Some (JObj om.2)))) <$> msgs.

(** "After a register message the stored role and panelIds exactly equal the
    role and panelIds of that message". *)
Definition stores_latest (open : Z → bool) (peerId : Z)
    (msg : list (string * json)) (s : Server.broker) : Prop :=
  ∀ s' out me',
    Server.handleMessage open peerId (JObj msg) s = Server.Done s' out →
    JsMap.get peerId (Server.peers s') = Some me' →
    Server.role me' = field "role" msg
    ∧ Server.panelIds me' = field "panelIds" msg.

(** An offer addressed to a value that is no peer id and does not convert
    to a string. *)
Definition offer_to_unprintable : list (string * json) :=
  [("type", JStr "offer"); ("targetId", JObj [("toString", JNum 1)]);
   ("sdp", JStr "v=0"); ("panelId", JStr "panel-main")].

(** [key.startsWith(`${peerId}:`)]: the session under [key] is keyed by
    [peerId]. *)
Definition sessionOf (peerId : Z) (key : string) : Prop :=
  String.prefix (pretty peerId +:+ ":") key = true.

#[global] Instance sessionOf_dec peerId key : Decision (sessionOf peerId key) :=
  decide (String.prefix (pretty peerId +:+ ":") key = true).

(** No character of [s] is a colon. *)
Fixpoint colon_free (s : string) : Prop :=
  match s with
  | EmptyString => True
  | String ch s' => ch ≠ ":"%char ∧ colon_free s'
  end.

(** [close()] was called on the connection behind [r]. *)
Definition is_closed (r : nat) (store : list Sessions.pc) : Prop :=
  Sessions.closed <$> store !! r = Some true.

(** "An offer for a key that already has a session destroys that session
    and creates a fresh one": the old connection is closed and the key
    holds another connection afterwards. *)
Definition offer_replaces_session (createAnswer : Sessions.pc → json)
    (fromId : Z) (panelId : string) (sdp : json) (c : StreamClient.client)
    : Prop :=
  ∀ r, JsMap.get (Sessions.key fromId panelId) (StreamClient.peerConnections c)
       = Some r →
    let c' :=
      (StreamClient._handleSignal createAnswer
         (StreamClient.Offer fromId panelId sdp) c).1 in
    is_closed r (StreamClient.store c')
    ∧ ∃ r', JsMap.get (Sessions.key fromId panelId)
              (StreamClient.peerConnections c') = Some r'
            ∧ r' ≠ r.

(** A viewer that has just connected: no session, no channel. *)
Definition fresh_viewer : StreamClient.client :=
  StreamClient.Client true [] ∅ [] [].

(** A WebRTC stack whose answers are all the same blob. *)
Definition constant_answer : Sessions.pc → json := λ _, JStr "answer".

(** The viewer after a first offer of capture peer 1 for [panel-main]. *)
Definition viewer_in_session : StreamClient.client :=
  (StreamClient._handleSignal constant_answer
     (StreamClient.Offer 1 "panel-main" (JStr "offer-1")) fresh_viewer).1.

(** A capture peer serving [panel-main] and a viewer. *)
Definition capture_and_viewer : Server.broker :=
  Server.Broker
    [(1, Server.Peer (JStr "capture") (JArr [JStr "panel-main"]) JUndef);
     (2, Server.Peer (JStr "viewer") (JArr []) JUndef)] 3.

(** An offer of peer 1 addressed to peer 2. *)
Definition sample_offer : list (string * json) :=
  [("type", JStr "offer"); ("targetId", JNum 2); ("sdp", JStr "v=0");
   ("panelId", JStr "panel-main")].

(** A [panel-request] for [panel-main]. *)
Definition sample_panel_request : list (string * json) :=
  [("type", JStr "panel-request"); ("panelId", JStr "panel-main");
   ("targetId", JNum 1)].

(** The [capture-window] command of a viewer for capture peer 1. *)
Definition sample_capture_window : list (string * json) :=
  [("type", JStr "capture-window"); ("targetId", JNum 1);
   ("sourceId", JStr "screen:0"); ("panelId", JStr "panel-main");
   ("orientation", JStr "landscape")].

(** The registration of a viewer, and two registrations of a capture
    client. *)
Definition register_viewer : list (string * json) :=
  [("type", JStr "register"); ("role", JStr "viewer")].

Definition register_capture (panelIds : list json) : list (string * json) :=
  [("type", JStr "register"); ("role", JStr "capture");
   ("panelIds", JArr panelIds)].

(** A viewer holding sessions for [panel-main] with capture peers 1
    and 2. *)
Definition viewer_two_captures : StreamClient.client :=
  StreamClient.Client true
    [("1:panel-main", 0%nat); ("2:panel-main", 1%nat)] ∅ [1; 2]
    [Sessions.PC 1 "panel-main" false JUndef JUndef [];
     Sessions.PC 2 "panel-main" false JUndef JUndef []].

(** A capture client streaming [panel-main] to viewer 2. *)
Definition capture_in_session : CaptureClient.client :=
  CaptureClient.Client [("2:panel-main", 0%nat)]
    [Sessions.PC 2 "panel-main" false JUndef JUndef []].

(** Property read [v.k] on a value that need not be an object. *)
Definition prop (k : string) (v : json) : json :=
  match v with
  | JObj fs => field k fs
  | _ => JUndef
  end.

(** The catalogue snapshot of the welcome message an accepted connection
    is sent. *)
Definition welcomeWindowList (o : Server.outcome) : json :=
  match packets o with
  | [(_, m)] => prop "windowList" m
  | _ => JUndef
  end.

(** The peer ids of a registry are in order of arrival, at least 1 and
    below the next id to hand out. *)
Definition ids_ok (s : Server.broker) : Prop :=
  StronglySorted Z.lt (Server.peers s).*1
  ∧ 1 ≤ Server.nextPeerId s
  ∧ ∀ k, k ∈ (Server.peers s).*1 → 1 ≤ k < Server.nextPeerId s.

(** The session map of a viewer is sound: no key and no connection occurs
    twice, and every session holds a connection that exists, has not been
    closed and was created for the peer and panel its key names. *)
Definition sessions_ok (c : StreamClient.client) : Prop :=
  NoDup (StreamClient.peerConnections c).*1
  ∧ NoDup (StreamClient.peerConnections c).*2
  ∧ ∀ k r, (k, r) ∈ StreamClient.peerConnections c →
      ∃ p, StreamClient.store c !! r = Some p
           ∧ Sessions.closed p = false
           ∧ k = Sessions.key (Sessions.remotePeerId p) (Sessions.panelId p).

(** The rank [pc.ontrack] gives a codec: H.264, then VP9, then the rest. *)
Definition codec_rank (c : StreamClient.codec) : nat :=
  if decide (StreamClient.mimeType c = "video/H264") then 0%nat
  else if decide (StreamClient.mimeType c = "video/VP9") then 1%nat
  else 2%nat.

(** The stream map of a capture client is sound: no panel and no stream
    occurs twice, and every published panel holds a stream that exists and
    has not been stopped. *)
Definition streams_ok (c : ElectronCaptureClient.client) : Prop :=
  NoDup (ElectronCaptureClient.streams c).*1
  ∧ NoDup (ElectronCaptureClient.streams c).*2
  ∧ ∀ k m, (k, m) ∈ ElectronCaptureClient.streams c →
      ∃ st, ElectronCaptureClient.media c !! m = Some st
            ∧ ElectronCaptureClient.stopped st = false.

(** The tracks of the stream behind [m] were stopped. *)
Definition is_stopped (m : nat) (objs : list ElectronCaptureClient.stream)
    : Prop :=
  ElectronCaptureClient.stopped <$> objs !! m = Some true.

(** The elements of an array of strings. *)
Fixpoint strings_of (xs : list json) : option (list string) :=
  match xs with
  | [] => Some []
  | JStr x :: xs' => (λ l, x :: l) <$> strings_of xs'
  | _ => None
  end.

(** A message delivered by the broker, as [StreamClient._handleSignal]
    reads it.  [None]: a field the arm reads does not have the type the
    wire protocol gives it (a numeric peer id, a string panel id, an array
    of strings), which the typed signals do not cover. *)
Definition viewerSignal (m : json) : option StreamClient.signal :=
  match prop "type" m with
  | JStr t =>
      if decide (t = "peer-registered") then
        match prop "peerId" m, prop "panelIds" m with
        | JNum p, JArr xs =>
            StreamClient.PeerRegistered p (prop "role" m) <$> strings_of xs
        | _, _ => None
        end
      else if decide (t = "offer") then
        match prop "fromId" m, prop "panelId" m with
        | JNum f, JStr p => Some (StreamClient.Offer f p (prop "sdp" m))
        | _, _ => None
        end
      else if decide (t = "ice-candidate") then
        match prop "fromId" m, prop "panelId" m with
        | JNum f, JStr p =>
            Some (StreamClient.IceCandidate f p (prop "candidate" m))
        | _, _ => None
        end
      else if decide (t = "window-list") then
        Some (StreamClient.WindowList (prop "windows" m))
      else if decide (t = "peer-disconnected") then
        match prop "peerId" m with
        | JNum p => Some (StreamClient.PeerDisconnected p)
        | _ => None
        end
      else Some StreamClient.OtherSignal
  | _ => Some StreamClient.OtherSignal
  end.

(** A message delivered by the broker, as
    [ElectronCaptureClient._handleSignal] reads it; [None] as for
    [viewerSignal]. *)
Definition captureSignal (m : json)
    : option ElectronCaptureClient.signal :=
  match prop "type" m with
  | JStr t =>
      if decide (t = "capture-window") then
        match prop "fromId" m, prop "sourceId" m, prop "panelId" m with
        | JNum f, JStr src, JStr p =>
            Some (ElectronCaptureClient.CaptureWindow f src p
                    (prop "orientation" m))
        | _, _, _ => None
        end
      else if decide (t = "release-panel") then
        match prop "fromId" m, prop "panelId" m with
        | JNum f, JStr p => Some (ElectronCaptureClient.ReleasePanel f p)
        | _, _ => None
        end
      else if decide (t = "request-window-list") then
        Some ElectronCaptureClient.RequestWindowList
      else if decide (t = "panel-request") then
        match prop "fromId" m, prop "panelId" m with
        | JNum f, JStr p => Some (ElectronCaptureClient.PanelRequest f p)
        | _, _ => None
        end
      else if decide (t = "answer") then
        match prop "fromId" m, prop "panelId" m with
        | JNum f, JStr p =>
            Some (ElectronCaptureClient.Answer f p (prop "sdp" m))
        | _, _ => None
        end
      else if decide (t = "ice-candidate") then
        match prop "fromId" m, prop "panelId" m with
        | JNum f, JStr p =>
            Some (ElectronCaptureClient.IceCandidate f p (prop "candidate" m))
        | _, _ => None
        end
      else if decide (t = "peer-disconnected") then
        match prop "peerId" m with
        | JNum p => Some (ElectronCaptureClient.PeerDisconnected p)
        | _ => None
        end
      else Some ElectronCaptureClient.OtherSignal
  | _ => Some ElectronCaptureClient.OtherSignal
  end.

(** A WebRTC stack whose offers are all the same blob, and a desktop
    capturer that always delivers, without reporting a size. *)
Definition constant_offer : Sessions.pc → json := λ _, JStr "offer".

Definition always_granted : string → Z → Z → Z → option (option Z * option Z) :=
  λ _ _ _ _, Some (None, None).

(** A capture client that streams the primary screen as [panel-main] to
    viewer 2. *)
Definition capture_with_stream : ElectronCaptureClient.client :=
  ElectronCaptureClient.Client true [("panel-main", 0%nat)]
    {["panel-main" := ElectronCaptureClient.Info "screen:0" 2560 1440]}
    [("2:panel-main", 0%nat)]
    [ElectronCaptureClient.Stream "screen:0" false]
    [Sessions.PC 2 "panel-main" false JUndef (JStr "offer") []].

(** The catalogue a capture peer publishes. *)
Definition sample_window_list : list (string * json) :=
  [("type", JStr "window-list");
   ("windows", JArr [JObj [("sourceId", JStr "screen:0");
                           ("name", JStr "Primary")]])].

(** An offer whose sender claims to be peer 99. *)
Definition forged_offer : list (string * json) :=
  [("type", JStr "offer"); ("fromId", JNum 99); ("targetId", JNum 2);
   ("sdp", JStr "v=0"); ("panelId", JStr "panel-main")].

(** * Properties *)

(** ** Facts about [JsMap] *)

Section jsmap_facts.
Context {K V : Type} `{EqDecision K}.
Implicit Types (k : K) (v : V) (m : list (K * V)).

Lemma get_None_keys k m : JsMap.get k m = None ↔ k ∉ m.*1.
Proof.
  induction m as [|[k' v'] m IH]; simpl.
  - split; [intros _; apply not_elem_of_nil | done].
  - rewrite not_elem_of_cons. destruct (decide (k = k')) as [->|Hne].
    + split; [done | intros [? _]; done].
    + rewrite IH. tauto.
Qed.

Lemma get_Some_elem k v m : JsMap.get k m = Some v → (k, v) ∈ m.
Proof.
  induction m as [|[k' v'] m IH]; simpl; [done|].
  destruct (decide (k = k')) as [->|Hne].
  - intros [= ->]. apply list_elem_of_here.
  - intros Hg. apply list_elem_of_further, IH, Hg.
Qed.

Lemma get_None_keys_neg k m : is_Some (JsMap.get k m) → k ∈ m.*1.
Proof.
  intros [v Hv]. destruct (decide (k ∈ m.*1)) as [|Hn]; [done|].
  apply get_None_keys in Hn. congruence.
Qed.

Lemma elem_keys_get k m : k ∈ m.*1 → is_Some (JsMap.get k m).
Proof.
  intros Hin. destruct (JsMap.get k m) eqn:Hg; [eauto|].
  apply get_None_keys in Hg. done.
Qed.

Lemma get_set k k' v m :
  JsMap.get k (JsMap.set k' v m) = if decide (k = k') then Some v else JsMap.get k m.
Proof.
  induction m as [|[k0 v0] m IH]; simpl.
  - destruct (decide (k = k')); done.
  - destruct (decide (k' = k0)) as [->|Hne]; simpl.
    + destruct (decide (k = k0)); done.
    + destruct (decide (k = k0)) as [->|Hne'].
      * rewrite decide_False by done. done.
      * apply IH.
Qed.

Lemma get_set_eq k v m : JsMap.get k (JsMap.set k v m) = Some v.
Proof. rewrite get_set, decide_True; done. Qed.

Lemma get_set_ne k k' v m :
  k ≠ k' → JsMap.get k (JsMap.set k' v m) = JsMap.get k m.
Proof. intros. rewrite get_set, decide_False; done. Qed.

Lemma get_delete k k' m :
  JsMap.get k (JsMap.delete k' m) = if decide (k = k') then None else JsMap.get k m.
Proof.
  unfold JsMap.delete. induction m as [|[k0 v0] m IH]; simpl.
  - destruct (decide (k = k')); done.
  - rewrite filter_cons. simpl. destruct (decide (k0 ≠ k')) as [Hne|Heq]; simpl.
    + rewrite IH. destruct (decide (k = k0)) as [->|]; [|done].
      rewrite decide_False; done.
    + apply dec_stable in Heq as ->. rewrite IH.
      destruct (decide (k = k')); done.
Qed.

Lemma get_delete_None k k' m :
  JsMap.get k m = None → JsMap.get k (JsMap.delete k' m) = None.
Proof. intros Hg. rewrite get_delete, Hg. destruct (decide (k = k')); done. Qed.

(** Overwriting the value of a key that is present keeps the keys and
    their order. *)
Lemma keys_set_present k v m :
  is_Some (JsMap.get k m) → (JsMap.set k v m).*1 = m.*1.
Proof.
  induction m as [|[k0 v0] m IH]; simpl; [by intros [? ?]|].
  destruct (decide (k = k0)) as [->|Hne]; simpl; [done|].
  intros Hs. f_equal. apply IH, Hs.
Qed.

(** A new key goes last. *)
Lemma set_absent k v m : JsMap.get k m = None → JsMap.set k v m = m ++ [(k, v)].
Proof.
  induction m as [|[k0 v0] m IH]; simpl; [done|].
  destruct (decide (k = k0)) as [->|Hne]; [done|].
  intros Hg. f_equal. apply IH, Hg.
Qed.

Lemma set_set k v m : JsMap.set k v (JsMap.set k v m) = JsMap.set k v m.
Proof.
  induction m as [|[k0 v0] m IH]; simpl.
  - rewrite decide_True; done.
  - destruct (decide (k = k0)) as [->|Hne]; simpl.
    + rewrite decide_True; done.
    + rewrite decide_False by done. f_equal. apply IH.
Qed.

Lemma elem_of_set k v k' v' m :
  (k', v') ∈ JsMap.set k v m → (k' = k ∧ v' = v) ∨ (k', v') ∈ m.
Proof.
  induction m as [|[k0 v0] m IH]; simpl.
  - intros [= -> ->]%list_elem_of_singleton. by left.
  - destruct (decide (k = k0)) as [->|Hne].
    + intros [[= -> ->] | Hin]%elem_of_cons; [by left|].
      right. by apply list_elem_of_further.
    + intros [[= -> ->] | Hin]%elem_of_cons.
      * right. apply list_elem_of_here.
      * destruct (IH Hin) as [? | ?]; [by left|].
        right. by apply list_elem_of_further.
Qed.

Lemma delete_absent k m : JsMap.get k m = None → JsMap.delete k m = m.
Proof.
  unfold JsMap.delete. induction m as [|[k0 v0] m IH]; simpl; [done|].
  destruct (decide (k = k0)) as [->|Hne]; [done|].
  intros Hg. rewrite filter_cons. simpl.
  rewrite decide_True by done. f_equal. apply IH, Hg.
Qed.
End jsmap_facts.

(** ** The broker *)

Section server_facts.
Import Server.
Variable open : Z → bool.
Implicit Types (s : broker) (msg : list (string * json)).

Lemma lookup_target_Some ps targetId t p :
  lookup_target ps targetId = Some (t, p) ↔
  targetId = JNum t ∧ JsMap.get t ps = Some p.
Proof.
  unfold lookup_target. destruct targetId; try (split; [done | intros [? _]; done]).
  destruct (JsMap.get n ps) eqn:Hg; simpl.
  - split; [intros [= -> ->]; done | intros [[= ->] Hp]; congruence].
  - split; [done | intros [[= ->] Hp]; congruence].
Qed.

Lemma elem_of_send to (note : json) pk :
  pk ∈ send open to note ↔ pk = (to, note) ∧ open to = true.
Proof.
  unfold send. destruct (open to).
  - rewrite list_elem_of_singleton. tauto.
  - rewrite elem_of_nil. split; [done | intros [_ ?]; done].
Qed.

(** When every socket of the registry is open, a fan-out over entries
    reaches each of them once, in registry order. *)
Lemma bind_send_all_open (ps : list (Z * peer)) (note : json) :
  (∀ e, e ∈ ps → open e.1 = true) →
  (ps ≫= λ e, send open e.1 note) = (λ e, (e.1, note)) <$> ps.
Proof.
  induction ps as [|e ps IH]; intros Hopen; [done|].
  rewrite bind_cons, fmap_cons, IH.
  - unfold send. rewrite Hopen; [done | apply list_elem_of_here].
  - intros e' He'. apply Hopen, list_elem_of_further, He'.
Qed.

Lemma broadcast_all ps note :
  broadcast open ps note None = ps ≫= λ e, send open e.1 note.
Proof. done. Qed.

(** C10. A parsed message whose sender is not in the registry is dropped at
    once by [handleMessage]: the registry is left as it was, nothing is sent
    and nothing is thrown, whatever the message is. *)
Theorem unknown_sender_ignored fromId (msg : json) s :
  JsMap.get fromId (peers s) = None →
  handleMessage open fromId msg s = Done s [].
Proof. intros Hg. unfold handleMessage. rewrite Hg. done. Qed.

Lemma kind_of_directed msg : is_directed msg → kind_of (field "type" msg) = KDirected.
Proof. intros [-> | [-> | ->]]; reflexivity. Qed.

(** What the directed arm does for a registered sender: the message goes
    to a registered target with the sender's id attached as [fromId]; for
    an absent target the warning is written, which throws when [targetId]
    does not convert to a string.  The registry is never changed. *)
Lemma directed_arm fromId me msg s :
  JsMap.get fromId (peers s) = Some me → is_directed msg →
  handleMessage open fromId (JObj msg) s =
    match lookup_target (peers s) (field "targetId" msg) with
    | Some (t, _) => Done s (send open t (relayed fromId msg))
    | None => if printable (field "targetId" msg) then Done s [] else Thrown
    end.
Proof.
  intros Hme Hdir. unfold handleMessage. rewrite Hme.
  unfold handleObject. rewrite (kind_of_directed _ Hdir).
  by destruct (lookup_target (peers s) (field "targetId" msg)) as [[t p]|].
Qed.

(** C4. A panel-request from a registered sender never throws and leaves
    the registry as it is; one [panel-request] carrying the sender's id as
    [fromId] and the requested [panelId] goes to each capture-role peer of
    the registry whose socket is open, in registry order, and to no one
    else; with all registered sockets open the recipients are exactly the
    capture-role peers; with no capture-role peer nothing is sent. *)
Theorem panel_request_fanout fromId me msg s :
  JsMap.get fromId (peers s) = Some me →
  field "type" msg = JStr "panel-request" →
  let note := JObj [("type", JStr "panel-request"); ("fromId", JNum fromId);
                    ("panelId", field "panelId" msg)] in
  ∃ out, handleMessage open fromId (JObj msg) s = Done s out ∧
    out = (capturePeers s ≫= λ e, send open e.1 note) ∧
    (∀ to m, (to, m) ∈ out ↔
       m = note ∧ open to = true ∧
       ∃ p, (to, p) ∈ peers s ∧ role p = JStr "capture") ∧
    ((∀ e, e ∈ peers s → open e.1 = true) →
       out = (λ e, (e.1, note)) <$> capturePeers s) ∧
    (capturePeers s = [] → out = []).
Proof.
  intros Hme Htype note. unfold handleMessage. rewrite Hme.
  unfold handleObject. rewrite Htype. simpl kind_of. cbv beta iota.
  fold (capturePeers s). fold note.
  eexists. split; [reflexivity|]. split; [reflexivity|].
  split; [|split].
  - intros to m. rewrite list_elem_of_bind. split.
    + intros [[k p] [He Hin]]. apply elem_of_send in He as [[= -> ->] Ho].
      apply list_elem_of_filter in Hin as [Hcap Hin].
      split; [done|]. split; [done|]. exists p. split; [done|].
      unfold is_capture, is_str in Hcap. simpl in Hcap.
      destruct (role p); try done. apply bool_decide_eq_true in Hcap as ->. done.
    + intros (-> & Ho & p & Hin & Hrole). exists (to, p). split.
      * apply elem_of_send. done.
      * apply list_elem_of_filter. split; [|done].
        unfold is_capture, is_str. simpl. rewrite Hrole. done.
  - intros Hopen. apply bind_send_all_open.
    intros e He. apply list_elem_of_filter in He as [_ He]. apply Hopen, He.
  - intros ->. done.
Qed.

Lemma is_str_true lit (v : json) : is_str lit v = true ↔ v = JStr lit.
Proof.
  unfold is_str. destruct v; try (split; done).
  rewrite bool_decide_eq_true. split; [by intros -> | by intros [= ->]].
Qed.

End server_facts.

(** *** What a step does to the keys of the registry *)

Section server_invariants.
Import Server.
Implicit Types (s : broker) (msg : list (string * json)) (open : Z → bool).

Lemma handleObject_peers open fromId me msg s s' out :
  handleObject open fromId me msg s = Done s' out →
  nextPeerId s' = nextPeerId s ∧
  (peers s' = peers s ∨ ∃ me', peers s' = JsMap.set fromId me' (peers s)).
Proof.
  unfold handleObject. destruct (kind_of (field "type" msg)).
  - destruct (printable (field "role" msg)); [|done].
    destruct (js_or (field "panelIds" msg) (JArr [])) as [| | | | |l|];
      try done.
    destruct (forallb printable l); [|done].
    intros [= <- _]. simpl. eauto.
  - destruct (lookup_target _ _) as [[t p]|];
      [|destruct (printable _); [|done]]; intros [= <- _]; eauto.
  - intros [= <- _]; eauto.
  - intros [= <- _]. simpl. eauto.
  - intros [= <- _]; eauto.
  - destruct (lookup_target _ _) as [[t p]|]; [destruct (is_str _ _)|];
      intros [= <- _]; eauto.
  - destruct (printable _); [|done]. intros [= <- _]; eauto.
Qed.

Lemma handleMessage_peers open fromId (msg : json) s s' out :
  handleMessage open fromId msg s = Done s' out →
  nextPeerId s' = nextPeerId s ∧
  (peers s' = peers s ∨
   ∃ me me', JsMap.get fromId (peers s) = Some me
             ∧ peers s' = JsMap.set fromId me' (peers s)).
Proof.
  unfold handleMessage. destruct (JsMap.get fromId (peers s)) as [me|] eqn:Hme.
  - destruct msg; try done; try (intros [= <- _]; eauto).
    intros Hobj. apply handleObject_peers in Hobj as [Hn [Hp | [me' Hp]]];
      [by eauto | split; [done | right; by exists me, me']].
  - intros [= <- _]; eauto.
Qed.

(** A step grows the registry by the id it hands out and by nothing else,
    and ids only go up. *)
Lemma step_keys open e s s' out k :
  step open e s = Done s' out →
  nextPeerId s ≤ nextPeerId s' ∧
  (is_Some (JsMap.get k (peers s')) →
   is_Some (JsMap.get k (peers s))
   ∨ (k = nextPeerId s ∧ nextPeerId s' = nextPeerId s + 1)).
Proof.
  destruct e as [|fromId [msg|]|q]; simpl.
  - unfold connection. intros [= <- _]. simpl. split; [lia|].
    rewrite get_set. destruct (decide (k = nextPeerId s)); eauto.
  - intros Hm. apply handleMessage_peers in Hm as [Hn [Hp | (me & me' & Hme & Hp)]];
      rewrite Hn, Hp; (split; [lia|]); [eauto|].
    rewrite get_set. destruct (decide (k = fromId)) as [->|]; [|eauto].
    intros _. left. eauto.
  - intros [= <- _]. split; [lia | eauto].
  - unfold close. intros [= <- _]. simpl. split; [lia|].
    rewrite get_delete. destruct (decide (k = q)); [by intros [? ?] | eauto].
Qed.

(** Every id in the registry was handed out by [nextPeerId]. *)
Lemma reachable_keys_lt s k :
  reachable s → is_Some (JsMap.get k (peers s)) → k < nextPeerId s.
Proof.
  intros Hr. revert k. induction Hr as [|o e s s' out Hr IH Hstep]; intros k.
  - simpl. by intros [? ?].
  - intros Hk. destruct (step_keys o e s s' out k Hstep) as [Hle Hor].
    apply Hor in Hk as [Hk | [-> Hn]]; [|lia]. apply IH in Hk. lia.
Qed.

(** A peer that is out of the registry and whose id was already handed out
    stays out, whatever happens next. *)
Lemma step_keeps_out open e s s' out p :
  JsMap.get p (peers s) = None → p < nextPeerId s →
  step open e s = Done s' out →
  JsMap.get p (peers s') = None ∧ p < nextPeerId s'.
Proof.
  intros Hnone Hlt Hstep.
  destruct (step_keys open e s s' out p Hstep) as [Hle Hor]. split; [|lia].
  destruct (JsMap.get p (peers s')) eqn:Hg; [|done].
  destruct Hor as [[? Hs] | [-> _]]; [eauto | congruence | lia].
Qed.

Lemma trace_keeps_out es s p :
  JsMap.get p (peers s) = None → p < nextPeerId s →
  Forall (λ s', JsMap.get p (peers s') = None) (trace es s).
Proof.
  revert s. induction es as [|[o e] es IH]; intros s Hnone Hlt; simpl.
  - constructor.
  - destruct (step o e s) as [s' out|] eqn:Hstep; [|constructor].
    destruct (step_keeps_out o e s s' out p Hnone Hlt Hstep) as [Hn' Hlt'].
    constructor; [done | by apply IH].
Qed.

Lemma trace_reachable es s : reachable s → Forall reachable (trace es s).
Proof.
  revert s. induction es as [|[o e] es IH]; intros s Hr; simpl.
  - constructor.
  - destruct (step o e s) as [s' out|] eqn:Hstep; [|constructor].
    assert (reachable s') by (eapply reach_step; eauto).
    constructor; [done | by apply IH].
Qed.

Lemma reachable_last es s' : last (trace es init) = Some s' → reachable s'.
Proof.
  intros Hl. apply last_Some_elem_of in Hl.
  eapply Forall_forall in Hl; [exact Hl|]. apply trace_reachable, reach_init.
Qed.

(** A peer that is not in the registry is not among the capture peers. *)
Lemma absent_not_capture s p :
  JsMap.get p (peers s) = None → p ∉ (capturePeers s).*1.
Proof.
  intros Hnone Hin. apply list_elem_of_fmap in Hin as [[k q] [-> Hin]].
  apply list_elem_of_filter in Hin as [_ Hin].
  apply get_None_keys in Hnone. apply Hnone.
  apply list_elem_of_fmap. by exists (k, q).
Qed.

Lemma filter_all {A} (P : A → Prop) `{!∀ x, Decision (P x)} (l : list A) :
  (∀ x, x ∈ l → P x) → filter P l = l.
Proof.
  induction l as [|x l IH]; intros HP; [done|].
  rewrite filter_cons, decide_True by (apply HP, list_elem_of_here).
  f_equal. apply IH. intros y Hy. apply HP, list_elem_of_further, Hy.
Qed.

(** *** The welcome message *)

(** C5, as the code has it.  In every state the server can be in, a new
    connection gets the next id and a welcome message whose peer list
    describes every entry of the registry as it was before the connection,
    that is every other connected peer, registered or not, in registry
    order, each with its current role ([null] until it registers) and panel
    list; the new peer joins the registry unregistered. *)
Theorem welcome_lists_every_other_peer open s :
  reachable s →
  let me := nextPeerId s in
  ∃ cached,
    connection open s =
      Done (Broker (peers s ++ [(me, Peer JNull (JArr []) JUndef)]) (me + 1))
        (send open me
           (JObj [("type", JStr "welcome"); ("peerId", JNum me);
                  ("peers", JArr (describe <$> peers s));
                  ("windowList", cached)]))
    ∧ (open me = true →
       welcomePeers (connection open s) = describe <$> peers s).
Proof.
  intros Hr me.
  assert (Hfresh : JsMap.get me (peers s) = None).
  { destruct (JsMap.get me (peers s)) eqn:Hg; [|done].
    assert (me < nextPeerId s) by (apply reachable_keys_lt; eauto).
    unfold me in *. lia. }
  unfold connection. fold me. rewrite (set_absent _ _ _ Hfresh).
  rewrite filter_app, filter_cons, decide_False, filter_nil, app_nil_r
    by (simpl; intros Hne; by apply Hne).
  rewrite filter_all.
  2:{ intros [k q] Hin. simpl. intros ->. apply get_None_keys in Hfresh.
      apply Hfresh, list_elem_of_fmap. by exists (me, q). }
  eexists. split; [reflexivity|].
  intros Hopen. unfold welcomePeers, packets, send. rewrite Hopen. done.
Qed.

(** C5, as the claim has it, fails: after the very first connection the
    registry holds peer 1 with role [null], and the welcome message of the
    second connection lists it. *)
Lemma welcome_lists_unregistered_peer :
  reachable one_unregistered ∧ ¬ welcome_only_registered all_open one_unregistered.
Proof.
  split.
  - apply (reachable_last [(all_open, Connection)]). reflexivity.
  - intros Hclaim.
    apply (Hclaim (1, Peer JNull (JArr []) JUndef)).
    + apply list_elem_of_here.
    + reflexivity.
    + vm_compute. apply list_elem_of_here.
Qed.

(** *** Registration *)

(** What the [register] arm does to the state. *)
Lemma register_step open p me msg s :
  JsMap.get p (peers s) = Some me → registration msg →
  let me' := Peer (field "role" msg) (js_or (field "panelIds" msg) (JArr []))
                  (windowList me) in
  let ps := JsMap.set p me' (peers s) in
  handleMessage open p (JObj msg) s =
    Done (Broker ps (nextPeerId s))
      (broadcast open ps
         (JObj [("type", JStr "peer-registered"); ("peerId", JNum p);
                ("role", field "role" msg);
                ("panelIds", js_or (field "panelIds" msg) (JArr []))])
         None).
Proof.
  intros Hme [Htype Hlog]. unfold handleMessage. rewrite Hme.
  unfold handleObject. rewrite Htype. simpl kind_of. cbv beta iota zeta.
  unfold loggable in Hlog. apply andb_true_iff in Hlog as [-> Hlog].
  destruct (js_or (field "panelIds" msg) (JArr [])) as [| | | | |l|];
    try done.
  by rewrite Hlog.
Qed.

(** A [register] message of a registered sender is handled without an
    exception exactly when its log line can be written. *)
Lemma register_throws_iff open p me msg s :
  JsMap.get p (peers s) = Some me → field "type" msg = JStr "register" →
  handleMessage open p (JObj msg) s = Thrown ↔ loggable msg = false.
Proof.
  intros Hme Htype. destruct (loggable msg) eqn:Hlog.
  - pose proof (register_step open p me msg s Hme (conj Htype Hlog)) as Hstep.
    cbv zeta in Hstep. rewrite Hstep. done.
  - split; [done|]. intros _. unfold handleMessage. rewrite Hme.
    unfold handleObject. rewrite Htype. simpl kind_of. cbv beta iota zeta.
    unfold loggable in Hlog.
    destruct (printable (field "role" msg)); [|done]. simpl in Hlog.
    destruct (js_or (field "panelIds" msg) (JArr [])) as [| | | | |l|];
      try done.
    by rewrite Hlog.
Qed.

(** C6, as the code has it.  A [register] message from a registered sender
    that the broker handles without an exception (its role converts to a
    string, its [panelIds] is falsy or an array of values that do) is
    answered by one [peer-registered] notification, carrying the sender's
    id, the role and the panel list of the message, to every peer of the
    registry whose socket is open, the registering peer included; the
    registry keeps its keys. *)
Theorem register_notifies_every_peer open fromId me msg s :
  JsMap.get fromId (peers s) = Some me → registration msg →
  let note :=
    JObj [("type", JStr "peer-registered"); ("peerId", JNum fromId);
          ("role", field "role" msg);
          ("panelIds", js_or (field "panelIds" msg) (JArr []))] in
  ∃ s' out, handleMessage open fromId (JObj msg) s = Done s' out ∧
    (peers s').*1 = (peers s).*1 ∧
    out = (peers s' ≫= λ e, send open e.1 note) ∧
    (∀ to m, (to, m) ∈ out ↔
       m = note ∧ open to = true ∧ to ∈ (peers s).*1) ∧
    (open fromId = true → (fromId, note) ∈ out) ∧
    ((∀ e, e ∈ peers s' → open e.1 = true) →
       out = (λ e, (e.1, note)) <$> peers s').
Proof.
  intros Hme Hreg note. rewrite (register_step open fromId me msg s Hme Hreg).
  cbv zeta. fold note.
  set (ps := JsMap.set fromId _ (peers s)).
  assert (Hkeys : ps.*1 = (peers s).*1) by (apply keys_set_present; eauto).
  assert (Hin : ∀ to m, (to, m) ∈ broadcast open ps note None ↔
            m = note ∧ open to = true ∧ to ∈ (peers s).*1).
  { intros to m. rewrite broadcast_all, list_elem_of_bind, <- Hkeys. split.
    - intros [[k q] [He Hq]]. apply elem_of_send in He as [[= -> ->] Ho].
      split; [done|]. split; [done|]. apply list_elem_of_fmap. by exists (k, q).
    - intros (-> & Ho & Hk). apply list_elem_of_fmap in Hk as [[k q] [-> Hq]].
      exists (k, q). split; [|done]. apply elem_of_send. done. }
  eexists _, _. split; [reflexivity|]. simpl.
  split; [done|]. split; [done|]. split; [done|]. split.
  - intros Ho. apply Hin. split; [done|]. split; [done|].
    apply get_None_keys_neg. eauto.
  - intros Hopen. rewrite broadcast_all. by apply bind_send_all_open.
Qed.

(** C6, as the claim has it, fails: a peer alone in the registry that
    registers receives its own [peer-registered] notification. *)
Lemma register_notifies_sender :
  ¬ excludes_sender 1
      (handleMessage all_open 1
         (JObj [("type", JStr "register"); ("role", JStr "viewer")])
         one_unregistered).
Proof.
  intros Hclaim.
  apply (Hclaim (1, JObj [("type", JStr "peer-registered"); ("peerId", JNum 1);
                          ("role", JStr "viewer"); ("panelIds", JArr [])])).
  - vm_compute. apply list_elem_of_here.
  - reflexivity.
Qed.

(** C8, as the code has it.  Whatever a peer registered before, when the
    broker handles its [register] messages without an exception (each with
    a role that converts to a string and a [panelIds] that is falsy or an
    array of values that do), after the latest of them the registry holds
    the role of that message and its panel list, the empty list standing
    in for a [panelIds] that is missing or otherwise falsy; none of the
    messages throws; and sending the latest message once more leaves the
    registry as it is. *)
Theorem reregistration_last_writer_wins p me
    (msgs : list ((Z → bool) * list (string * json))) open msg s :
  JsMap.get p (peers s) = Some me →
  Forall (λ om, registration om.2) msgs → registration msg →
  ∃ s' me',
    last (trace (registrations p (msgs ++ [(open, msg)])) s) = Some s' ∧
    length (trace (registrations p (msgs ++ [(open, msg)])) s)
      = S (length msgs) ∧
    JsMap.get p (peers s') = Some me' ∧
    role me' = field "role" msg ∧
    panelIds me' = js_or (field "panelIds" msg) (JArr []) ∧
    (∀ l, field "panelIds" msg = JArr l → panelIds me' = JArr l) ∧
    (truthy (field "panelIds" msg) = false → panelIds me' = JArr []) ∧
    (∀ open', ∃ out, handleMessage open' p (JObj msg) s' = Done s' out).
Proof.
  intros Hme Hmsgs Hmsg. revert s me Hme.
  induction Hmsgs as [|[o m] msgs Hm Hmsgs IH]; intros s me Hme.
  - simpl. rewrite (register_step open p me msg s Hme Hmsg). simpl.
    eexists _, _. split; [reflexivity|]. split; [reflexivity|]. simpl.
    rewrite get_set_eq. split; [reflexivity|]. simpl.
    split; [done|]. split; [done|]. split; [|split].
    + intros l Hl. rewrite Hl. done.
    + intros Hf. unfold js_or. by rewrite Hf.
    + intros open'. eexists.
      erewrite register_step; [|simpl; apply get_set_eq|done].
      simpl. rewrite set_set. reflexivity.
  - simpl. simpl in Hm. rewrite (register_step o p me m s Hme Hm).
    set (s0 := Broker _ _).
    destruct (IH s0 (Peer (field "role" m) (js_or (field "panelIds" m) (JArr []))
                          (windowList me)))
      as (s' & me' & Hlast & Hlen & Hrest).
    { simpl. apply get_set_eq. }
    exists s', me'. split; [|split; [|exact Hrest]].
    + rewrite last_cons, Hlast. done.
    + simpl. rewrite Hlen. done.
Qed.

(** C8, as the claim has it, fails: a peer registers with [panelIds: null];
    the message is handled, and the registry stores the empty list, not the
    [null] of the message. *)
Lemma null_panel_list_stored_as_empty :
  reachable one_unregistered
  ∧ ¬ stores_latest all_open 1
        [("type", JStr "register"); ("role", JStr "capture");
         ("panelIds", JNull)]
        one_unregistered.
Proof.
  split.
  - apply (reachable_last [(all_open, Connection)]). reflexivity.
  - intros Hclaim.
    destruct (Hclaim (Broker [(1, Peer (JStr "capture") (JArr []) JUndef)] 2)
                [(1, JObj [("type", JStr "peer-registered");
                           ("peerId", JNum 1); ("role", JStr "capture");
                           ("panelIds", JArr [])])]
                (Peer (JStr "capture") (JArr []) JUndef))
      as [_ Hpanels]; [reflexivity | reflexivity |].
    discriminate Hpanels.
Qed.

(** C2, at the input where the code departs from it.  Peer 1, a registered
    viewer, sends an offer whose [targetId] is the object
    [{"toString": 1}].  No peer has that id, and instead of dropping the
    message the handler throws while it writes the warning. *)
Theorem absent_target_warning_throws :
  reachable two_viewers
  ∧ is_directed offer_to_unprintable
  ∧ lookup_target (peers two_viewers) (field "targetId" offer_to_unprintable)
    = None
  ∧ handleMessage all_open 1 (JObj offer_to_unprintable) two_viewers = Thrown.
Proof.
  split; [|by repeat split; [left|..]].
  apply (reachable_last
    [(all_open, Connection); (all_open, Connection);
     (all_open, Message 1 (Some (JObj register_viewer)));
     (all_open, Message 2 (Some (JObj register_viewer)))]).
  reflexivity.
Qed.

(** The roles and panel lists the registry stores can all be converted to
    strings: the [register] arm prints them before it returns. *)
Lemma reachable_roles_printable s p e :
  reachable s → (p, e) ∈ peers s →
  printable (role e) = true ∧ printable (panelIds e) = true.
Proof.
  intros Hr. revert p e.
  induction Hr as [|o ev s s' out Hr IH Hstep]; intros p e.
  - simpl. by intros ?%elem_of_nil.
  - destruct ev as [|fromId [msg|]|q]; simpl in Hstep.
    + unfold connection in Hstep. injection Hstep as <- _. simpl.
      intros Hin. apply elem_of_set in Hin as [[_ ->] | Hin]; [done|].
      by apply (IH p).
    + unfold handleMessage in Hstep.
      destruct (JsMap.get fromId (peers s)) as [me|] eqn:Hme;
        [|injection Hstep as <- _; apply IH].
      destruct msg as [| | | | | |msg]; try done;
        try (injection Hstep as <- _; apply IH).
      unfold handleObject in Hstep.
      destruct (kind_of (field "type" msg)).
      * destruct (printable (field "role" msg)) eqn:Hrole; [|done].
        destruct (js_or (field "panelIds" msg) (JArr [])) as [| | | | |l|];
          try done.
        destruct (forallb printable l) eqn:Hl; [|done].
        injection Hstep as <- _. simpl.
        intros Hin. apply elem_of_set in Hin as [[_ ->] | Hin];
          [done | by apply (IH p)].
      * destruct (lookup_target _ _) as [[t q]|];
          [|destruct (printable _); [|done]]; injection Hstep as <- _;
          apply IH.
      * injection Hstep as <- _. apply IH.
      * injection Hstep as <- _. simpl.
        intros Hin. apply elem_of_set in Hin as [[_ ->] | Hin];
          [|by apply (IH p)].
        simpl. apply (IH fromId). by apply get_Some_elem.
      * injection Hstep as <- _. apply IH.
      * destruct (lookup_target _ _) as [[t q]|]; [destruct (is_str _ _)|];
          injection Hstep as <- _; apply IH.
      * destruct (printable _); [|done]. injection Hstep as <- _. apply IH.
    + injection Hstep as <- _. apply IH.
    + unfold close in Hstep. injection Hstep as <- _. simpl.
      intros Hin. apply list_elem_of_filter in Hin as [_ Hin].
      by apply (IH p).
Qed.

(** *** Commands and disconnects *)

Lemma kind_of_command msg : is_command msg → kind_of (field "type" msg) = KCommand.
Proof. intros [-> | ->]; reflexivity. Qed.

(** C7, as the code has it.  A [capture-window] or [release-panel] message
    from a registered sender never throws and never changes the registry;
    it is relayed, as it is and with the sender's id attached as [fromId],
    when its target is in the registry and has the role [capture] (and an
    open socket); when the target is absent, or present with another role,
    nothing is sent. *)
Theorem command_routing open fromId me msg s :
  JsMap.get fromId (peers s) = Some me → is_command msg →
  ∃ out, handleMessage open fromId (JObj msg) s = Done s out ∧
    (lookup_target (peers s) (field "targetId" msg) = None → out = []) ∧
    (∀ t target, lookup_target (peers s) (field "targetId" msg)
                 = Some (t, target) →
       role target ≠ JStr "capture" → out = []) ∧
    (∀ t target, lookup_target (peers s) (field "targetId" msg)
                 = Some (t, target) →
       role target = JStr "capture" →
       out = send open t (relayed fromId msg)
       ∧ (open t = true → out = [(t, relayed fromId msg)])).
Proof.
  intros Hme Hcmd. unfold handleMessage. rewrite Hme.
  unfold handleObject. rewrite (kind_of_command _ Hcmd).
  destruct (lookup_target (peers s) (field "targetId" msg)) as [[t target]|].
  - destruct (is_str "capture" (role target)) eqn:Hrole.
    + eexists. split; [reflexivity|]. split; [done|]. split.
      * intros ? ? [= <- <-] Hne. apply is_str_true in Hrole. done.
      * intros ? ? [= <- <-] _. split; [done|].
        intros Ho. unfold send. rewrite Ho. done.
    + eexists. split; [reflexivity|]. split; [done|]. split; [done|].
      intros ? ? [= <- <-] Hcap. apply is_str_true in Hcap. congruence.
  - eexists. split; [reflexivity|]. split; [done|]. split; done.
Qed.

(** C7, as the claim has it, fails: viewer 1 addresses a [capture-window]
    to peer 2, which is in the registry with an open socket and the role
    [viewer]; nothing is relayed. *)
Lemma command_to_viewer_dropped :
  reachable two_viewers ∧
  ¬ forwards_when_present all_open 1
      [("type", JStr "capture-window"); ("targetId", JNum 2);
       ("sourceId", JStr "screen:0"); ("panelId", JStr "panel-main");
       ("orientation", JStr "landscape")]
      two_viewers.
Proof.
  split.
  - apply (reachable_last
      [(all_open, Connection); (all_open, Connection);
       (all_open, Message 1 (Some (JObj [("type", JStr "register");
                                         ("role", JStr "viewer")])));
       (all_open, Message 2 (Some (JObj [("type", JStr "register");
                                         ("role", JStr "viewer")])))]).
    reflexivity.
  - intros Hclaim. specialize (Hclaim 2 eq_refl).
    assert (Hout : @nil packet = [(2, relayed 1
              [("type", JStr "capture-window"); ("targetId", JNum 2);
               ("sourceId", JStr "screen:0"); ("panelId", JStr "panel-main");
               ("orientation", JStr "landscape")])]).
    { apply Hclaim; [by eexists | reflexivity]. }
    discriminate Hout.
Qed.

(** What the [close] handler does. *)
Lemma close_broadcast open p s :
  let note := JObj [("type", JStr "peer-disconnected"); ("peerId", JNum p)] in
  let rest := JsMap.delete p (peers s) in
  close open p s = Done (Broker rest (nextPeerId s))
                     (rest ≫= λ e, send open e.1 note)
  ∧ (∀ to m, (to, m) ∈ (rest ≫= λ e, send open e.1 note) ↔
       m = note ∧ open to = true ∧ to ≠ p ∧ to ∈ (peers s).*1)
  ∧ ((∀ e, e ∈ rest → open e.1 = true) →
       (rest ≫= λ e, send open e.1 note) = (λ e, (e.1, note)) <$> rest).
Proof.
  intros note rest. split; [done|]. split.
  - intros to m. rewrite list_elem_of_bind. split.
    + intros [[k q] [He Hq]]. apply elem_of_send in He as [[= -> ->] Ho].
      apply list_elem_of_filter in Hq as [Hne Hq]. simpl in Hne.
      repeat (split; [done|]). apply list_elem_of_fmap. by exists (k, q).
    + intros (-> & Ho & Hne & Hk).
      apply list_elem_of_fmap in Hk as [[k q] [-> Hq]].
      exists (k, q). split; [by apply elem_of_send|].
      apply list_elem_of_filter. done.
  - apply bind_send_all_open.
Qed.
End server_invariants.

(** ** Session maps *)

Section sessions_facts.
Import Sessions.
Implicit Types (sessions : list (string * nat)) (store : list pc).

Lemma prefix_append (a b : string) : String.prefix a (a +:+ b) = true.
Proof.
  induction a as [|ch a IH]; [by destruct b|].
  change (String.prefix (String ch a) (String ch (a +:+ b)) = true). simpl.
  destruct (Ascii.ascii_dec ch ch); done.
Qed.

Lemma append_assoc (a b c : string) : (a +:+ b) +:+ c = a +:+ (b +:+ c).
Proof.
  induction a as [|ch a IH]; [done|].
  change (String ch ((a +:+ b) +:+ c) = String ch (a +:+ b +:+ c)).
  by f_equal.
Qed.

(** The composite key of a session with [peerId] starts with [peerId:]. *)
Lemma key_sessionOf peerId panelId : sessionOf peerId (key peerId panelId).
Proof. unfold sessionOf, key. rewrite <- append_assoc. apply prefix_append. Qed.

Lemma close_pc_length r store : length (close_pc r store) = length store.
Proof. apply length_alter. Qed.

Lemma close_pc_closed r store :
  is_Some (store !! r) → is_closed r (close_pc r store).
Proof.
  intros [p Hp]. unfold is_closed, close_pc.
  rewrite list_lookup_alter_eq, Hp. done.
Qed.

Lemma close_pc_mono r r' store :
  is_closed r store → is_closed r (close_pc r' store).
Proof.
  unfold is_closed, close_pc. intros Hc.
  destruct (decide (r' = r)) as [->|Hne].
  - rewrite list_lookup_alter_eq. destruct (store !! r); done.
  - rewrite list_lookup_alter_ne; done.
Qed.

Lemma get_filter_out {V} (P : string * V → Prop) `{!∀ e, Decision (P e)}
    k (m : list (string * V)) :
  (∀ v, ¬ P (k, v)) → JsMap.get k (filter P m) = None.
Proof.
  intros Hk. apply get_None_keys. intros Hin.
  apply list_elem_of_fmap in Hin as [[k' v] [-> Hin]].
  apply list_elem_of_filter in Hin as [HP _]. by apply (Hk v).
Qed.

Lemma get_filter_keep {V} (P : string * V → Prop) `{!∀ e, Decision (P e)}
    k (m : list (string * V)) :
  (∀ v, P (k, v)) → JsMap.get k (filter P m) = JsMap.get k m.
Proof.
  intros Hk. induction m as [|[k' v] m IH]; [done|].
  rewrite filter_cons. destruct (decide (P (k', v))) as [HP|HP]; simpl.
  - by rewrite IH.
  - destruct (decide (k = k')) as [->|]; [by destruct (HP (Hk v)) | done].
Qed.

Lemma filter_ext_in {A} (P Q : A → Prop) `{!∀ x, Decision (P x)}
    `{!∀ x, Decision (Q x)} (l : list A) :
  (∀ x, x ∈ l → P x ↔ Q x) → filter P l = filter Q l.
Proof.
  induction l as [|x l IH]; intros Hiff; [done|].
  rewrite !filter_cons.
  assert (Hx : P x ↔ Q x) by (apply Hiff, list_elem_of_here).
  rewrite IH by (intros y Hy; apply Hiff, list_elem_of_further, Hy).
  destruct (decide (P x)), (decide (Q x)); tauto || done.
Qed.

(** The loop, started on any map [m] and store and run over the entries
    [l]: it removes from [m] the sessions of [p] that [l] names, closes the
    connections [l] holds for [p], closes nothing open otherwise and
    allocates nothing. *)
Lemma closeIfOf_fold p l : ∀ m store,
  let res := foldl (closeIfOf p) (m, store) l in
  res.1 = filter (λ e, ¬ (sessionOf p e.1 ∧ e.1 ∈ l.*1)) m
  ∧ length res.2 = length store
  ∧ (∀ r, is_closed r store → is_closed r res.2)
  ∧ (∀ k r, (k, r) ∈ l → sessionOf p k → is_Some (store !! r) →
       is_closed r res.2)
  ∧ (∀ r, (∀ k, (k, r) ∈ l → ¬ sessionOf p k) → res.2 !! r = store !! r).
Proof.
  induction l as [|[k0 r0] l IH]; intros m store; simpl.
  - split.
    { symmetry. apply filter_all. intros e _ [_ Hin]. by apply elem_of_nil in Hin. }
    split; [done|]. split; [done|]. split; [|done].
    intros k r Hin. by apply elem_of_nil in Hin.
  - destruct (String.prefix (pretty p +:+ ":") k0) eqn:Hpre.
    + assert (Hf : closeIfOf p (m, store) (k0, r0)
                   = (JsMap.delete k0 m, close_pc r0 store))
        by (unfold closeIfOf; simpl; by rewrite Hpre).
      rewrite Hf.
      destruct (IH (JsMap.delete k0 m) (close_pc r0 store))
        as (Hm & Hlen & Hmono & Hcl & Hsame).
      split; [|split; [|split; [|split]]].
      * rewrite Hm. unfold JsMap.delete. rewrite list_filter_filter.
        apply list_filter_iff. intros [k r]. simpl.
        rewrite elem_of_cons. split.
        -- intros [Hn Hne] [Hs [-> | Hin]]; [done | by apply Hn].
        -- intros Hn. split; [intros [Hs Hin]; apply Hn; by eauto|].
           intros ->. apply Hn. by eauto.
      * by rewrite Hlen, close_pc_length.
      * intros r Hr. by apply Hmono, close_pc_mono.
      * intros k r Hin Hs Hsome. apply elem_of_cons in Hin as [[= -> ->] | Hin].
        -- by apply Hmono, close_pc_closed.
        -- apply (Hcl k r Hin Hs). destruct Hsome as [q Hq].
           apply lookup_lt_is_Some. rewrite close_pc_length.
           apply lookup_lt_is_Some. eauto.
      * intros r Hr. rewrite Hsame.
        -- unfold close_pc. apply list_lookup_alter_ne. intros ->.
           apply (Hr k0); [apply list_elem_of_here | exact Hpre].
        -- intros k Hin. by apply Hr, list_elem_of_further.
    + assert (Hf : closeIfOf p (m, store) (k0, r0) = (m, store))
        by (unfold closeIfOf; simpl; by rewrite Hpre).
      rewrite Hf.
      destruct (IH m store) as (Hm & Hlen & Hmono & Hcl & Hsame).
      split; [|split; [|split; [|split]]]; [|done|done| |].
      * rewrite Hm. apply list_filter_iff. intros [k r]. simpl.
        rewrite elem_of_cons. split.
        -- intros Hn [Hs [-> | Hin]]; [unfold sessionOf in Hs; congruence|].
           by apply Hn.
        -- intros Hn [Hs Hin]. apply Hn. by eauto.
      * intros k r Hin Hs Hsome. apply elem_of_cons in Hin as [[= -> ->] | Hin].
        -- unfold sessionOf in Hs. congruence.
        -- by apply (Hcl k r).
      * intros r Hr. apply Hsame. intros k Hin. by apply Hr, list_elem_of_further.
Qed.

(** The [peer-disconnected] loop removes exactly the sessions keyed by the
    peer and closes their connections. *)
Lemma closePeer_spec p sessions store :
  let res := closePeer p sessions store in
  res.1 = filter (λ e, ¬ sessionOf p e.1) sessions
  ∧ length res.2 = length store
  ∧ (∀ k, sessionOf p k → JsMap.get k res.1 = None)
  ∧ (∀ e, e ∈ res.1 → ¬ sessionOf p e.1)
  ∧ (∀ k, ¬ sessionOf p k → JsMap.get k res.1 = JsMap.get k sessions)
  ∧ (∀ k r, (k, r) ∈ sessions → sessionOf p k → is_Some (store !! r) →
       is_closed r res.2)
  ∧ (∀ r, (∀ k, (k, r) ∈ sessions → ¬ sessionOf p k) →
       res.2 !! r = store !! r).
Proof.
  intros res. unfold res, closePeer.
  destruct (closeIfOf_fold p sessions sessions store)
    as (Hm & Hlen & _ & Hcl & Hsame).
  assert (Heq : (foldl (closeIfOf p) (sessions, store) sessions).1
                = filter (λ e, ¬ sessionOf p e.1) sessions).
  { rewrite Hm. apply filter_ext_in. intros [k r] Hin. simpl. split.
    - intros Hn Hs. apply Hn. split; [done|].
      apply list_elem_of_fmap. by exists (k, r).
    - intros Hn [Hs _]. done. }
  split; [done|]. split; [done|]. rewrite Heq.
  split; [|split; [|split; [|split]]].
  - intros k Hs. apply get_filter_out. intros v Hn. by apply Hn.
  - intros e He. by apply list_elem_of_filter in He as [Hn _].
  - intros k Hn. apply get_filter_keep. by intros v.
  - done.
  - done.
Qed.
End sessions_facts.

(** *** The key names its peer *)

Section key_facts.
Import Sessions.

Lemma append_cons ch (a b : string) : String ch a +:+ b = String ch (a +:+ b).
Proof. done. Qed.

Lemma pretty_N_go_colon_free x s :
  colon_free s → colon_free (pretty_N_go x s).
Proof.
  revert s. induction (N.lt_wf_0 x) as [x _ IH]; intros s Hs.
  assert (x = 0 ∨ 0 < x)%N as [->|Hpos] by lia.
  - by rewrite pretty_N_go_0.
  - rewrite pretty_N_go_step by done. apply IH.
    + by apply N.div_lt.
    + split; [|done]. unfold pretty_N_char. by repeat case_match.
Qed.

Lemma pretty_Z_colon_free (z : Z) : colon_free (pretty z).
Proof.
  assert (HN : ∀ n : N, colon_free (pretty n)).
  { intros n. unfold pretty, pretty_N. case_decide; [by split|].
    by apply pretty_N_go_colon_free. }
  destruct z as [|q|q]; unfold pretty, pretty_Z.
  - by split.
  - apply HN.
  - rewrite append_cons. split; [done|]. apply HN.
Qed.

Lemma prefix_cons x (a : string) y (b : string) :
  String.prefix (String x a) (String y b)
  = if Ascii.ascii_dec x y then String.prefix a b else false.
Proof. simpl. by destruct (Ascii.ascii_dec x y). Qed.

Lemma prefix_colon (a b c : string) :
  colon_free a → colon_free b →
  String.prefix (a +:+ ":") (b +:+ ":" +:+ c) = true → a = b.
Proof.
  revert b. induction a as [|x a IH]; intros [|y b] Ha Hb.
  - done.
  - change ("" +:+ ":") with (String ":"%char "").
    rewrite append_cons, prefix_cons. destruct Hb as [Hy _].
    destruct (Ascii.ascii_dec ":" y) as [Heq|]; [by subst | done].
  - change ("" +:+ ":" +:+ c) with (String ":"%char c).
    rewrite append_cons, prefix_cons. destruct Ha as [Hx _].
    destruct (Ascii.ascii_dec x ":") as [Heq|]; [by subst | done].
  - rewrite !append_cons, prefix_cons. destruct Ha as [_ Ha], Hb as [_ Hb].
    destruct (Ascii.ascii_dec x y) as [->|]; [|done].
    intros Hp. f_equal. by apply IH.
Qed.

(** A composite key belongs to the sessions of [p] exactly when it was
    built from [p]: no other peer's sessions match [`${p}:`]. *)
Lemma key_sessionOf_iff p q panelId : sessionOf p (key q panelId) ↔ p = q.
Proof.
  split; [|intros ->; apply key_sessionOf].
  unfold sessionOf, key. intros Hp.
  apply (inj (pretty : Z → string)).
  eapply prefix_colon; [apply pretty_Z_colon_free..|exact Hp].
Qed.
End key_facts.

(** ** The endpoints *)

Section client_facts.
Import Sessions StreamClient.
Variable createAnswer : pc → json.
Implicit Types (c : client) (sdp : json).

(** [_getOrCreatePC] on a key that has a session returns that session. *)
Lemma getOrCreatePC_existing remote panel r c :
  JsMap.get (key remote panel) (peerConnections c) = Some r →
  _getOrCreatePC remote panel c = (r, c).
Proof. intros Hg. unfold _getOrCreatePC. by rewrite Hg. Qed.

(** [_getOrCreatePC] on a key without a session allocates a connection
    and stores it under the key. *)
Lemma getOrCreatePC_absent remote panel c :
  JsMap.get (key remote panel) (peerConnections c) = None →
  let rc := _getOrCreatePC remote panel c in
  rc.1 = length (store c)
  ∧ store rc.2 = store c ++ [PC remote panel false JUndef JUndef []]
  ∧ JsMap.get (key remote panel) (peerConnections rc.2) = Some rc.1.
Proof.
  intros Hg. unfold _getOrCreatePC. rewrite Hg. simpl.
  split; [done|]. split; [done|]. apply get_set_eq.
Qed.

(** C1, as the code has it.  An offer for a key that already has a session
    is applied to that session's connection: the session map is left as it
    is (the key still holds the same connection), no connection is created,
    none is closed, and the connection takes the offer as its remote
    description and the answer as its local one. *)
Theorem offer_reuses_existing_session fromId panel sdp r c :
  JsMap.get (key fromId panel) (peerConnections c) = Some r →
  let c' := (_handleSignal createAnswer (Offer fromId panel sdp) c).1 in
  peerConnections c' = peerConnections c
  ∧ JsMap.get (key fromId panel) (peerConnections c') = Some r
  ∧ length (store c') = length (store c)
  ∧ (∀ i, closed <$> store c' !! i = closed <$> store c !! i)
  ∧ (∀ p, store c !! r = Some p →
       ∃ p', store c' !! r = Some p'
             ∧ remoteDescription p' = sdp
             ∧ localDescription p'
               = createAnswer (PC (remotePeerId p) (panelId p) (closed p) sdp
                                  (localDescription p) (candidates p))
             ∧ closed p' = closed p).
Proof.
  intros Hg. unfold _handleSignal.
  rewrite (getOrCreatePC_existing _ _ _ _ Hg). simpl.
  split; [done|]. split; [done|]. split; [apply length_alter|]. split.
  - intros i. destruct (decide (r = i)) as [->|Hne].
    + rewrite list_lookup_alter_eq. by destruct (store c !! i).
    + by rewrite list_lookup_alter_ne.
  - intros p Hp. rewrite list_lookup_alter_eq, Hp. simpl. eauto.
Qed.

(** C1, as the claim has it, fails: a second offer of capture peer 1 for
    [panel-main] leaves the first connection open and in place. *)
Lemma second_offer_keeps_first_session :
  ¬ offer_replaces_session constant_answer 1 "panel-main" (JStr "offer-2")
      viewer_in_session.
Proof.
  intros Hclaim. destruct (Hclaim 0%nat eq_refl) as [Hclosed _].
  vm_compute in Hclosed. discriminate Hclosed.
Qed.

(** C9. The viewer files an input channel under a panel id alone: the key
    is taken from the channel label ([input:<panelId>]) or, failing that,
    from the panel of the session that delivered it, never from the capture
    peer; a channel for the same panel delivered by another session
    replaces the one held; and [releasePanel] removes the channel filed
    under the panel id whatever capture peer it is given, leaving the
    channels of other panels alone. *)
Theorem input_channels_keyed_by_panel rA rB pA pB lbl panel target c :
  store c !! rA = Some pA → store c !! rB = Some pB →
  let cA := ondatachannel rA ("input:" +:+ panel) c in
  let cB := ondatachannel rB ("input:" +:+ panel) cA in
  dataChannels (ondatachannel rA lbl c)
    = <[(if String.prefix "input:" lbl then slice 6 lbl else panelId pA)
        := Channel lbl rA]> (dataChannels c)
  ∧ dataChannels cA !! panel = Some (Channel ("input:" +:+ panel) rA)
  ∧ dataChannels cB = <[panel := Channel ("input:" +:+ panel) rB]> (dataChannels c)
  ∧ dataChannels cB !! panel = Some (Channel ("input:" +:+ panel) rB)
  ∧ dataChannels (releasePanel target panel cB).1 !! panel = None
  ∧ (∀ other, other ≠ panel →
       dataChannels (releasePanel target panel cB).1 !! other
       = dataChannels c !! other).
Proof.
  intros HA HB cA cB.
  assert (Hkey : ∀ r p c0, store c0 !! r = Some p →
            dataChannels (ondatachannel r ("input:" +:+ panel) c0)
            = <[panel := Channel ("input:" +:+ panel) r]> (dataChannels c0)).
  { intros r p c0 Hr. unfold ondatachannel. rewrite Hr, prefix_append.
    change (slice 6 ("input:" +:+ panel)) with panel. done. }
  assert (HstoreA : store cA = store c).
  { unfold cA, ondatachannel. by rewrite HA. }
  assert (HchB : dataChannels cB
                 = <[panel := Channel ("input:" +:+ panel) rB]> (dataChannels c)).
  { unfold cB. rewrite (Hkey rB pB) by (by rewrite HstoreA).
    unfold cA. rewrite (Hkey rA pA) by done. apply insert_insert_eq. }
  assert (Hrel : ∀ c0, dataChannels (releasePanel target panel c0).1
                       = delete panel (dataChannels c0)).
  { intros c0. unfold releasePanel.
    by destruct (JsMap.get (key target panel) (peerConnections c0)). }
  split; [|split; [|split; [|split; [|split]]]].
  - unfold ondatachannel. by rewrite HA.
  - unfold cA. rewrite (Hkey rA pA) by done. apply lookup_insert_eq.
  - done.
  - rewrite HchB. apply lookup_insert_eq.
  - rewrite Hrel. apply lookup_delete_eq.
  - intros other Hne. rewrite Hrel, lookup_delete_ne, HchB by done.
    by rewrite lookup_insert_ne.
Qed.

(** The [peer-disconnected] arm leaves the sessions with every other peer
    in place, and their connections as they were. *)
Lemma peer_disconnected_keeps_other_sessions p q panel c :
  p ≠ q →
  let c' := (_handleSignal createAnswer (PeerDisconnected p) c).1 in
  JsMap.get (key q panel) (peerConnections c')
    = JsMap.get (key q panel) (peerConnections c)
  ∧ (∀ r, (∀ k, (k, r) ∈ peerConnections c → ¬ sessionOf p k) →
       store c' !! r = store c !! r).
Proof.
  intros Hne. simpl.
  destruct (closePeer p (peerConnections c) (store c))
    as [sessions objs] eqn:Hcp. simpl.
  destruct (closePeer_spec p (peerConnections c) (store c))
    as (_ & _ & _ & _ & Hkeep & _ & Hsame).
  rewrite Hcp in Hkeep, Hsame. simpl in *. split; [|done].
  apply Hkeep. intros Hs. by apply key_sessionOf_iff in Hs.
Qed.

(** An offer for a key without a session creates one: a new, open
    connection is stored under the key and the answer goes out. *)
Lemma offer_creates_session_when_absent fromId panel sdp c :
  JsMap.get (key fromId panel) (peerConnections c) = None →
  let c' := (_handleSignal createAnswer (Offer fromId panel sdp) c).1 in
  JsMap.get (key fromId panel) (peerConnections c') = Some (length (store c))
  ∧ length (store c') = S (length (store c))
  ∧ closed <$> store c' !! length (store c) = Some false.
Proof.
  intros Hg. unfold _handleSignal, _getOrCreatePC. rewrite Hg. simpl.
  split; [apply get_set_eq|]. split.
  - rewrite length_alter, length_app. simpl. lia.
  - rewrite list_lookup_alter_eq, lookup_app_r by done.
    by rewrite Nat.sub_diag.
Qed.
End client_facts.

(** ** Disconnects, end to end *)

Section disconnect_facts.
Import Server Sessions.

(** C3. When a connected peer [p] disconnects in any state the server can
    be in: its entry leaves the registry; in every state of every later run
    of events it is in neither the registry nor the list of capture-role
    peers; one [peer-disconnected] notification carrying [p] goes to every
    remaining peer whose socket is open and to no one else.  And every
    endpoint that processes the notification, viewer or capture client, is
    left without any session keyed by [p], the connections of those
    sessions closed. *)
Theorem disconnect_clears_registry_and_sessions open s p
    (createAnswer : pc → json) (v : StreamClient.client)
    (cc : CaptureClient.client) :
  reachable s → is_Some (JsMap.get p (peers s)) →
  let note := JObj [("type", JStr "peer-disconnected"); ("peerId", JNum p)] in
  let v' := (StreamClient._handleSignal createAnswer
               (StreamClient.PeerDisconnected p) v).1 in
  let cc' := CaptureClient.peerDisconnected p cc in
  (∃ s1 out, close open p s = Done s1 out
     ∧ JsMap.get p (peers s1) = None
     ∧ (p ∉ (capturePeers s1).*1)
     ∧ (∀ es, Forall (λ s', JsMap.get p (peers s') = None
                            ∧ p ∉ (capturePeers s').*1) (trace es s1))
     ∧ (∀ to m, (to, m) ∈ out ↔
          m = note ∧ open to = true ∧ to ≠ p ∧ to ∈ (peers s).*1)
     ∧ ((∀ e, e ∈ peers s1 → open e.1 = true) →
          out = (λ e, (e.1, note)) <$> peers s1))
  ∧ ((∀ panelId, JsMap.get (key p panelId) (StreamClient.peerConnections v')
                 = None)
     ∧ (∀ e, e ∈ StreamClient.peerConnections v' → ¬ sessionOf p e.1)
     ∧ (∀ k r, (k, r) ∈ StreamClient.peerConnections v → sessionOf p k →
          is_Some (StreamClient.store v !! r) →
          is_closed r (StreamClient.store v')))
  ∧ ((∀ panelId, JsMap.get (key p panelId) (CaptureClient.peerConnections cc')
                 = None)
     ∧ (∀ e, e ∈ CaptureClient.peerConnections cc' → ¬ sessionOf p e.1)
     ∧ (∀ k r, (k, r) ∈ CaptureClient.peerConnections cc → sessionOf p k →
          is_Some (CaptureClient.store cc !! r) →
          is_closed r (CaptureClient.store cc'))).
Proof.
  intros Hr Hin note v' cc'. split; [|split].
  - destruct (close_broadcast open p s) as (Hclose & Hout & Hall).
    eexists _, _. split; [exact Hclose|]. simpl.
    assert (Hgone : JsMap.get p (JsMap.delete p (peers s)) = None).
    { rewrite get_delete, decide_True; done. }
    split; [done|]. split; [by apply absent_not_capture|].
    split; [|split; [exact Hout | exact Hall]].
    intros es.
    assert (Hlt : p < nextPeerId s) by (by apply reachable_keys_lt).
    eapply Forall_impl.
    + apply (trace_keeps_out es _ p); [exact Hgone | exact Hlt].
    + intros s' Hs'. split; [done | by apply absent_not_capture].
  - unfold v'. simpl.
    destruct (closePeer p (StreamClient.peerConnections v) (StreamClient.store v))
      as [sessions objs] eqn:Hcp. simpl.
    destruct (closePeer_spec p (StreamClient.peerConnections v)
                (StreamClient.store v)) as (_ & _ & Hnone & Hno & _ & Hcl & _).
    rewrite Hcp in Hnone, Hno, Hcl. simpl in *.
    split; [|split; [done|done]].
    intros panelId. apply Hnone, key_sessionOf.
  - unfold cc', CaptureClient.peerDisconnected.
    destruct (closePeer p (CaptureClient.peerConnections cc)
                (CaptureClient.store cc)) as [sessions objs] eqn:Hcp. simpl.
    destruct (closePeer_spec p (CaptureClient.peerConnections cc)
                (CaptureClient.store cc)) as (_ & _ & Hnone & Hno & _ & Hcl & _).
    rewrite Hcp in Hnone, Hno, Hcl. simpl in *.
    split; [|split; [done|done]].
    intros panelId. apply Hnone, key_sessionOf.
Qed.
End disconnect_facts.

(** ** The properties at work *)

Section witnesses.
Import Server Sessions.

(** A frame from id 7, which the registry does not hold, is dropped. *)
Lemma unknown_sender_ignored_witness :
  JsMap.get 7 (peers one_unregistered) = None
  ∧ handleMessage all_open 7 JNull one_unregistered = Done one_unregistered [].
Proof.
  split; [reflexivity|].
  apply (unknown_sender_ignored all_open 7 JNull one_unregistered).
  reflexivity.
Defined.

(** The viewer's [panel-request] reaches capture peer 1 and no one else. *)
Lemma panel_request_fanout_witness :
  JsMap.get 2 (peers capture_and_viewer)
    = Some (Peer (JStr "viewer") (JArr []) JUndef)
  ∧ field "type" sample_panel_request = JStr "panel-request"
  ∧ packets (handleMessage all_open 2 (JObj sample_panel_request)
               capture_and_viewer)
    = [(1, JObj [("type", JStr "panel-request"); ("fromId", JNum 2);
                 ("panelId", JStr "panel-main")])].
Proof.
  split; [reflexivity|]. split; [reflexivity|].
  destruct (panel_request_fanout all_open 2
              (Peer (JStr "viewer") (JArr []) JUndef) sample_panel_request
              capture_and_viewer eq_refl eq_refl)
    as (out & Heq & Hout & _).
  rewrite Heq. simpl. rewrite Hout. reflexivity.
Defined.

(** The second connection is told of peer 1, which has not registered. *)
Lemma welcome_lists_every_other_peer_witness :
  reachable one_unregistered
  ∧ welcomePeers (connection all_open one_unregistered)
    = [JObj [("peerId", JNum 1); ("role", JNull); ("panelIds", JArr [])]].
Proof.
  assert (Hr : reachable one_unregistered).
  { apply (reachable_last [(all_open, Connection)]). reflexivity. }
  split; [exact Hr|].
  destruct (welcome_lists_every_other_peer all_open one_unregistered Hr)
    as (cached & _ & Hlist).
  rewrite Hlist; reflexivity.
Defined.

(** A viewer alone in the registry is sent its own [peer-registered]. *)
Lemma register_notifies_every_peer_witness :
  JsMap.get 1 (peers one_unregistered) = Some (Peer JNull (JArr []) JUndef)
  ∧ registration register_viewer
  ∧ (1, JObj [("type", JStr "peer-registered"); ("peerId", JNum 1);
              ("role", JStr "viewer"); ("panelIds", JArr [])])
    ∈ packets (handleMessage all_open 1 (JObj register_viewer) one_unregistered).
Proof.
  assert (Hreg : registration register_viewer).
  { split; reflexivity. }
  split; [reflexivity|]. split; [exact Hreg|].
  destruct (register_notifies_every_peer all_open 1
              (Peer JNull (JArr []) JUndef) register_viewer one_unregistered
              eq_refl Hreg)
    as (s' & out & Heq & _ & _ & _ & Hself & _).
  rewrite Heq. simpl. apply Hself. reflexivity.
Defined.

(** The viewer's [capture-window] for capture peer 1 is relayed to it. *)
Lemma command_routing_witness :
  JsMap.get 2 (peers capture_and_viewer)
    = Some (Peer (JStr "viewer") (JArr []) JUndef)
  ∧ is_command sample_capture_window
  ∧ packets (handleMessage all_open 2 (JObj sample_capture_window)
               capture_and_viewer)
    = [(1, relayed 2 sample_capture_window)].
Proof.
  split; [reflexivity|]. split; [left; reflexivity|].
  destruct (command_routing all_open 2 (Peer (JStr "viewer") (JArr []) JUndef)
              sample_capture_window capture_and_viewer eq_refl
              (or_introl eq_refl))
    as (out & Heq & _ & _ & Hfw).
  rewrite Heq. simpl.
  apply (Hfw 1 (Peer (JStr "capture") (JArr [JStr "panel-main"]) JUndef));
    reflexivity.
Defined.

(** A capture peer that re-registers twice and then as a viewer without panels is stored as a viewer without panels. *)
Lemma reregistration_last_writer_wins_witness :
  JsMap.get 1 (peers capture_and_viewer)
    = Some (Peer (JStr "capture") (JArr [JStr "panel-main"]) JUndef)
  ∧ Forall (λ om : (Z → bool) * list (string * json), registration om.2)
      [(all_open, register_capture []);
       (all_open, register_capture [JStr "a"; JStr "b"])]
  ∧ registration register_viewer
  ∧ ∃ s' me',
      last (trace (registrations 1
                     [(all_open, register_capture []);
                      (all_open, register_capture [JStr "a"; JStr "b"]);
                      (all_open, register_viewer)])
              capture_and_viewer) = Some s'
      ∧ JsMap.get 1 (peers s') = Some me'
      ∧ role me' = JStr "viewer" ∧ panelIds me' = JArr [].
Proof.
  assert (Hview : registration register_viewer).
  { split; reflexivity. }
  assert (Hall : Forall (λ om : (Z → bool) * list (string * json),
                           registration om.2)
                   [(all_open, register_capture []);
                    (all_open, register_capture [JStr "a"; JStr "b"])]).
  { repeat constructor; reflexivity. }
  split; [reflexivity|]. split; [exact Hall|]. split; [exact Hview|].
  destruct (reregistration_last_writer_wins 1
              (Peer (JStr "capture") (JArr [JStr "panel-main"]) JUndef)
              [(all_open, register_capture []);
               (all_open, register_capture [JStr "a"; JStr "b"])]
              all_open register_viewer capture_and_viewer eq_refl Hall Hview)
    as (s' & me' & Hlast & _ & Hget & Hrole & Hpanels & _).
  exists s', me'. split; [exact Hlast|]. split; [exact Hget|].
  split; [exact Hrole | exact Hpanels].
Defined.

(** After the notification the viewer holds no session with peer 1, and the capture client none with viewer 2. *)
Lemma disconnect_clears_registry_and_sessions_witness :
  reachable one_unregistered
  ∧ is_Some (JsMap.get 1 (peers one_unregistered))
  ∧ JsMap.get (key 1 "panel-main")
      (StreamClient.peerConnections
         (StreamClient._handleSignal constant_answer
            (StreamClient.PeerDisconnected 1) viewer_two_captures).1) = None
  ∧ JsMap.get (key 2 "panel-main")
      (CaptureClient.peerConnections
         (CaptureClient.peerDisconnected 2 capture_in_session)) = None.
Proof.
  assert (Hr : reachable one_unregistered).
  { apply (reachable_last [(all_open, Connection)]). reflexivity. }
  assert (Hin : is_Some (JsMap.get 1 (peers one_unregistered))).
  { eexists. reflexivity. }
  split; [exact Hr|]. split; [exact Hin|]. split.
  - destruct (disconnect_clears_registry_and_sessions all_open
                one_unregistered 1 constant_answer viewer_two_captures
                capture_in_session Hr Hin) as (_ & (Hv & _) & _).
    apply Hv.
  - assert (Hr2 : reachable two_viewers).
    { apply (reachable_last
        [(all_open, Connection); (all_open, Connection);
         (all_open, Message 1 (Some (JObj register_viewer)));
         (all_open, Message 2 (Some (JObj register_viewer)))]).
      reflexivity. }
    assert (Hin2 : is_Some (JsMap.get 2 (peers two_viewers))).
    { eexists. reflexivity. }
    destruct (disconnect_clears_registry_and_sessions all_open
                two_viewers 2 constant_answer viewer_two_captures
                capture_in_session Hr2 Hin2) as (_ & _ & (Hc & _)).
    apply Hc.
Defined.

(** A second offer for [1:panel-main] leaves the viewer's session map as it was. *)
Lemma offer_reuses_existing_session_witness :
  JsMap.get (key 1 "panel-main") (StreamClient.peerConnections viewer_in_session)
    = Some 0%nat
  ∧ StreamClient.peerConnections
      (StreamClient._handleSignal constant_answer
         (StreamClient.Offer 1 "panel-main" (JStr "offer-2"))
         viewer_in_session).1
    = StreamClient.peerConnections viewer_in_session.
Proof.
  split; [reflexivity|].
  destruct (offer_reuses_existing_session constant_answer 1 "panel-main"
              (JStr "offer-2") 0%nat viewer_in_session eq_refl)
    as (Hsame & _).
  exact Hsame.
Defined.

(** A channel delivered by the session with capture peer 2 is removed by [releasePanel(1, panel-main)]. *)
Lemma input_channels_keyed_by_panel_witness :
  StreamClient.store viewer_two_captures !! 0%nat
    = Some (PC 1 "panel-main" false JUndef JUndef [])
  ∧ StreamClient.store viewer_two_captures !! 1%nat
    = Some (PC 2 "panel-main" false JUndef JUndef [])
  ∧ StreamClient.dataChannels
      (StreamClient.releasePanel 1 "panel-main"
         (StreamClient.ondatachannel 1 "input:panel-main"
            (StreamClient.ondatachannel 0 "input:panel-main"
               viewer_two_captures))).1
    !! "panel-main" = None.
Proof.
  split; [reflexivity|]. split; [reflexivity|].
  destruct (input_channels_keyed_by_panel 0%nat 1%nat
              (PC 1 "panel-main" false JUndef JUndef [])
              (PC 2 "panel-main" false JUndef JUndef [])
              "input:panel-main" "panel-main" 1 viewer_two_captures
              eq_refl eq_refl)
    as (_ & _ & _ & _ & Hrel & _).
  exact Hrel.
Defined.
End witnesses.

(** * Further properties of the broker *)

Section registry_ids.
Import Server.

Lemma keys_delete {V} (k : Z) (m : list (Z * V)) :
  (JsMap.delete k m).*1 = filter (λ k', k' ≠ k) m.*1.
Proof.
  unfold JsMap.delete. induction m as [|[k0 v0] m IH]; [done|].
  rewrite fmap_cons, !filter_cons. simpl.
  destruct (decide (k0 ≠ k)); [rewrite fmap_cons|]; by rewrite IH.
Qed.

Lemma StronglySorted_filter {A} (R : relation A) (P : A → Prop)
    `{!∀ x, Decision (P x)} (l : list A) :
  StronglySorted R l → StronglySorted R (filter P l).
Proof.
  induction l as [|x l IH]; [done|].
  rewrite StronglySorted_cons, filter_cons. intros [Hx Hl].
  destruct (decide (P x)); [|by apply IH].
  apply StronglySorted_cons. split; [|by apply IH].
  apply Forall_forall. intros y Hy. apply list_elem_of_filter in Hy as [_ Hy].
  by eapply Forall_forall in Hx.
Qed.

Lemma step_ids_ok open e s s' out :
  ids_ok s → step open e s = Done s' out → ids_ok s'.
Proof.
  intros (Hsort & Hone & Hlt). destruct e as [|fromId [msg|]|q]; simpl.
  - unfold connection. intros [= <- _]. unfold ids_ok. cbn [peers nextPeerId].
    assert (Hfresh : JsMap.get (nextPeerId s) (peers s) = None).
    { apply get_None_keys. intros Hin. apply Hlt in Hin. lia. }
    rewrite (set_absent _ _ _ Hfresh), fmap_app. cbn [fmap list_fmap fst].
    split; [|split; [lia|]].
    + apply StronglySorted_app. split; [|split; [done|]].
      * intros x1 x2 Hx1 Hx2. apply list_elem_of_singleton in Hx2 as ->.
        apply Hlt in Hx1. lia.
      * repeat constructor.
    + intros k Hk. apply elem_of_app in Hk as [Hk | Hk].
      * apply Hlt in Hk. lia.
      * apply list_elem_of_singleton in Hk as ->. lia.
  - intros Hm.
    apply handleMessage_peers in Hm as [Hn [Hp | (me & me' & Hme & Hp)]].
    + unfold ids_ok. by rewrite Hn, Hp.
    + unfold ids_ok. rewrite Hn, Hp, keys_set_present by eauto. done.
  - by intros [= <- _].
  - unfold close. intros [= <- _]. unfold ids_ok. simpl.
    rewrite keys_delete. split; [by apply StronglySorted_filter|].
    split; [done|]. intros k Hk. apply list_elem_of_filter in Hk as [_ Hk].
    by apply Hlt.
Qed.

(** X1. In every state the server can be in, the registry lists its peers
    in order of arrival with strictly increasing ids, every id is at least
    1 and below [nextPeerId]; so ids are unique, and the id the next
    connection gets is held by no peer and was never handed out
    before. *)
Theorem registry_ids_invariant s :
  reachable s →
  ids_ok s ∧ NoDup (peers s).*1
  ∧ JsMap.get (nextPeerId s) (peers s) = None.
Proof.
  intros Hr.
  assert (Hok : ids_ok s).
  { induction Hr as [|o e s s' out Hr IH Hstep].
    - split; [constructor|]. split; [done|]. intros k Hk.
      by apply elem_of_nil in Hk.
    - by eapply step_ids_ok. }
  split; [done|]. destruct Hok as (Hsort & Hone & Hlt). split.
  - clear Hlt. induction Hsort as [|k l Hl IH Hk]; [constructor|].
    apply NoDup_cons. split; [|done]. intros Hin.
    eapply Forall_forall in Hk; [|exact Hin]. lia.
  - apply get_None_keys. intros Hin. apply Hlt in Hin. lia.
Qed.

(** Along a run the next id never goes down. *)
Lemma trace_next_mono es s :
  Forall (λ s', nextPeerId s ≤ nextPeerId s') (trace es s).
Proof.
  revert s. induction es as [|[o e] es IH]; intros s; simpl; [constructor|].
  destruct (step o e s) as [s' out|] eqn:Hstep; [|constructor].
  destruct (step_keys o e s s' out 0 Hstep) as [Hle _].
  constructor; [done|]. eapply Forall_impl; [apply IH|].
  intros s'' Hs''. simpl in Hs''. lia.
Qed.

(** X2. Whatever the event, the broker writes only to sockets that are
    open and belong to peers that are in the registry once the event is
    handled: never to a peer that has left, never to an id it has not
    handed out. *)
Theorem packets_reach_registered_open_peers open e s s' out to m :
  step open e s = Done s' out → (to, m) ∈ out →
  open to = true ∧ is_Some (JsMap.get to (peers s')).
Proof.
  assert (Hsend : ∀ t (note : json), (to, m) ∈ send open t note →
            open to = true ∧ to = t).
  { intros t note Hin. apply elem_of_send in Hin as [[= -> ->] Ho]. done. }
  assert (Hfan : ∀ (ps : list (Z * peer)) (f : Z * peer → list packet),
            (∀ e0, (to, m) ∈ f e0 → open to = true ∧ to = e0.1) →
            (to, m) ∈ ps ≫= f →
            open to = true ∧ is_Some (JsMap.get to ps)).
  { intros ps f Hf Hin. apply list_elem_of_bind in Hin as [[k q] [Hk Hq]].
    apply Hf in Hk as [Ho ->]. split; [done|]. apply elem_keys_get.
    apply list_elem_of_fmap. by exists (k, q). }
  destruct e as [|fromId [msg|]|q]; simpl.
  - unfold connection. intros [= <- <-] Hin. simpl.
    apply Hsend in Hin as [Ho ->]. split; [done|]. rewrite get_set_eq. eauto.
  - unfold handleMessage.
    destruct (JsMap.get fromId (peers s)) as [me|] eqn:Hme;
      [|intros [= <- <-] Hin; by apply elem_of_nil in Hin].
    destruct msg as [| |b|n|str|xs|fs]; try done;
      try (intros [= <- <-] Hin; by apply elem_of_nil in Hin).
    unfold handleObject. destruct (kind_of (field "type" fs)).
    + destruct (printable (field "role" fs)); [|done].
      destruct (js_or (field "panelIds" fs) (JArr [])) as [| | | | |l|];
        try done.
      destruct (forallb printable l); [|done].
      intros [= <- <-] Hin. simpl. eapply Hfan; [|exact Hin].
      intros e0 He0. simpl in He0. by apply Hsend in He0.
    + destruct (lookup_target _ _) as [[t p]|] eqn:Ht;
        [|destruct (printable _); [|done]];
        intros [= <- <-] Hin; [|by apply elem_of_nil in Hin].
      apply lookup_target_Some in Ht as [_ Ht].
      apply Hsend in Hin as [Ho ->]. eauto.
    + intros [= <- <-] Hin.
      apply list_elem_of_bind in Hin as [[k q] [Hk Hq]].
      apply Hsend in Hk as [Ho ->]. split; [done|].
      apply list_elem_of_filter in Hq as [_ Hq]. apply elem_keys_get.
      apply list_elem_of_fmap. by exists (k, q).
    + intros [= <- <-] Hin. simpl. eapply Hfan; [|exact Hin].
      intros e0 He0. cbv beta in He0. destruct (is_str "viewer" (role e0.2));
        [by apply Hsend in He0 | by apply elem_of_nil in He0].
    + intros [= <- <-] Hin. eapply Hfan; [|exact Hin].
      intros e0 He0. cbv beta in He0. destruct (is_capture e0);
        [by apply Hsend in He0 | by apply elem_of_nil in He0].
    + destruct (lookup_target _ _) as [[t p]|] eqn:Ht;
        [destruct (is_str "capture" (role p))|];
        intros [= <- <-] Hin; try (by apply elem_of_nil in Hin).
      apply lookup_target_Some in Ht as [_ Ht].
      apply Hsend in Hin as [Ho ->]. eauto.
    + destruct (printable _); [|done].
      intros [= <- <-] Hin. by apply elem_of_nil in Hin.
  - intros [= <- <-] Hin. by apply elem_of_nil in Hin.
  - unfold close. intros [= <- <-] Hin. simpl. eapply Hfan; [|exact Hin].
    intros e0 He0. simpl in He0. by apply Hsend in He0.
Qed.
End registry_ids.

Section routing_more.
Import Server.
Implicit Types (s : broker) (msg : list (string * json)) (open : Z → bool).

Lemma field_set k k' (v : json) msg :
  field k (JsMap.set k' v msg) = if decide (k = k') then v else field k msg.
Proof. unfold field. rewrite get_set. by destruct (decide (k = k')). Qed.

Lemma kind_of_register (t : json) : kind_of t = KRegister ↔ t = JStr "register".
Proof.
  split; [|by intros ->]. destruct t as [| | | |str| |]; try done. simpl.
  repeat (case_decide; try done). by subst.
Qed.

Lemma kind_of_directed_inv msg :
  kind_of (field "type" msg) = KDirected → is_directed msg.
Proof.
  unfold is_directed. destruct (field "type" msg) as [| | | |str| |];
    try done. simpl.
  repeat (case_decide; try done); subst; auto.
Qed.

Lemma kind_of_window_list (t : json) :
  kind_of t = KWindowList ↔ t = JStr "window-list".
Proof.
  split; [|by intros ->]. destruct t as [| | | |str| |]; try done. simpl.
  repeat (case_decide; try done). by subst.
Qed.

(** X3. Every message the broker sends while handling a message of peer
    [fromId] names that peer: relayed and fanned-out messages carry it as
    [fromId], the registration notice as [peerId].  A relayed message is
    the sender's own message otherwise: a [fromId] the sender wrote is
    overwritten, every other property is passed on as it is. *)
Theorem sender_id_is_stamped open fromId (msg : json) s s' out to m :
  handleMessage open fromId msg s = Done s' out → (to, m) ∈ out →
  (prop "fromId" m = JNum fromId
   ∨ (prop "type" m = JStr "peer-registered"
      ∧ prop "peerId" m = JNum fromId))
  ∧ (∀ fs, msg = JObj fs →
       kind_of (field "type" fs) = KDirected
       ∨ kind_of (field "type" fs) = KCommand →
       ∀ k, prop k m = if decide (k = "fromId") then JNum fromId
                       else field k fs).
Proof.
  assert (Hsend : ∀ t (note : json), (to, m) ∈ send open t note → m = note).
  { intros t note Hin. by apply elem_of_send in Hin as [[= -> ->] _]. }
  unfold handleMessage.
  destruct (JsMap.get fromId (peers s)) as [me|];
    [|intros [= <- <-] Hin; by apply elem_of_nil in Hin].
  destruct msg as [| |b|n|str|xs|fs]; try done;
    try (intros [= <- <-] Hin; by apply elem_of_nil in Hin).
  unfold handleObject. destruct (kind_of (field "type" fs)) eqn:Hkind.
  - destruct (printable (field "role" fs)); [|done].
    destruct (js_or (field "panelIds" fs) (JArr [])) as [| | | | |l|];
      try done.
    destruct (forallb printable l); [|done].
    intros [= <- <-] Hin. apply list_elem_of_bind in Hin as [e0 [He0 _]].
    simpl in He0. apply Hsend in He0 as ->. split; [right; split; reflexivity|].
    intros fs' [= <-] [? | ?]; congruence.
  - destruct (lookup_target _ _) as [[t p]|];
      [|destruct (printable _); [|done]];
      intros [= <- <-] Hin; [|by apply elem_of_nil in Hin].
    apply Hsend in Hin as ->. split.
    + left. simpl. by rewrite field_set.
    + intros fs' [= <-] _ k. simpl. apply field_set.
  - intros [= <- <-] Hin. apply list_elem_of_bind in Hin as [e0 [He0 _]].
    apply Hsend in He0 as ->. split; [left; reflexivity|].
    intros fs' [= <-] [? | ?]; congruence.
  - intros [= <- <-] Hin. apply list_elem_of_bind in Hin as [e0 [He0 _]].
    cbv beta in He0. destruct (is_str "viewer" (role e0.2));
      [|by apply elem_of_nil in He0].
    apply Hsend in He0 as ->. split; [left; reflexivity|].
    intros fs' [= <-] [? | ?]; congruence.
  - intros [= <- <-] Hin. apply list_elem_of_bind in Hin as [e0 [He0 _]].
    cbv beta in He0. destruct (is_capture e0); [|by apply elem_of_nil in He0].
    apply Hsend in He0 as ->. split; [left; reflexivity|].
    intros fs' [= <-] [? | ?]; congruence.
  - destruct (lookup_target _ _) as [[t p]|];
      [destruct (is_str "capture" (role p))|];
      intros [= <- <-] Hin; try (by apply elem_of_nil in Hin).
    apply Hsend in Hin as ->. split.
    + left. simpl. by rewrite field_set.
    + intros fs' [= <-] _ k. simpl. apply field_set.
  - destruct (printable _); [|done].
    intros [= <- <-] Hin. by apply elem_of_nil in Hin.
Qed.

(** X4. [handleMessage] throws in these cases only, all for a sender that
    is in the registry: the parsed message is [null]; it is a [register]
    message whose log line cannot be written (its role does not convert to
    a string, or its [panelIds] is truthy and not an array, or is an array
    with an element that does not convert); it is an offer, answer or
    ice-candidate whose target is not in the registry and whose [targetId]
    does not convert to a string; or its [type] does not convert to a
    string.  Every other message is handled without an exception. *)
Theorem handleMessage_throws_iff open fromId (msg : json) s :
  handleMessage open fromId msg s = Thrown ↔
  is_Some (JsMap.get fromId (peers s))
  ∧ (msg = JNull ∨ msg = JUndef
     ∨ ∃ fs, msg = JObj fs ∧
         ((field "type" fs = JStr "register" ∧ loggable fs = false)
          ∨ (is_directed fs
             ∧ lookup_target (peers s) (field "targetId" fs) = None
             ∧ printable (field "targetId" fs) = false)
          ∨ printable (field "type" fs) = false)).
Proof.
  unfold handleMessage.
  destruct (JsMap.get fromId (peers s)) as [me|];
    [|split; [done | by intros [[? ?] _]]].
  destruct msg as [| |b|n|str|xs|fs].
  - split; [eauto | done].
  - split; [eauto | done].
  - split; [done | intros [_ [? | [? | (fs & ? & _)]]]; done].
  - split; [done | intros [_ [? | [? | (fs & ? & _)]]]; done].
  - split; [done | intros [_ [? | [? | (fs & ? & _)]]]; done].
  - split; [done | intros [_ [? | [? | (fs & ? & _)]]]; done].
  - unfold handleObject. split.
    + intros Hthrown. split; [eauto|]. right. right. exists fs. split; [done|].
      destruct (kind_of (field "type" fs)) eqn:Hkind; try done.
      * apply kind_of_register in Hkind. left. split; [done|]. unfold loggable.
        destruct (printable (field "role" fs)); [|done].
        destruct (js_or (field "panelIds" fs) (JArr [])) as [| | | | |l|];
          try done.
        by destruct (forallb printable l).
      * apply kind_of_directed_inv in Hkind. right. left. split; [done|].
        destruct (lookup_target _ _) as [[t p]|]; [done|].
        by destruct (printable (field "targetId" fs)).
      * destruct (lookup_target _ _) as [[t p]|]; [|done].
        by destruct (is_str "capture" (role p)).
      * right. right. by destruct (printable (field "type" fs)).
    + intros [_ [? | [? | (fs' & [= <-] & Hcase)]]]; try done.
      destruct Hcase as [[Htype Hlog] | [(Hdir & Hnone & Hp) | Hp]].
      * rewrite Htype. simpl kind_of. cbv beta iota zeta.
        unfold loggable in Hlog.
        destruct (printable (field "role" fs)); [|done].
        destruct (js_or (field "panelIds" fs) (JArr [])) as [| | | | |l|];
          try done.
        simpl in Hlog. by rewrite Hlog.
      * by rewrite (kind_of_directed _ Hdir), Hnone, Hp.
      * destruct (field "type" fs) as [| | | | |l|o] eqn:Htype; try done;
          simpl kind_of; cbv beta iota; by rewrite Hp.
Qed.

(** X5. Only [register] and [window-list] messages touch the registry:
    every other message object, whatever its type and fields, either is
    handled and leaves the broker's state exactly as it was, or throws; and
    it is handled whenever its [type] and its [targetId] convert to
    strings. *)
Theorem relay_arms_leave_registry open fromId msg s :
  field "type" msg ≠ JStr "register" →
  field "type" msg ≠ JStr "window-list" →
  (∀ s' out, handleMessage open fromId (JObj msg) s = Done s' out → s' = s)
  ∧ (printable (field "type" msg) = true →
     printable (field "targetId" msg) = true →
     ∃ out, handleMessage open fromId (JObj msg) s = Done s out).
Proof.
  intros Hreg Hwl. unfold handleMessage.
  destruct (JsMap.get fromId (peers s)) as [me|];
    [|split; [by intros ? ? [= <- _] | eauto]].
  unfold handleObject. destruct (kind_of (field "type" msg)) eqn:Hkind.
  - by apply kind_of_register in Hkind.
  - destruct (lookup_target _ _) as [[t p]|].
    + split; [by intros ? ? [= <- _] | eauto].
    + split; [destruct (printable _); by intros ? ? [= <- _]|].
      intros _ ->. eauto.
  - split; [by intros ? ? [= <- _] | eauto].
  - by apply kind_of_window_list in Hkind.
  - split; [by intros ? ? [= <- _] | eauto].
  - destruct (lookup_target _ _) as [[t p]|];
      [destruct (is_str "capture" (role p))|];
      (split; [by intros ? ? [= <- _] | eauto]).
  - split; [destruct (printable _); by intros ? ? [= <- _]|].
    intros -> _. eauto.
Qed.

(** X6. A [request-window-list] from a registered sender goes, with the
    sender's id as [fromId], to every capture-role peer whose socket is
    open and to no one else; with all registered sockets open the
    recipients are exactly the capture-role peers, in registry order. *)
Theorem request_window_list_fanout open fromId me msg s :
  JsMap.get fromId (peers s) = Some me →
  field "type" msg = JStr "request-window-list" →
  let note := JObj [("type", JStr "request-window-list");
                    ("fromId", JNum fromId)] in
  ∃ out, handleMessage open fromId (JObj msg) s = Done s out ∧
    (∀ to m, (to, m) ∈ out ↔
       m = note ∧ open to = true ∧
       ∃ p, (to, p) ∈ peers s ∧ role p = JStr "capture") ∧
    ((∀ e, e ∈ peers s → open e.1 = true) →
       out = (λ e, (e.1, note)) <$> capturePeers s).
Proof.
  intros Hme Htype note. unfold handleMessage. rewrite Hme.
  unfold handleObject. rewrite Htype. simpl kind_of. cbv beta iota.
  fold note. eexists. split; [reflexivity|]. split.
  - intros to m. rewrite list_elem_of_bind. split.
    + intros [[k p] [He Hin]]. cbv beta in He.
      destruct (is_capture (k, p)) eqn:Hcap; [|by apply elem_of_nil in He].
      apply elem_of_send in He as [[= -> ->] Ho].
      split; [done|]. split; [done|]. exists p. split; [done|].
      by apply is_str_true in Hcap.
    + intros (-> & Ho & p & Hin & Hrole). exists (to, p). split; [|done].
      cbv beta. unfold is_capture. simpl. rewrite Hrole. simpl.
      by apply elem_of_send.
  - clear Hme. unfold capturePeers. generalize (peers s) as ps.
    intros ps Hopen. induction ps as [|e ps IH]; [done|].
    rewrite bind_cons, filter_cons, IH
      by (intros e' He'; apply Hopen, list_elem_of_further, He').
    destruct (is_capture e) eqn:Hcap.
    + rewrite decide_True by done. rewrite fmap_cons. unfold send.
      rewrite Hopen by apply list_elem_of_here. done.
    + rewrite decide_False by done. done.
Qed.
End routing_more.

Section catalogue.
Import Server.
Implicit Types (s : broker) (msg : list (string * json)) (open : Z → bool).

(** X7. A [window-list] message from a registered sender never throws; it
    stores the published catalogue in the sender's own entry and changes
    nothing else in the registry (no other entry, no key, no role); and it
    forwards the catalogue, with the sender's id as [fromId], to every
    viewer-role peer whose socket is open and to no one else. *)
Theorem window_list_cached_and_forwarded open fromId me msg s :
  JsMap.get fromId (peers s) = Some me →
  field "type" msg = JStr "window-list" →
  let note := JObj [("type", JStr "window-list"); ("fromId", JNum fromId);
                    ("windows", field "windows" msg)] in
  ∃ s' out, handleMessage open fromId (JObj msg) s = Done s' out ∧
    JsMap.get fromId (peers s')
      = Some (Peer (role me) (panelIds me) (field "windows" msg)) ∧
    (∀ q, q ≠ fromId → JsMap.get q (peers s') = JsMap.get q (peers s)) ∧
    (peers s').*1 = (peers s).*1 ∧
    nextPeerId s' = nextPeerId s ∧
    (∀ to m, (to, m) ∈ out ↔
       m = note ∧ open to = true ∧
       ∃ p, (to, p) ∈ peers s' ∧ role p = JStr "viewer").
Proof.
  intros Hme Htype note. unfold handleMessage. rewrite Hme.
  unfold handleObject. rewrite Htype. simpl kind_of. cbv beta iota zeta.
  fold note. eexists _, _. split; [reflexivity|]. cbn [peers nextPeerId].
  split; [apply get_set_eq|]. split; [intros q Hq; by apply get_set_ne|].
  split; [apply keys_set_present; eauto|]. split; [done|].
  intros to m. rewrite list_elem_of_bind. split.
  - intros [[k p] [He Hin]]. cbv beta in He.
    destruct (is_str "viewer" (role (k, p).2)) eqn:Hv;
      [|by apply elem_of_nil in He].
    apply elem_of_send in He as [[= -> ->] Ho].
    split; [done|]. split; [done|]. exists p. split; [done|].
    by apply is_str_true in Hv.
  - intros (-> & Ho & p & Hin & Hrole). exists (to, p). split; [|done].
    cbv beta. simpl. rewrite Hrole. simpl. by apply elem_of_send.
Qed.

(** The first entry [find] meets in a map whose entry for [p] was just
    overwritten by [v], when no entry before it qualifies. *)
Lemma find_set_first (f : peer → bool) p v (m tl : list (Z * peer)) :
  is_Some (JsMap.get p m) → f v = true →
  (∀ q pq, (q, pq) ∈ m → q ≠ p → f pq = false) →
  find f (JsMap.set p v m ++ tl).*2 = Some v.
Proof.
  intros Hp Hv. induction m as [|[k0 v0] m IH]; intros Hothers.
  - by destruct Hp.
  - simpl in *. destruct (decide (p = k0)) as [->|Hne]; simpl.
    + by rewrite Hv.
    + rewrite (Hothers k0 v0) by (first [apply list_elem_of_here | by intros ->]).
      apply IH; [done|]. intros q pq Hin. apply Hothers.
      by apply list_elem_of_further.
Qed.

(** X8. A viewer that connects after a capture peer has published its
    window list does not have to wait for the next broadcast: once the
    broker has handled the [window-list] of a capture-role peer (the only
    capture peer with a catalogue), the welcome message of the next
    connection carries that catalogue as [windowList]. *)
Theorem late_joiner_gets_cached_window_list open open' p me msg s :
  reachable s →
  JsMap.get p (peers s) = Some me → role me = JStr "capture" →
  field "type" msg = JStr "window-list" →
  truthy (field "windows" msg) = true →
  (∀ q pq, (q, pq) ∈ peers s → q ≠ p → role pq = JStr "capture" →
     truthy (windowList pq) = false) →
  ∃ s1 out1 s2 others,
    handleMessage open p (JObj msg) s = Done s1 out1 ∧
    connection open' s1
      = Done s2 (send open' (nextPeerId s)
                   (JObj [("type", JStr "welcome");
                          ("peerId", JNum (nextPeerId s));
                          ("peers", JArr others);
                          ("windowList", field "windows" msg)])).
Proof.
  intros Hr Hme Hrole Htype Htruthy Hothers.
  unfold handleMessage. rewrite Hme.
  unfold handleObject. rewrite Htype. simpl kind_of. cbv beta iota zeta.
  eexists _, _. eexists _, _. split; [reflexivity|].
  unfold connection. cbn [peers nextPeerId].
  set (me' := Peer (role me) (panelIds me) (field "windows" msg)).
  assert (Hne : nextPeerId s ≠ p).
  { intros <-. assert (nextPeerId s < nextPeerId s); [|lia].
    apply reachable_keys_lt; eauto. }
  assert (Hfresh : JsMap.get (nextPeerId s) (JsMap.set p me' (peers s)) = None).
  { rewrite get_set_ne by done.
    destruct (JsMap.get (nextPeerId s) (peers s)) eqn:Hg; [|done].
    assert (nextPeerId s < nextPeerId s); [|lia].
    apply reachable_keys_lt; eauto. }
  rewrite (set_absent _ _ _ Hfresh).
  rewrite (find_set_first _ p me' (peers s)); [| eauto | |].
  - unfold js_or. simpl. rewrite Htruthy. reflexivity.
  - simpl. rewrite Hrole, Htruthy. done.
  - intros q pq Hin Hq. destruct (is_str "capture" (role pq)) eqn:Hcap; [|done].
    apply is_str_true in Hcap. simpl. by apply (Hothers q).
Qed.

(** X9. A [register] message of a registered sender either throws or
    rewrites the sender's own entry and nothing else.  It throws exactly
    when its log line cannot be written (the role does not convert to a
    string, or [panelIds] is truthy and not an array, or is an array with
    an element that does not convert).  Otherwise the entry gets the role
    of the message and its panel list ([msg.panelIds || []]), the
    catalogue the sender had published stays cached, every other peer's
    entry is as it was, and the registry keeps its keys, their order and
    the next id. *)
Theorem register_updates_only_sender open fromId me msg s :
  JsMap.get fromId (peers s) = Some me →
  field "type" msg = JStr "register" →
  (loggable msg = false → handleMessage open fromId (JObj msg) s = Thrown)
  ∧ (loggable msg = true →
     ∃ s' out, handleMessage open fromId (JObj msg) s = Done s' out ∧
       JsMap.get fromId (peers s')
         = Some (Peer (field "role" msg)
                   (js_or (field "panelIds" msg) (JArr [])) (windowList me)) ∧
       (∀ q, q ≠ fromId → JsMap.get q (peers s') = JsMap.get q (peers s)) ∧
       (peers s').*1 = (peers s).*1 ∧
       nextPeerId s' = nextPeerId s).
Proof.
  intros Hme Htype. split.
  - intros Hlog. by apply (register_throws_iff open fromId me msg s Hme Htype).
  - intros Hlog.
    rewrite (register_step open fromId me msg s Hme (conj Htype Hlog)).
    eexists _, _. split; [reflexivity|]. cbn [peers nextPeerId].
    split; [apply get_set_eq|]. split; [intros q Hq; by apply get_set_ne|].
    split; [apply keys_set_present; eauto | done].
Qed.
End catalogue.

(** * Further properties of the viewer *)

Section viewer_sessions.
Import Sessions StreamClient.
Implicit Types (c : client) (createAnswer : pc → json).

Lemma NoDup_fmap_filter {A B} (f : A → B) (P : A → Prop)
    `{!∀ x, Decision (P x)} (l : list A) :
  NoDup (f <$> l) → NoDup (f <$> filter P l).
Proof.
  induction l as [|x l IH]; [done|].
  rewrite fmap_cons, NoDup_cons, filter_cons. intros [Hx Hl].
  destruct (decide (P x)); [|by apply IH].
  rewrite fmap_cons, NoDup_cons. split; [|by apply IH].
  intros Hin. apply Hx. apply list_elem_of_fmap in Hin as [y [-> Hy]].
  apply list_elem_of_filter in Hy as [_ Hy]. by apply list_elem_of_fmap_2.
Qed.

(** In a map without repeated connections, a connection names its key. *)
Lemma NoDup_snd_key {K V} (l : list (K * V)) k k' r :
  NoDup l.*2 → (k, r) ∈ l → (k', r) ∈ l → k = k'.
Proof.
  induction l as [|[k0 r0] l IH]; intros Hnd Hk Hk';
    [by apply elem_of_nil in Hk|].
  rewrite fmap_cons in Hnd. apply NoDup_cons in Hnd as [Hr0 Hnd].
  apply elem_of_cons in Hk as [Hk | Hk];
    apply elem_of_cons in Hk' as [Hk' | Hk']; simplify_eq.
  - done.
  - destruct Hr0. apply list_elem_of_fmap. eexists. by split; [|eassumption].
  - destruct Hr0. apply list_elem_of_fmap. eexists. by split; [|eassumption].
  - by apply IH.
Qed.

(** A store update that keeps what [sessions_ok] reads of a connection. *)
Lemma alter_keeps_session (f : pc → pc) r (objs : list pc) r' p :
  (∀ q, closed (f q) = closed q ∧ remotePeerId (f q) = remotePeerId q
        ∧ panelId (f q) = panelId q) →
  objs !! r' = Some p →
  ∃ p', alter f r objs !! r' = Some p' ∧ closed p' = closed p
        ∧ remotePeerId p' = remotePeerId p ∧ panelId p' = panelId p.
Proof.
  intros Hf Hp. destruct (decide (r = r')) as [->|Hne].
  - rewrite list_lookup_alter_eq, Hp. simpl. eexists. split; [done|]. apply Hf.
  - rewrite list_lookup_alter_ne by done. eauto.
Qed.

Lemma sessions_ok_alter (f : pc → pc) r c objs :
  (∀ q, closed (f q) = closed q ∧ remotePeerId (f q) = remotePeerId q
        ∧ panelId (f q) = panelId q) →
  sessions_ok c →
  sessions_ok (Client (wsOpen c) (peerConnections c) objs
                 (capturePeerIds c) (alter f r (store c))).
Proof.
  intros Hf (Hk & Hr & He). split; [done|]. split; [done|].
  intros k r' Hin. simpl in *. destruct (He k r' Hin) as (p & Hp & Hc & Hkey).
  destruct (alter_keeps_session f r (store c) r' p Hf Hp)
    as (p' & Hp' & Hc' & Hrp & Hpp).
  exists p'. split; [done|]. split; [congruence|]. by rewrite Hrp, Hpp.
Qed.

Lemma sessions_ok_getOrCreatePC remote panel c :
  sessions_ok c → sessions_ok (_getOrCreatePC remote panel c).2.
Proof.
  intros (Hk & Hr & He). unfold _getOrCreatePC.
  destruct (JsMap.get (key remote panel) (peerConnections c)) eqn:Hg;
    [done|]. simpl.
  rewrite (set_absent _ _ _ Hg). unfold sessions_ok. simpl.
  rewrite !fmap_app. simpl. split; [|split].
  - apply NoDup_app. split; [done|]. split; [|apply NoDup_singleton].
    intros k Hin Hk'. apply list_elem_of_singleton in Hk' as ->.
    by apply get_None_keys in Hg.
  - apply NoDup_app. split; [done|]. split; [|apply NoDup_singleton].
    intros r Hin Hr'. apply list_elem_of_singleton in Hr' as ->.
    apply list_elem_of_fmap in Hin as [[k r] [Heq Hin]]. simpl in Heq.
    destruct (He k r Hin) as (p & Hp & _). apply lookup_lt_Some in Hp. lia.
  - intros k r Hin. apply elem_of_app in Hin as [Hin | Hin].
    + destruct (He k r Hin) as (p & Hp & Hc & Hkey). exists p.
      split; [|done]. by apply lookup_app_l_Some.
    + apply list_elem_of_singleton in Hin as [= -> ->].
      exists (PC remote panel false JUndef JUndef []).
      split; [|done]. by rewrite lookup_app_r, Nat.sub_diag.
Qed.

Lemma sessions_ok_remove (P : string * nat → Prop) `{!∀ e, Decision (P e)}
    c objs chans ids ws :
  sessions_ok c →
  (∀ k r, (k, r) ∈ peerConnections c → P (k, r) →
          objs !! r = store c !! r) →
  sessions_ok (Client ws (filter P (peerConnections c)) chans ids objs).
Proof.
  intros (Hk & Hr & He) Hsame. unfold sessions_ok. simpl.
  split; [by apply NoDup_fmap_filter|]. split; [by apply NoDup_fmap_filter|].
  intros k r Hin. apply list_elem_of_filter in Hin as [HP Hin].
  rewrite (Hsame k r Hin HP). by apply He.
Qed.

(** X10. The viewer's session map stays sound.  It is sound when the
    client is created, and every operation on the client keeps it so: each
    signalling message, [releasePanel], a data channel arriving,
    the welcome message, and [disconnect()].  So a session found in the map
    always holds a live (never closed) connection created for exactly the
    peer and panel of its key. *)
Theorem session_map_stays_sound createAnswer c :
  sessions_ok fresh_viewer
  ∧ (sessions_ok c →
     (∀ msg, sessions_ok (_handleSignal createAnswer msg c).1)
     ∧ (∀ target panel, sessions_ok (releasePanel target panel c).1)
     ∧ (∀ r lbl, sessions_ok (ondatachannel r lbl c))
     ∧ (∀ peers, sessions_ok (onWelcome peers c).1)
     ∧ sessions_ok (disconnect c)).
Proof.
  split.
  { split; [constructor|]. split; [constructor|].
    intros k r Hin. by apply elem_of_nil in Hin. }
  intros Hok. split; [|split; [|split; [|split]]].
  - intros [peerId role panels|fromId panel sdp|fromId panel cand|ws|peerId|].
    + simpl. destruct (is_str "capture" role); exact Hok.
    + unfold _handleSignal.
      pose proof (sessions_ok_getOrCreatePC fromId panel c Hok) as Hok1.
      destruct (_getOrCreatePC fromId panel c) as [r c1]. simpl in *.
      by apply (sessions_ok_alter _ r c1).
    + simpl. destruct (JsMap.get (key fromId panel) (peerConnections c));
        [|exact Hok].
      destruct (truthy cand); [|exact Hok]. by apply sessions_ok_alter.
    + exact Hok.
    + simpl.
      destruct (closePeer peerId (peerConnections c) (store c))
        as [sessions objs] eqn:Hcp. simpl.
      destruct (closePeer_spec peerId (peerConnections c) (store c))
        as (Hm & _ & _ & _ & _ & _ & Hsame).
      rewrite Hcp in Hm, Hsame. simpl in Hm, Hsame. rewrite Hm.
      apply sessions_ok_remove; [done|]. intros k r Hin Hn. simpl in Hn.
      apply Hsame. intros k' Hin'. destruct Hok as (_ & Hr & _).
      by rewrite (NoDup_snd_key _ k' k r Hr Hin' Hin).
    + exact Hok.
  - intros target panel. unfold releasePanel.
    destruct (JsMap.get (key target panel) (peerConnections c)) as [r|] eqn:Hg;
      simpl; [|exact Hok].
    apply sessions_ok_remove; [done|]. intros k r' Hin Hne. simpl in Hne.
    unfold close_pc. apply list_lookup_alter_ne. intros <-.
    destruct Hok as (_ & Hr & _). apply Hne.
    apply (NoDup_snd_key _ k (key target panel) r Hr Hin).
    by apply get_Some_elem.
  - intros r lbl. unfold ondatachannel. destruct (store c !! r); exact Hok.
  - intros peers. exact Hok.
  - split; [constructor|]. split; [constructor|].
    intros k r Hin. by apply elem_of_nil in Hin.
Qed.
End viewer_sessions.

Section viewer_more.
Import Sessions StreamClient.
Implicit Types (c : client) (createAnswer : pc → json).

(** X11. The viewer's list of capture peers never holds an id twice.  A
    [peer-registered] with role [capture] adds the peer (once, at the end,
    so the first capture peer stays first), a [peer-disconnected] removes
    it, the welcome message sets the list to the ids of the capture-role
    peers it names, in the order it names them, and no other message
    changes the list. *)
Theorem capture_peer_ids_stay_distinct createAnswer msg c :
  NoDup (capturePeerIds c) →
  let ids' := capturePeerIds (_handleSignal createAnswer msg c).1 in
  NoDup ids'
  ∧ (∀ p panels, msg = PeerRegistered p (JStr "capture") panels →
       (∀ q, q ∈ ids' ↔ q = p ∨ q ∈ capturePeerIds c)
       ∧ ∃ tl, ids' = capturePeerIds c ++ tl)
  ∧ (∀ p, msg = PeerDisconnected p →
       ∀ q, q ∈ ids' ↔ q ∈ capturePeerIds c ∧ q ≠ p)
  ∧ ((∀ p panels, msg ≠ PeerRegistered p (JStr "capture") panels) →
     (∀ p, msg ≠ PeerDisconnected p) → ids' = capturePeerIds c)
  ∧ (∀ peers,
       capturePeerIds (onWelcome peers c).1
       = infoId <$> filter (λ p, is_str "capture" (infoRole p) = true) peers
       ∧ (∀ q, q ∈ capturePeerIds (onWelcome peers c).1 ↔
            ∃ p, p ∈ peers ∧ infoId p = q ∧ infoRole p = JStr "capture")
       ∧ (NoDup (infoId <$> peers) →
          NoDup (capturePeerIds (onWelcome peers c).1))).
Proof.
  intros Hnd ids'. unfold ids'.
  assert (Hw : ∀ peers,
    capturePeerIds (onWelcome peers c).1
    = infoId <$> filter (λ p, is_str "capture" (infoRole p) = true) peers
    ∧ (∀ q, q ∈ capturePeerIds (onWelcome peers c).1 ↔
         ∃ p, p ∈ peers ∧ infoId p = q ∧ infoRole p = JStr "capture")
    ∧ (NoDup (infoId <$> peers) →
       NoDup (capturePeerIds (onWelcome peers c).1))).
  { intros peers. split; [done|]. split; [|by apply NoDup_fmap_filter].
    intros q. simpl. rewrite list_elem_of_fmap. split.
    - intros (p & -> & Hp). apply list_elem_of_filter in Hp as [Hrole Hp].
      apply is_str_true in Hrole. eauto.
    - intros (p & Hp & <- & Hrole). exists p. split; [done|].
      apply list_elem_of_filter. split; [|done]. by apply is_str_true. }
  destruct msg as [p role panels|fromId panel sdp|fromId panel cand|ws|p|].
  - simpl. destruct (is_str "capture" role) eqn:Hrole; simpl.
    + apply is_str_true in Hrole as ->.
      destruct (bool_decide (p ∈ capturePeerIds c)) eqn:Hin.
      * apply bool_decide_eq_true in Hin.
        split; [done|]. split; [|split; [done|split]].
        -- intros ? ? [= <- <-]. split; [|exists []; by rewrite app_nil_r].
           intros q. split; [eauto | intros [-> | ?]; done].
        -- intros Hno. by destruct (Hno p panels).
        -- exact Hw.
      * apply bool_decide_eq_false in Hin.
        split; [|split; [|split; [done|split]]].
        -- apply NoDup_app. split; [done|]. split; [|apply NoDup_singleton].
           intros q Hq Hq'. by apply list_elem_of_singleton in Hq' as ->.
        -- intros ? ? [= <- <-]. split; [|by eexists].
           intros q. rewrite elem_of_app, list_elem_of_singleton. tauto.
        -- intros Hno. by destruct (Hno p panels).
        -- exact Hw.
    + split; [done|]. split; [|split; [done|split; [done|]]].
      * intros ? ? Heq. injection Heq as -> -> ->. vm_compute in Hrole. done.
      * exact Hw.
  - unfold _handleSignal. destruct (_getOrCreatePC fromId panel c) as [r c1] eqn:Hgc.
    assert (capturePeerIds c1 = capturePeerIds c) as Hids.
    { unfold _getOrCreatePC in Hgc.
      destruct (JsMap.get _ _); by injection Hgc as <- <-. }
    simpl. rewrite Hids. split; [done|]. split; [done|]. split; [done|].
    split; [done|]. exact Hw.
  - simpl. destruct (JsMap.get _ _); [destruct (truthy cand)|]; simpl;
      (split; [done|]; split; [done|]; split; [done|]; split; [done|];
       exact Hw).
  - simpl. split; [done|]. split; [done|]. split; [done|]. split; [done|].
    exact Hw.
  - simpl. destruct (closePeer p (peerConnections c) (store c)). simpl.
    split; [by apply NoDup_filter|]. split; [done|]. split; [|split].
    + intros ? [= <-] q. rewrite list_elem_of_filter. tauto.
    + intros _ Hno. by destruct (Hno p).
    + exact Hw.
  - simpl. split; [done|]. split; [done|]. split; [done|]. split; [done|].
    exact Hw.
Qed.

(** X12. An [ice-candidate] message never creates, removes or closes a
    session and never makes the viewer send anything.  A candidate for a
    key without a session, or an empty candidate, changes nothing at all;
    otherwise the candidate is added to the connection of that key and to
    no other. *)
Theorem ice_candidate_only_feeds_its_session createAnswer fromId panel cand c :
  let res := _handleSignal createAnswer (IceCandidate fromId panel cand) c in
  res.2 = []
  ∧ peerConnections res.1 = peerConnections c
  ∧ dataChannels res.1 = dataChannels c
  ∧ length (store res.1) = length (store c)
  ∧ (∀ i, closed <$> store res.1 !! i = closed <$> store c !! i)
  ∧ (JsMap.get (key fromId panel) (peerConnections c) = None
     ∨ truthy cand = false → res.1 = c)
  ∧ (∀ r, JsMap.get (key fromId panel) (peerConnections c) = Some r →
       truthy cand = true →
       candidates <$> store res.1 !! r
         = (λ p, candidates p ++ [cand]) <$> store c !! r
       ∧ ∀ i, i ≠ r → store res.1 !! i = store c !! i).
Proof.
  simpl. destruct (JsMap.get (key fromId panel) (peerConnections c)) as [r|];
    [destruct (truthy cand)|]; simpl.
  - split; [done|]. split; [done|]. split; [done|].
    split; [apply length_alter|]. split; [|split].
    + intros i. destruct (decide (r = i)) as [->|Hne].
      * rewrite list_lookup_alter_eq. by destruct (store c !! i).
      * by rewrite list_lookup_alter_ne.
    + intros [? | ?]; done.
    + intros ? [= <-] _. split.
      * rewrite list_lookup_alter_eq. by destruct (store c !! r).
      * intros i Hne. by apply list_lookup_alter_ne.
  - repeat split; intros; simplify_eq; done.
  - repeat split; intros; simplify_eq; done.
Qed.

(** What an offer does to the connections that exist already: their
    [closed] flags stay. *)
Lemma offer_keeps_closed_flags createAnswer fromId panel sdp c i :
  (i < length (store c))%nat →
  closed <$> store (_handleSignal createAnswer (Offer fromId panel sdp) c).1 !! i
  = closed <$> store c !! i.
Proof.
  intros Hi. unfold _handleSignal, _getOrCreatePC.
  destruct (JsMap.get (key fromId panel) (peerConnections c)) as [r|]; simpl.
  - destruct (decide (r = i)) as [->|Hne].
    + rewrite list_lookup_alter_eq. by destruct (store c !! i).
    + by rewrite list_lookup_alter_ne.
  - rewrite list_lookup_alter_ne by lia. by rewrite lookup_app_l.
Qed.

(** X13. A released key starts clean.  [releasePanel] for a key that has
    a session closes the session's connection and removes the key; an
    offer for the same key afterwards is answered on a connection created
    for it, open and distinct from the released one, which stays
    closed. *)
Theorem released_key_starts_clean createAnswer target panel sdp r c :
  JsMap.get (key target panel) (peerConnections c) = Some r →
  is_Some (store c !! r) →
  let c1 := (releasePanel target panel c).1 in
  let c2 := (_handleSignal createAnswer (Offer target panel sdp) c1).1 in
  JsMap.get (key target panel) (peerConnections c1) = None
  ∧ is_closed r (store c1)
  ∧ JsMap.get (key target panel) (peerConnections c2)
    = Some (length (store c))
  ∧ length (store c) ≠ r
  ∧ closed <$> store c2 !! length (store c) = Some false
  ∧ is_closed r (store c2).
Proof.
  intros Hg Hr c1 c2.
  assert (Hmap1 : peerConnections c1
                  = JsMap.delete (key target panel) (peerConnections c)).
  { unfold c1, releasePanel. by rewrite Hg. }
  assert (Hstore1 : store c1 = close_pc r (store c)).
  { unfold c1, releasePanel. by rewrite Hg. }
  assert (Hnone : JsMap.get (key target panel) (peerConnections c1) = None).
  { rewrite Hmap1, get_delete, decide_True; done. }
  assert (Hclosed1 : is_closed r (store c1)).
  { rewrite Hstore1. by apply close_pc_closed. }
  assert (Hlen : length (store c1) = length (store c)).
  { rewrite Hstore1. apply close_pc_length. }
  assert (Hlt : (r < length (store c))%nat) by (by apply lookup_lt_is_Some).
  destruct (offer_creates_session_when_absent createAnswer target panel sdp
              c1 Hnone) as (Hnew & _ & Hopen).
  fold c2 in Hnew, Hopen. rewrite Hlen in Hnew, Hopen.
  split; [done|]. split; [done|]. split; [done|]. split; [lia|].
  split; [done|]. unfold is_closed, c2.
  rewrite offer_keeps_closed_flags by lia. exact Hclosed1.
Qed.

Lemma close_all_spec (sessions : list (string * nat)) : ∀ objs : list pc,
  let res := foldl (λ objs e, close_pc e.2 objs) objs sessions in
  length res = length objs
  ∧ (∀ r, is_closed r objs → is_closed r res)
  ∧ (∀ k r, (k, r) ∈ sessions → is_Some (objs !! r) → is_closed r res)
  ∧ (∀ r, r ∉ sessions.*2 → res !! r = objs !! r).
Proof.
  induction sessions as [|[k0 r0] l IH]; intros objs; simpl.
  - split; [done|]. split; [done|]. split; [|done].
    intros k r Hin. by apply elem_of_nil in Hin.
  - destruct (IH (close_pc r0 objs)) as (Hlen & Hmono & Hcl & Hsame).
    split; [by rewrite Hlen, close_pc_length|]. split; [|split].
    + intros r Hr. by apply Hmono, close_pc_mono.
    + intros k r Hin Hsome. apply elem_of_cons in Hin as [[= -> ->] | Hin].
      * by apply Hmono, close_pc_closed.
      * apply (Hcl k r Hin). apply lookup_lt_is_Some.
        rewrite close_pc_length. by apply lookup_lt_is_Some.
    + intros r Hr. apply not_elem_of_cons in Hr as [Hne Hr].
      rewrite Hsame by done. unfold close_pc.
      apply list_lookup_alter_ne. by intros ->.
Qed.

(** X14. [disconnect()] gives everything back: the session map and the
    channel map are empty, every connection a session held is closed, the
    connections no session held are left as they were, and from then on
    nothing is sent to the broker or to a capture peer, whatever arrives
    and whatever the application asks for. *)
Theorem disconnect_releases_everything createAnswer
    (channelOpen : channel → bool) c :
  let c' := disconnect c in
  peerConnections c' = []
  ∧ dataChannels c' = ∅
  ∧ length (store c') = length (store c)
  ∧ (∀ k r, (k, r) ∈ peerConnections c → is_Some (store c !! r) →
       is_closed r (store c'))
  ∧ (∀ r, r ∉ (peerConnections c).*2 → store c' !! r = store c !! r)
  ∧ (∀ msg, (_handleSignal createAnswer msg c').2 = [])
  ∧ (∀ target panel, (releasePanel target panel c').2 = [])
  ∧ (∀ target source panel orientation,
       requestWindowCapture target source panel orientation c' = [])
  ∧ requestWindowList c' = []
  ∧ (∀ panel event, sendInput channelOpen panel event c' = []).
Proof.
  intros c'. unfold c', disconnect.
  destruct (close_all_spec (peerConnections c) (store c))
    as (Hlen & _ & Hcl & Hsame).
  split; [done|]. split; [done|]. split; [done|]. split; [done|].
  split; [done|]. split; [|split; [|split; [|split]]]; try done.
  intros [p role panels|fromId panel sdp|fromId panel cand|ws|p|]; simpl;
    try done.
  destruct (is_str "capture" role); [|done]. simpl. unfold _requestStreams.
  induction panels as [|x panels IH]; [done|]. by rewrite bind_cons.
Qed.
End viewer_more.

Section codec_preference.
Import StreamClient.

Lemma filter_within {A} (P Q : A → Prop) `{!∀ x, Decision (P x)}
    `{!∀ x, Decision (Q x)} (l : list A) :
  (∀ x, P x → Q x) → filter P (filter Q l) = filter P l.
Proof.
  intros HPQ. rewrite list_filter_filter. apply list_filter_iff.
  intros x. split; [by intros [? _] | eauto].
Qed.

Lemma filter_apart {A} (P Q : A → Prop) `{!∀ x, Decision (P x)}
    `{!∀ x, Decision (Q x)} (l : list A) :
  (∀ x, P x → Q x → False) → filter P (filter Q l) = [].
Proof.
  intros HPQ. rewrite list_filter_filter.
  induction l as [|x l IH]; [done|].
  rewrite filter_cons, decide_False by (intros [? ?]; eauto). done.
Qed.

Lemma same_rank_sorted (n : nat) (l : list codec) :
  (∀ c, c ∈ l → codec_rank c = n) →
  StronglySorted (λ a b, (codec_rank a ≤ codec_rank b)%nat) l.
Proof.
  induction l as [|x l IH]; intros Hn; [constructor|].
  apply StronglySorted_cons. split.
  - apply Forall_forall. intros y Hy.
    rewrite (Hn x), (Hn y); [lia | by apply list_elem_of_further
                                  | apply list_elem_of_here].
  - apply IH. intros y Hy. by apply Hn, list_elem_of_further.
Qed.

Lemma rank_h264 c : mimeType c = "video/H264" ↔ codec_rank c = 0%nat.
Proof. unfold codec_rank. repeat case_decide; split; done. Qed.

Lemma rank_vp9 c : mimeType c = "video/VP9" ↔ codec_rank c = 1%nat.
Proof.
  unfold codec_rank. repeat case_decide; split; try done.
  intros Hv. rewrite Hv in *. done.
Qed.

Lemma rank_rest c :
  mimeType c ≠ "video/H264" ∧ mimeType c ≠ "video/VP9" ↔ codec_rank c = 2%nat.
Proof. unfold codec_rank. repeat case_decide; split; try done; tauto. Qed.

(** X15. The codec list the viewer hands to [setCodecPreferences] is the
    receiver's capability list reordered, nothing dropped and nothing
    repeated: every H.264 entry comes before every VP9 entry, which come
    before all the others, and inside each of the three groups the
    entries keep the order the browser gave them.  A list without H.264
    and VP9 is passed on unchanged. *)
Theorem preferred_codecs_reordered (codecs : list codec) :
  preferred codecs ≡ₚ codecs
  ∧ StronglySorted (λ a b, (codec_rank a ≤ codec_rank b)%nat)
      (preferred codecs)
  ∧ (∀ n, filter (λ c, codec_rank c = n) (preferred codecs)
          = filter (λ c, codec_rank c = n) codecs)
  ∧ ((∀ c, c ∈ codecs →
        mimeType c ≠ "video/H264" ∧ mimeType c ≠ "video/VP9") →
     preferred codecs = codecs).
Proof.
  split; [|split; [|split]].
  - unfold preferred. induction codecs as [|x l IH]; [done|].
    rewrite !filter_cons.
    destruct (decide (mimeType x = "video/H264")) as [Hh|Hh].
    + rewrite decide_False by (by rewrite Hh).
      rewrite decide_False by (intros [? _]; done).
      simpl. by rewrite IH.
    + destruct (decide (mimeType x = "video/VP9")) as [Hv|Hv].
      * rewrite decide_False by (intros [_ ?]; done).
        simpl. rewrite <- Permutation_middle. by constructor.
      * rewrite decide_True by done.
        rewrite app_assoc, <- Permutation_middle, <- app_assoc.
        by constructor.
  - unfold preferred. apply StronglySorted_app. split; [|split].
    + intros x1 x2 Hx1 _. apply list_elem_of_filter in Hx1 as [Hx1 _].
      apply rank_h264 in Hx1. lia.
    + apply (same_rank_sorted 0). intros c Hc.
      apply list_elem_of_filter in Hc as [Hc _]. by apply rank_h264.
    + apply StronglySorted_app. split; [|split].
      * intros x1 x2 Hx1 Hx2. apply list_elem_of_filter in Hx1 as [Hx1 _].
        apply list_elem_of_filter in Hx2 as [Hx2 _].
        apply rank_vp9 in Hx1. apply rank_rest in Hx2. lia.
      * apply (same_rank_sorted 1). intros c Hc.
        apply list_elem_of_filter in Hc as [Hc _]. by apply rank_vp9.
      * apply (same_rank_sorted 2). intros c Hc.
        apply list_elem_of_filter in Hc as [Hc _]. by apply rank_rest.
  - intros n. unfold preferred. rewrite !filter_app.
    destruct (decide (n = 0%nat)) as [->|H0];
      [|destruct (decide (n = 1%nat)) as [->|H1];
        [|destruct (decide (n = 2%nat)) as [->|H2]]].
    + rewrite filter_within by (intros c; apply rank_h264).
      rewrite !filter_apart; [by rewrite !app_nil_r | |].
      * intros c Hc Hr. apply rank_rest in Hr. lia.
      * intros c Hc Hr. apply rank_vp9 in Hr. lia.
    + rewrite (filter_within _ (λ c, mimeType c = "video/VP9"))
        by (intros c; apply rank_vp9).
      rewrite !filter_apart; [by rewrite app_nil_r | |].
      * intros c Hc Hr. apply rank_rest in Hr. lia.
      * intros c Hc Hr. apply rank_h264 in Hr. lia.
    + rewrite (filter_within _ (λ c, mimeType c ≠ "video/H264"
                                     ∧ mimeType c ≠ "video/VP9"))
        by (intros c; apply rank_rest).
      rewrite !filter_apart; [done | |].
      * intros c Hc Hr. apply rank_vp9 in Hr. lia.
      * intros c Hc Hr. apply rank_h264 in Hr. lia.
    + assert (Hnone : ∀ l : list codec, filter (λ c, codec_rank c = n) l = []).
      { intros l. induction l as [|x l IH]; [done|].
        rewrite filter_cons, decide_False; [done|].
        unfold codec_rank. repeat case_decide; lia. }
      by rewrite !Hnone.
  - intros Hrest. unfold preferred.
    rewrite (filter_all (λ c, mimeType c ≠ "video/H264"
                              ∧ mimeType c ≠ "video/VP9")) by done.
    assert (Hnone : ∀ (P : codec → Prop) `{!∀ x, Decision (P x)},
              (∀ c, c ∈ codecs → ¬ P c) → filter P codecs = []).
    { intros P ? HP. induction codecs as [|x l IH]; [done|].
      rewrite filter_cons, decide_False by (apply HP, list_elem_of_here).
      apply IH; intros c Hc; [apply Hrest | apply HP];
        by apply list_elem_of_further. }
    rewrite !Hnone; [done | |]; intros c Hc; by destruct (Hrest c Hc).
Qed.
End codec_preference.

Section dismissal.
Import Sessions StreamClient.

(** Composite keys of different peers differ. *)
Lemma key_peer_inj a b panel panel' : key a panel = key b panel' → a = b.
Proof.
  intros Heq. apply (key_sessionOf_iff a b panel'). rewrite <- Heq.
  apply key_sessionOf.
Qed.

(** X16. Dismissing a panel releases it at the first known capture peer
    only.  The [release-panel] message is addressed to that peer and the
    session with it, if any, is closed and removed; a session for the same
    panel with another capture peer stays in the session map with its
    connection as it was, although the panel's input channel is dropped
    whichever session delivered it. *)
Theorem dismissal_releases_first_capture_peer_only first others other panel
    r c :
  sessions_ok c →
  capturePeerIds c = first :: others → other ≠ first →
  JsMap.get (key other panel) (peerConnections c) = Some r →
  let res := HaloViewApp.onPanelDismissed panel c in
  res.2 = _send c (JObj [("type", JStr "release-panel");
                         ("targetId", JNum first);
                         ("panelId", JStr panel)])
  ∧ JsMap.get (key first panel) (peerConnections res.1) = None
  ∧ JsMap.get (key other panel) (peerConnections res.1) = Some r
  ∧ store res.1 !! r = store c !! r
  ∧ dataChannels res.1 !! panel = None.
Proof.
  intros (_ & Hnd & _) Hids Hne Hg res. unfold res, HaloViewApp.onPanelDismissed.
  rewrite Hids. unfold releasePanel.
  assert (Hkeys : key other panel ≠ key first panel).
  { intros Heq. by apply key_peer_inj in Heq. }
  destruct (JsMap.get (key first panel) (peerConnections c)) as [r'|] eqn:Hf;
    simpl.
  - split; [done|]. split; [by rewrite get_delete, decide_True|].
    split; [by rewrite get_delete, decide_False|]. split.
    + unfold close_pc. apply list_lookup_alter_ne. intros ->.
      apply Hkeys. eapply (NoDup_snd_key _ _ _ r Hnd); by apply get_Some_elem.
    + apply lookup_delete_eq.
  - split; [done|]. split; [done|]. split; [done|]. split; [done|].
    apply lookup_delete_eq.
Qed.
End dismissal.

(** * Properties of the capture endpoint *)

Section capture_facts.
Import Sessions ElectronCaptureClient.
Variable createOffer : pc → json.
Variable getUserMedia : string → Z → Z → Z → option (option Z * option Z).
Variable enumerateWindows : json.
Implicit Types (c : client).

(** X17. Whatever the source and the orientation, the size
    [captureWindow] asks for is 16:9, upright exactly when the orientation
    is [portrait], and the portrait size is the landscape size turned; the
    size of the second attempt has the same shape and is strictly smaller
    in both directions. *)
Theorem capture_sizes (src : string) (orientation : json) :
  let size := maxSize src orientation in
  let retry := retrySize orientation in
  (if is_str "portrait" orientation
   then 16 * size.1 = 9 * size.2 ∧ 16 * retry.1 = 9 * retry.2
   else 9 * size.1 = 16 * size.2 ∧ 9 * retry.1 = 16 * retry.2)
  ∧ retry.1 < size.1 ∧ retry.2 < size.2
  ∧ maxSize src (JStr "portrait")
    = ((maxSize src (JStr "landscape")).2, (maxSize src (JStr "landscape")).1)
  ∧ retrySize (JStr "portrait")
    = ((retrySize (JStr "landscape")).2, (retrySize (JStr "landscape")).1).
Proof.
  unfold maxSize, retrySize. simpl.
  destruct (is_str "portrait" orientation), (String.prefix "screen:" src);
    simpl; repeat split; lia.
Qed.

Lemma stop_length m (objs : list stream) : length (stop m objs) = length objs.
Proof. apply length_alter. Qed.

Lemma stop_stopped m (objs : list stream) :
  is_Some (objs !! m) → is_stopped m (stop m objs).
Proof.
  intros [st Hst]. unfold is_stopped, stop.
  by rewrite list_lookup_alter_eq, Hst.
Qed.

Lemma stop_other m m' (objs : list stream) :
  m ≠ m' → stop m objs !! m' = objs !! m'.
Proof. intros. by apply list_lookup_alter_ne. Qed.

(** Dropping a panel from a sound stream map, its stream stopped. *)
Lemma streams_ok_drop panel m c ws infos sessions objs :
  streams_ok c → JsMap.get panel (streams c) = Some m →
  streams_ok (Client ws (JsMap.delete panel (streams c)) infos sessions
                (stop m (media c)) objs).
Proof.
  intros (Hk & Hm & He) Hg. unfold streams_ok, JsMap.delete. simpl.
  split; [by apply NoDup_fmap_filter|]. split; [by apply NoDup_fmap_filter|].
  intros k m' Hin. apply list_elem_of_filter in Hin as [Hne Hin].
  simpl in Hne. rewrite stop_other; [by apply (He k)|]. intros <-.
  apply Hne. apply (NoDup_snd_key _ k panel m Hm Hin).
  by apply get_Some_elem.
Qed.

(** [captureWindow] keeps the stream map sound, whether or not
    [getUserMedia] delivers. *)
Lemma captureWindow_streams_ok src panel orientation c :
  streams_ok c →
  streams_ok (captureWindow getUserMedia src panel orientation c).1.1.
Proof.
  intros Hok. unfold captureWindow.
  set (c1 := match JsMap.get panel (streams c) with
             | Some m => _ | None => c end).
  assert (Hok1 : streams_ok c1 ∧ JsMap.get panel (streams c1) = None).
  { unfold c1. destruct (JsMap.get panel (streams c)) as [m|] eqn:Hg; [|done].
    split; [by apply streams_ok_drop|]. simpl.
    by rewrite get_delete, decide_True. }
  destruct Hok1 as [(Hk & Hm & He) Hnone].
  destruct (match getUserMedia src _ _ 60 with
            | Some settings => Some settings | None => _ end)
    as [settings|]; [|done].
  assert (Hok2 :
    streams_ok
      (Client (wsOpen c1) (JsMap.set panel (length (media c1)) (streams c1))
         (<[panel := Info src
                       (or_size settings.1 (maxSize src orientation).1)
                       (or_size settings.2 (maxSize src orientation).2)]>
            (captureInfo c1))
         (peerConnections c1) (media c1 ++ [Stream src false]) (store c1)));
    [|by destruct (printable orientation)].
  unfold streams_ok. simpl. rewrite (set_absent _ _ _ Hnone), !fmap_app.
  simpl. split; [|split].
  - apply NoDup_app. split; [done|]. split; [|apply NoDup_singleton].
    intros k Hin Hk'. apply list_elem_of_singleton in Hk' as ->.
    by apply get_None_keys in Hnone.
  - apply NoDup_app. split; [done|]. split; [|apply NoDup_singleton].
    intros m' Hin Hm'. apply list_elem_of_singleton in Hm' as ->.
    apply list_elem_of_fmap in Hin as [[k m'] [Heq Hin]]. simpl in Heq.
    destruct (He k m' Hin) as (st & Hst & _). apply lookup_lt_Some in Hst. lia.
  - intros k m' Hin. apply elem_of_app in Hin as [Hin | Hin].
    + destruct (He k m' Hin) as (st & Hst & Hlive). exists st.
      split; [|done]. by apply lookup_app_l_Some.
    + apply list_elem_of_singleton in Hin as [= -> ->].
      exists (Stream src false). split; [|done].
      by rewrite lookup_app_r, Nat.sub_diag.
Qed.

(** X18. The capture client's stream map stays sound under every
    signalling message: a panel is published at most once, no stream
    serves two panels, and the stream of a published panel is live.  In
    particular a [capture-window] for a panel that is already captured
    leaves one stream for it, and a [release-panel] leaves none. *)
Theorem stream_map_stays_sound msg c :
  streams_ok c →
  streams_ok (_handleSignal createOffer getUserMedia enumerateWindows msg c).1.
Proof.
  intros Hok.
  destruct msg as [fromId src panel orientation|fromId panel| |fromId panel
                  |fromId panel sdp|fromId panel cand|peerId|]; simpl.
  - pose proof (captureWindow_streams_ok src panel orientation c Hok) as Hok1.
    destruct (captureWindow getUserMedia src panel orientation c)
      as [[c1 out1] [m|]]; simpl in *; done.
  - destruct (JsMap.get panel (streams c)) as [m|] eqn:Hg;
      destruct (JsMap.get (key fromId panel) (peerConnections c));
      simpl; try done; by apply streams_ok_drop.
  - done.
  - by destruct (JsMap.get panel (streams c)).
  - by destruct (JsMap.get (key fromId panel) (peerConnections c)).
  - destruct (JsMap.get (key fromId panel) (peerConnections c)); [|done].
    by destruct (truthy cand).
  - by destruct (closePeer peerId (peerConnections c) (store c)).
  - done.
Qed.

(** X19. Capturing a window for a panel.  The stream the panel had before
    is stopped and the other panels keep their streams, whatever happens
    next.  When [getUserMedia] delivers (at the first or the second
    attempt) the panel is published with a new, live stream of the
    requested source.  If [orientation] converts to a string, the call
    then returns that stream and the registration sent to the broker lists
    the published panels, the panel among them.  If it does not, the log
    line throws once the panel is published: the call fails, no
    registration is sent, and the [capture-window] arm sends no offer.
    When both attempts are rejected the call fails, nothing is sent and
    the panel is left without a stream. *)
Theorem capture_window_replaces_stream src panel orientation c :
  let res := captureWindow getUserMedia src panel orientation c in
  let c' := res.1.1 in
  let first :=
    getUserMedia src (maxSize src orientation).1 (maxSize src orientation).2
      60 in
  let second :=
    getUserMedia src (retrySize orientation).1 (retrySize orientation).2 30 in
  (∀ old, JsMap.get panel (streams c) = Some old →
          is_Some (media c !! old) → is_stopped old (media c'))
  ∧ (∀ other, other ≠ panel →
       JsMap.get other (streams c') = JsMap.get other (streams c))
  ∧ (∀ m, res.2 = Some m →
       printable orientation = true
       ∧ JsMap.get panel (streams c') = Some m
       ∧ m = length (media c)
       ∧ media c' !! m = Some (Stream src false)
       ∧ res.1.2 = _send c (JObj [("type", JStr "register");
                                  ("role", JStr "capture");
                                  ("panelIds",
                                   JArr (JStr <$> (streams c').*1))])
       ∧ panel ∈ (streams c').*1)
  ∧ (res.2 = None → res.1.2 = [])
  ∧ (is_Some first ∨ is_Some second →
       JsMap.get panel (streams c') = Some (length (media c))
       ∧ media c' !! length (media c) = Some (Stream src false)
       ∧ res.2 = if printable orientation then Some (length (media c))
                 else None)
  ∧ (first = None → second = None →
       res.2 = None ∧ JsMap.get panel (streams c') = None)
  ∧ (printable orientation = false →
       ∀ fromId,
         (_handleSignal createOffer getUserMedia enumerateWindows
            (CaptureWindow fromId src panel orientation) c).2 = []).
Proof.
  intros res c' first second.
  assert (Hnone_out : res.2 = None → res.1.2 = []).
  { unfold res, captureWindow. fold first second.
    destruct first; [|destruct second]; destruct (printable orientation);
      done. }
  split; [|split; [|split; [|split; [done|split; [|split]]]]].
  6:{ intros Hp fromId.
      assert (Hfail : res.2 = None).
      { unfold res, captureWindow. fold first second. rewrite Hp.
        destruct first; [|destruct second]; done. }
      specialize (Hnone_out Hfail). simpl. fold res. clearbody res.
      destruct res as [[c1 out1] [m|]]; simpl in *; done. }
  all: unfold c', res, captureWindow; fold first second.
  all: set (c1 := match JsMap.get panel (streams c) with
                  | Some m => _ | None => c end).
  all: assert (H1 : JsMap.get panel (streams c1) = None
               ∧ length (media c1) = length (media c)
               ∧ wsOpen c1 = wsOpen c
               ∧ (∀ old, JsMap.get panel (streams c) = Some old →
                    is_Some (media c !! old) → is_stopped old (media c1))
               ∧ (∀ other, other ≠ panel →
                    JsMap.get other (streams c1) = JsMap.get other (streams c)));
    [unfold c1; destruct (JsMap.get panel (streams c)) as [m|] eqn:Hg; simpl;
     [split; [by rewrite get_delete, decide_True|];
      split; [apply stop_length|]; split; [done|]; split;
      [intros old [= <-] Hsome; by apply stop_stopped
      |intros other Hne; by rewrite get_delete, decide_False]
     |repeat split; done]|].
  all: destruct H1 as (Hnone & Hlen & Hws & Hold & Hother).
  - intros old Hg Hsome.
    assert (Hkeep : is_stopped old (media c1 ++ [Stream src false])).
    { unfold is_stopped. rewrite lookup_app_l; [by apply Hold|].
      rewrite Hlen. by apply lookup_lt_is_Some. }
    destruct first; [|destruct second]; destruct (printable orientation);
      simpl; auto.
  - intros other Hne.
    destruct first; [|destruct second]; destruct (printable orientation);
      simpl; rewrite ?get_set_ne by done; by apply Hother.
  - intros m Hm.
    assert (Hok : printable orientation = true ∧ m = length (media c1)
                  ∧ (is_Some first ∨ is_Some second)).
    { revert Hm. destruct first; [|destruct second];
        destruct (printable orientation); simpl; intros [= <-]; eauto. }
    destruct Hok as (Hp & -> & Hdel). rewrite Hp. split; [done|].
    assert (Hshape : ∀ settings,
      let c2 :=
        Client (wsOpen c1) (JsMap.set panel (length (media c1)) (streams c1))
          (<[panel := Info src
                        (or_size settings.1 (maxSize src orientation).1)
                        (or_size settings.2 (maxSize src orientation).2)]>
             (captureInfo c1))
          (peerConnections c1) (media c1 ++ [Stream src false]) (store c1) in
      JsMap.get panel (streams c2) = Some (length (media c1))
      ∧ length (media c1) = length (media c)
      ∧ media c2 !! length (media c1) = Some (Stream src false)
      ∧ _send c2 (JObj [("type", JStr "register"); ("role", JStr "capture");
                        ("panelIds", JArr (JStr <$> (streams c2).*1))])
        = _send c (JObj [("type", JStr "register"); ("role", JStr "capture");
                         ("panelIds", JArr (JStr <$> (streams c2).*1))])
      ∧ panel ∈ (streams c2).*1).
    { intros settings c2. unfold c2. cbn [streams media wsOpen _send].
      split; [apply get_set_eq|]. split; [done|].
      split; [by rewrite lookup_app_r, Nat.sub_diag|]. split.
      - by rewrite Hws.
      - apply get_None_keys_neg. rewrite get_set_eq. eauto. }
    destruct first as [st1|]; [apply (Hshape st1)|].
    destruct second as [st2|]; [apply (Hshape st2)|].
    destruct Hdel as [[? ?] | [? ?]]; done.
  - intros Hdel.
    assert (Hshape :
      JsMap.get panel (JsMap.set panel (length (media c1)) (streams c1))
        = Some (length (media c))
      ∧ (media c1 ++ [Stream src false]) !! length (media c)
        = Some (Stream src false)).
    { rewrite get_set_eq, <- Hlen. split; [done|].
      by rewrite lookup_app_r, Nat.sub_diag. }
    destruct Hshape as [Hget Hmedia].
    destruct first as [st1|]; [|destruct second as [st2|]].
    + destruct (printable orientation); simpl;
        (split; [exact Hget|]; split; [exact Hmedia|]; by rewrite ?Hlen).
    + destruct (printable orientation); simpl;
        (split; [exact Hget|]; split; [exact Hmedia|]; by rewrite ?Hlen).
    + destruct Hdel as [[? ?] | [? ?]]; done.
  - intros -> ->. done.
Qed.
End capture_facts.

Section capture_sessions.
Import Sessions ElectronCaptureClient.
Variable createOffer : pc → json.
Variable getUserMedia : string → Z → Z → Z → option (option Z * option Z).
Variable enumerateWindows : json.
Implicit Types (c : client).

(** Overwriting the value of a key drops the old value from a map whose
    values are distinct. *)
Lemma set_drops_old_value {K V} `{EqDecision K} (k : K) (v r : V)
    (m : list (K * V)) :
  JsMap.get k m = Some r → NoDup m.*2 → v ≠ r → r ∉ (JsMap.set k v m).*2.
Proof.
  induction m as [|[k0 r0] m IH]; [done|]. simpl.
  rewrite NoDup_cons. intros Hg [Hr0 Hnd] Hv.
  destruct (decide (k = k0)) as [->|Hne]; simpl.
  - injection Hg as ->. apply not_elem_of_cons. split; [done|]. exact Hr0.
  - apply not_elem_of_cons. split; [|by apply IH].
    intros ->. apply Hr0. apply list_elem_of_fmap.
    exists (k, r0). split; [done|]. by apply get_Some_elem.
Qed.

(** X20. A repeated request is served on a new connection and the old one
    is let go without being closed.  When a viewer asks again for a panel
    it already has a session for, [_sendStreamToViewer] stores a freshly
    created connection under the same key and sends a new offer; the
    connection the key held before is left exactly as it was (not closed)
    and no key of the session map leads to it any more. *)
Theorem repeated_request_leaves_old_connection viewer panel stream r c :
  NoDup (peerConnections c).*2 →
  JsMap.get (key viewer panel) (peerConnections c) = Some r →
  is_Some (store c !! r) →
  let res := _sendStreamToViewer createOffer viewer panel stream c in
  let offer := createOffer (PC viewer panel false JUndef JUndef []) in
  JsMap.get (key viewer panel) (peerConnections res.1)
    = Some (length (store c))
  ∧ store res.1 !! length (store c)
    = Some (PC viewer panel false JUndef offer [])
  ∧ (peerConnections res.1).*1 = (peerConnections c).*1
  ∧ store res.1 !! r = store c !! r
  ∧ (r ∉ (peerConnections res.1).*2)
  ∧ res.2 = _send c (JObj [("type", JStr "offer");
                           ("targetId", JNum viewer);
                           ("sdp", offer);
                           ("panelId", JStr panel)]).
Proof.
  intros Hnd Hg Hr res offer. unfold res, _sendStreamToViewer. simpl.
  assert (Hlt : (r < length (store c))%nat) by (by apply lookup_lt_is_Some).
  split; [apply get_set_eq|]. split; [by rewrite lookup_app_r, Nat.sub_diag|].
  split; [apply keys_set_present; eauto|].
  split; [by apply lookup_app_l|]. split; [|done].
  apply set_drops_old_value; [done | done | lia].
Qed.

(** X21. A [release-panel] from a viewer makes the capture client stop
    and forget the panel's stream and capture data and close and forget
    its session with that viewer; it sends nothing.  The sessions other
    viewers hold for the same panel stay in the session map, and the other
    panels keep their streams and capture data. *)
Theorem capture_release_panel fromId panel c :
  let res := _handleSignal createOffer getUserMedia enumerateWindows
               (ReleasePanel fromId panel) c in
  let c' := res.1 in
  res.2 = []
  ∧ JsMap.get panel (streams c') = None
  ∧ captureInfo c' !! panel = None
  ∧ JsMap.get (key fromId panel) (peerConnections c') = None
  ∧ (∀ m, JsMap.get panel (streams c) = Some m → is_Some (media c !! m) →
       is_stopped m (media c'))
  ∧ (∀ r, JsMap.get (key fromId panel) (peerConnections c) = Some r →
       is_Some (store c !! r) → is_closed r (store c'))
  ∧ (∀ other p, other ≠ fromId →
       JsMap.get (key other p) (peerConnections c')
       = JsMap.get (key other p) (peerConnections c))
  ∧ (∀ other, other ≠ panel →
       JsMap.get other (streams c') = JsMap.get other (streams c)
       ∧ captureInfo c' !! other = captureInfo c !! other).
Proof.
  intros res c'. unfold c', res. simpl.
  assert (Hkeys : ∀ other p, other ≠ fromId → key other p ≠ key fromId panel).
  { intros other p Hne Heq. by apply key_peer_inj in Heq. }
  destruct (JsMap.get panel (streams c)) as [m|] eqn:Hs;
    destruct (JsMap.get (key fromId panel) (peerConnections c)) as [r|] eqn:Hp;
    simpl.
  - split; [done|]. split; [by rewrite get_delete, decide_True|].
    split; [apply lookup_delete_eq|].
    split; [by rewrite get_delete, decide_True|].
    split; [intros ? [= <-] ?; by apply stop_stopped|].
    split; [intros ? [= <-] ?; by apply close_pc_closed|].
    split; [intros other p Hne; rewrite get_delete, decide_False; auto|].
    intros other Hne. rewrite get_delete, decide_False by done.
    by rewrite lookup_delete_ne.
  - split; [done|]. split; [by rewrite get_delete, decide_True|].
    split; [apply lookup_delete_eq|]. split; [done|].
    split; [intros ? [= <-] ?; by apply stop_stopped|].
    split; [done|]. split; [done|].
    intros other Hne. rewrite get_delete, decide_False by done.
    by rewrite lookup_delete_ne.
  - split; [done|]. split; [done|]. split; [apply lookup_delete_eq|].
    split; [by rewrite get_delete, decide_True|]. split; [done|].
    split; [intros ? [= <-] ?; by apply close_pc_closed|].
    split; [intros other p Hne; rewrite get_delete, decide_False; auto|].
    intros other Hne. by rewrite lookup_delete_ne.
  - split; [done|]. split; [done|]. split; [apply lookup_delete_eq|].
    split; [done|]. split; [done|]. split; [done|]. split; [done|].
    intros other Hne. by rewrite lookup_delete_ne.
Qed.
End capture_sessions.

(** * The three parties together *)

Section handshake.
Import Server Sessions.
Variable createOffer : pc → json.
Variable createAnswer : pc → json.
Variable getUserMedia : string → Z → Z → Z → option (option Z * option Z).
Variable enumerateWindows : json.

(** A directed message of a registered sender for a registered target with
    an open socket is relayed to it. *)
Lemma directed_step open fromId me msg t target s :
  JsMap.get fromId (peers s) = Some me → is_directed msg →
  field "targetId" msg = JNum t → JsMap.get t (peers s) = Some target →
  open t = true →
  handleMessage open fromId (JObj msg) s = Done s [(t, relayed fromId msg)].
Proof.
  intros Hme Hdir Ht Htarget Hopen. unfold handleMessage. rewrite Hme.
  unfold handleObject. rewrite (kind_of_directed _ Hdir).
  unfold lookup_target. rewrite Ht, Htarget. simpl.
  unfold send. by rewrite Hopen.
Qed.

(** A [panel-request] of a registered sender reaches every capture-role
    peer with an open socket. *)
Lemma panel_request_step open fromId me msg a pa s :
  JsMap.get fromId (peers s) = Some me →
  field "type" msg = JStr "panel-request" →
  JsMap.get a (peers s) = Some pa → role pa = JStr "capture" →
  open a = true →
  (a, JObj [("type", JStr "panel-request"); ("fromId", JNum fromId);
            ("panelId", field "panelId" msg)])
  ∈ packets (handleMessage open fromId (JObj msg) s).
Proof.
  intros Hme Htype Ha Hrole Hopen. unfold handleMessage. rewrite Hme.
  unfold handleObject. rewrite Htype. simpl kind_of. cbv beta iota zeta.
  simpl packets. apply list_elem_of_bind. exists (a, pa). split.
  - apply elem_of_send. done.
  - apply list_elem_of_filter. split; [|by apply get_Some_elem].
    unfold is_capture. simpl. by rewrite Hrole.
Qed.

Lemma alter_last {A} (f : A → A) (l : list A) (x : A) :
  alter f (length l) (l ++ [x]) = l ++ [f x].
Proof. by rewrite alter_app_r_alt, Nat.sub_diag by done. Qed.

(** The viewer answering a first offer. *)
Lemma viewer_first_offer fromId panel sdp (c : StreamClient.client) :
  JsMap.get (key fromId panel) (StreamClient.peerConnections c) = None →
  StreamClient.wsOpen c = true →
  let answer := createAnswer (PC fromId panel false sdp JUndef []) in
  StreamClient._handleSignal createAnswer
    (StreamClient.Offer fromId panel sdp) c
  = (StreamClient.Client true
       (JsMap.set (key fromId panel) (length (StreamClient.store c))
          (StreamClient.peerConnections c))
       (StreamClient.dataChannels c) (StreamClient.capturePeerIds c)
       (StreamClient.store c ++ [PC fromId panel false sdp answer []]),
     [JObj [("type", JStr "answer"); ("targetId", JNum fromId);
            ("sdp", answer); ("panelId", JStr panel)]]).
Proof.
  intros Hg Hws answer.
  unfold StreamClient._handleSignal, StreamClient._getOrCreatePC.
  rewrite Hg. cbn [StreamClient.store StreamClient.wsOpen
                   StreamClient.peerConnections StreamClient.dataChannels
                   StreamClient.capturePeerIds].
  rewrite alter_last. cbn [remotePeerId panelId closed remoteDescription
                           localDescription candidates].
  rewrite lookup_app_r, Nat.sub_diag by done.
  unfold StreamClient._send. cbn [StreamClient.wsOpen]. rewrite Hws.
  reflexivity.
Qed.

(** X22. A panel request, end to end.  With a capture-role peer [a] and a
    viewer [v] in the registry, both sockets open, a stream published for
    the panel and no session yet on the viewer's side: the viewer's
    [panel-request] is fanned out by the broker to [a]; [a] answers it with
    an offer addressed to [v], which the broker relays with [fromId = a];
    the viewer creates its session for [a:panel], applies the offer and
    sends the answer addressed to [a], which the broker relays with
    [fromId = v]; and [a] applies it to the very connection it made the
    offer on.  At the end the two endpoints hold one session each for the
    panel, keyed by the other's id, whose descriptions mirror each other:
    the offer is local at [a] and remote at [v], the answer the other way
    round. *)
Theorem panel_request_handshake open s a v pa pv panel stream
    (vc : StreamClient.client) (cc : ElectronCaptureClient.client) :
  JsMap.get a (peers s) = Some pa → role pa = JStr "capture" →
  JsMap.get v (peers s) = Some pv →
  open a = true → open v = true →
  StreamClient.wsOpen vc = true → ElectronCaptureClient.wsOpen cc = true →
  JsMap.get panel (ElectronCaptureClient.streams cc) = Some stream →
  JsMap.get (key a panel) (StreamClient.peerConnections vc) = None →
  let offer := createOffer (PC v panel false JUndef JUndef []) in
  let answer := createAnswer (PC a panel false offer JUndef []) in
  ∃ request request' offerMsg offerMsg' answerMsg answerMsg' cc1 vc1 cc2,
    StreamClient._requestStreams vc a [panel] = [JObj request]
    ∧ (a, request') ∈ packets (handleMessage open v (JObj request) s)
    ∧ (λ sig, ElectronCaptureClient._handleSignal createOffer getUserMedia
                enumerateWindows sig cc) <$> captureSignal request'
      = Some (cc1, [JObj offerMsg])
    ∧ packets (handleMessage open a (JObj offerMsg) s) = [(v, offerMsg')]
    ∧ (λ sig, StreamClient._handleSignal createAnswer sig vc)
        <$> viewerSignal offerMsg'
      = Some (vc1, [JObj answerMsg])
    ∧ packets (handleMessage open v (JObj answerMsg) s) = [(a, answerMsg')]
    ∧ (λ sig, ElectronCaptureClient._handleSignal createOffer getUserMedia
                enumerateWindows sig cc1) <$> captureSignal answerMsg'
      = Some (cc2, [])
    ∧ JsMap.get (key v panel) (ElectronCaptureClient.peerConnections cc2)
      = Some (length (ElectronCaptureClient.store cc))
    ∧ ElectronCaptureClient.store cc2 !! length (ElectronCaptureClient.store cc)
      = Some (PC v panel false answer offer [])
    ∧ JsMap.get (key a panel) (StreamClient.peerConnections vc1)
      = Some (length (StreamClient.store vc))
    ∧ StreamClient.store vc1 !! length (StreamClient.store vc)
      = Some (PC a panel false offer answer []).
Proof.
  intros Ha Hrole Hv Hoa Hov Hwv Hwc Hstream Hnone offer answer.
  set (request := [("type", JStr "panel-request"); ("panelId", JStr panel);
                   ("targetId", JNum a)]).
  set (offerMsg := [("type", JStr "offer"); ("targetId", JNum v);
                    ("sdp", offer); ("panelId", JStr panel)]).
  set (answerMsg := [("type", JStr "answer"); ("targetId", JNum a);
                     ("sdp", answer); ("panelId", JStr panel)]).
  exists request,
    (JObj [("type", JStr "panel-request"); ("fromId", JNum v);
           ("panelId", JStr panel)]),
    offerMsg, (relayed a offerMsg), answerMsg, (relayed v answerMsg).
  eexists _, _, _.
  split.
  { unfold StreamClient._requestStreams, StreamClient._send. rewrite Hwv.
    reflexivity. }
  split.
  { by apply (panel_request_step open v pv request a pa). }
  split.
  { change (captureSignal _)
      with (Some (ElectronCaptureClient.PanelRequest v panel)).
    cbn [fmap option_fmap option_map ElectronCaptureClient._handleSignal].
    rewrite Hstream.
    unfold ElectronCaptureClient._sendStreamToViewer,
      ElectronCaptureClient._send. rewrite Hwc. reflexivity. }
  split.
  { rewrite (directed_step open a pa offerMsg v pv); try done. by left. }
  split.
  { change (viewerSignal _) with (Some (StreamClient.Offer a panel offer)).
    cbn [fmap option_fmap option_map].
    rewrite viewer_first_offer by done. reflexivity. }
  split.
  { rewrite (directed_step open v pv answerMsg a pa); try done.
    by right; left. }
  split.
  { change (captureSignal _)
      with (Some (ElectronCaptureClient.Answer v panel answer)).
    cbn [fmap option_fmap option_map].
    cbn [ElectronCaptureClient._handleSignal
         ElectronCaptureClient.peerConnections ElectronCaptureClient.store].
    rewrite get_set_eq, alter_last. reflexivity. }
  cbn [ElectronCaptureClient.peerConnections ElectronCaptureClient.store
       StreamClient.peerConnections StreamClient.store].
  rewrite !get_set_eq, !lookup_app_r, !Nat.sub_diag by done. done.
Qed.

(** X23. A candidate finds the session it belongs to.  A candidate the
    viewer's connection for capture peer [a] and a panel gathers is sent
    addressed to [a]; the broker relays it with [fromId = v]; and the
    capture client, reading the key [v:panel] off the relayed message,
    adds it to the connection of its own session for that viewer and
    panel, leaving its session map as it is. *)
Theorem ice_candidate_reaches_peer_session open s a v pa pv panel cand r rc
    p pc0 (vc : StreamClient.client) (cc : ElectronCaptureClient.client) :
  JsMap.get a (peers s) = Some pa → JsMap.get v (peers s) = Some pv →
  open a = true → StreamClient.wsOpen vc = true → truthy cand = true →
  StreamClient.store vc !! r = Some p →
  remotePeerId p = a → panelId p = panel →
  JsMap.get (key v panel) (ElectronCaptureClient.peerConnections cc)
    = Some rc →
  ElectronCaptureClient.store cc !! rc = Some pc0 →
  ∃ msg cc',
    StreamClient.onicecandidate r cand vc = [JObj msg]
    ∧ packets (handleMessage open v (JObj msg) s) = [(a, relayed v msg)]
    ∧ (λ sig, ElectronCaptureClient._handleSignal createOffer getUserMedia
                enumerateWindows sig cc) <$> captureSignal (relayed v msg)
      = Some (cc', [])
    ∧ ElectronCaptureClient.peerConnections cc'
      = ElectronCaptureClient.peerConnections cc
    ∧ candidates <$> ElectronCaptureClient.store cc' !! rc
      = Some (candidates pc0 ++ [cand]).
Proof.
  intros Ha Hv Hoa Hwv Hcand Hp Hremote Hpanel Hsession Hpc.
  set (msg := [("type", JStr "ice-candidate"); ("targetId", JNum a);
               ("panelId", JStr panel); ("candidate", cand)]).
  exists msg. eexists. split; [|split; [|split]].
  - unfold StreamClient.onicecandidate, StreamClient._send.
    by rewrite Hp, Hcand, Hwv, Hremote, Hpanel.
  - rewrite (directed_step open v pv msg a pa); try done. by right; right.
  - change (captureSignal _)
      with (Some (ElectronCaptureClient.IceCandidate v panel cand)).
    cbn [fmap option_fmap option_map ElectronCaptureClient._handleSignal].
    rewrite Hsession, Hcand. reflexivity.
  - cbn [ElectronCaptureClient.peerConnections ElectronCaptureClient.store].
    split; [done|]. by rewrite list_lookup_alter_eq, Hpc.
Qed.
End handshake.

(** * The further properties at work *)

Section more_witnesses.
Import Server Sessions.

Lemma capture_and_viewer_reachable : reachable capture_and_viewer.
Proof.
  apply (reachable_last
    [(all_open, Connection); (all_open, Connection);
     (all_open, Message 1 (Some (JObj (register_capture [JStr "panel-main"]))));
     (all_open, Message 2 (Some (JObj register_viewer)))]).
  reflexivity.
Qed.

Lemma viewer_two_captures_ok : sessions_ok viewer_two_captures.
Proof.
  split; [|split].
  - apply (bool_decide_unpack _). vm_compute. exact I.
  - apply (bool_decide_unpack _). vm_compute. exact I.
  - intros k r Hin. simpl in Hin.
    apply elem_of_cons in Hin as [[= -> ->] | Hin];
      [|apply list_elem_of_singleton in Hin as [= -> ->]];
      eexists; (split; [reflexivity|]); split; reflexivity.
Qed.

(** The registry of a capture peer and a viewer has distinct ids. *)
Lemma registry_ids_invariant_witness :
  reachable capture_and_viewer ∧ NoDup (peers capture_and_viewer).*1.
Proof.
  split; [apply capture_and_viewer_reachable|].
  destruct (registry_ids_invariant capture_and_viewer
              capture_and_viewer_reachable) as (_ & Hnd & _).
  exact Hnd.
Defined.

(** When viewer 1 leaves, the notification goes to viewer 2, who is still
    registered. *)
Lemma packets_reach_registered_open_peers_witness :
  step all_open (Close 1) two_viewers
  = Done (Broker [(2, Peer (JStr "viewer") (JArr []) JUndef)] 3)
      [(2, JObj [("type", JStr "peer-disconnected"); ("peerId", JNum 1)])]
  ∧ is_Some (JsMap.get 2 [(2, Peer (JStr "viewer") (JArr []) JUndef)]).
Proof.
  split; [reflexivity|].
  destruct (packets_reach_registered_open_peers all_open (Close 1) two_viewers
              (Broker [(2, Peer (JStr "viewer") (JArr []) JUndef)] 3)
              [(2, JObj [("type", JStr "peer-disconnected");
                         ("peerId", JNum 1)])]
              2 (JObj [("type", JStr "peer-disconnected"); ("peerId", JNum 1)])
              eq_refl (list_elem_of_here _ _)) as [_ Hin].
  exact Hin.
Defined.

(** An offer in which peer 1 claims to be peer 99 arrives as coming from
    peer 1. *)
Lemma sender_id_is_stamped_witness :
  handleMessage all_open 1 (JObj forged_offer) two_viewers
  = Done two_viewers [(2, relayed 1 forged_offer)]
  ∧ prop "fromId" (relayed 1 forged_offer) = JNum 1.
Proof.
  split; [reflexivity|].
  destruct (sender_id_is_stamped all_open 1 (JObj forged_offer) two_viewers
              two_viewers [(2, relayed 1 forged_offer)] 2
              (relayed 1 forged_offer) eq_refl (list_elem_of_here _ _))
    as [[Hfrom | [Htype _]] _]; [exact Hfrom | discriminate Htype].
Defined.

(** A message of a type the broker does not know changes nothing. *)
Lemma relay_arms_leave_registry_witness :
  field "type" [("type", JStr "hello")] ≠ JStr "register"
  ∧ field "type" [("type", JStr "hello")] ≠ JStr "window-list"
  ∧ ∃ out, handleMessage all_open 1 (JObj [("type", JStr "hello")]) two_viewers
           = Done two_viewers out.
Proof.
  assert (H1 : field "type" [("type", JStr "hello")] ≠ JStr "register")
    by discriminate.
  assert (H2 : field "type" [("type", JStr "hello")] ≠ JStr "window-list")
    by discriminate.
  split; [exact H1|]. split; [exact H2|].
  destruct (relay_arms_leave_registry all_open 1 [("type", JStr "hello")]
              two_viewers H1 H2) as [_ Hdone].
  apply Hdone; reflexivity.
Defined.

(** The viewer's request for the window list reaches capture peer 1. *)
Lemma request_window_list_fanout_witness :
  JsMap.get 2 (peers capture_and_viewer)
    = Some (Peer (JStr "viewer") (JArr []) JUndef)
  ∧ field "type" [("type", JStr "request-window-list")]
    = JStr "request-window-list"
  ∧ packets (handleMessage all_open 2
               (JObj [("type", JStr "request-window-list")])
               capture_and_viewer)
    = [(1, JObj [("type", JStr "request-window-list"); ("fromId", JNum 2)])].
Proof.
  split; [reflexivity|]. split; [reflexivity|].
  destruct (request_window_list_fanout all_open 2
              (Peer (JStr "viewer") (JArr []) JUndef)
              [("type", JStr "request-window-list")] capture_and_viewer
              eq_refl eq_refl) as (out & Heq & _ & Hall).
  rewrite Heq. simpl. rewrite Hall; [reflexivity|]. reflexivity.
Defined.

(** The catalogue of capture peer 1 is cached in its entry. *)
Lemma window_list_cached_and_forwarded_witness :
  JsMap.get 1 (peers capture_and_viewer)
    = Some (Peer (JStr "capture") (JArr [JStr "panel-main"]) JUndef)
  ∧ field "type" sample_window_list = JStr "window-list"
  ∧ ∃ s' out,
      handleMessage all_open 1 (JObj sample_window_list) capture_and_viewer
      = Done s' out
      ∧ JsMap.get 1 (peers s')
        = Some (Peer (JStr "capture") (JArr [JStr "panel-main"])
                  (field "windows" sample_window_list)).
Proof.
  split; [reflexivity|]. split; [reflexivity|].
  destruct (window_list_cached_and_forwarded all_open 1
              (Peer (JStr "capture") (JArr [JStr "panel-main"]) JUndef)
              sample_window_list capture_and_viewer eq_refl eq_refl)
    as (s' & out & Heq & Hget & _).
  exists s', out. split; [exact Heq | exact Hget].
Defined.

(** A peer that connects after capture peer 1 has published its catalogue
    finds it in the welcome message. *)
Lemma late_joiner_gets_cached_window_list_witness :
  reachable capture_and_viewer
  ∧ truthy (field "windows" sample_window_list) = true
  ∧ ∃ s1 out1 s2 others,
      handleMessage all_open 1 (JObj sample_window_list) capture_and_viewer
      = Done s1 out1
      ∧ connection all_open s1
        = Done s2 (send all_open 3
                     (JObj [("type", JStr "welcome"); ("peerId", JNum 3);
                            ("peers", JArr others);
                            ("windowList",
                             field "windows" sample_window_list)])).
Proof.
  split; [apply capture_and_viewer_reachable|]. split; [reflexivity|].
  apply (late_joiner_gets_cached_window_list all_open all_open 1
           (Peer (JStr "capture") (JArr [JStr "panel-main"]) JUndef)
           sample_window_list capture_and_viewer
           capture_and_viewer_reachable eq_refl eq_refl eq_refl eq_refl).
  intros q pq Hin Hq Hrole. simpl in Hin.
  apply elem_of_cons in Hin as [[= -> ->] | Hin]; [done|].
  apply list_elem_of_singleton in Hin as [= -> ->]. discriminate Hrole.
Defined.

(** Registering as a viewer leaves the other peer's entry alone. *)
Lemma register_updates_only_sender_witness :
  JsMap.get 2 (peers capture_and_viewer)
    = Some (Peer (JStr "viewer") (JArr []) JUndef)
  ∧ field "type" register_viewer = JStr "register"
  ∧ ∃ s' out,
      handleMessage all_open 2 (JObj register_viewer) capture_and_viewer
      = Done s' out
      ∧ JsMap.get 1 (peers s') = JsMap.get 1 (peers capture_and_viewer).
Proof.
  split; [reflexivity|]. split; [reflexivity|].
  destruct (register_updates_only_sender all_open 2
              (Peer (JStr "viewer") (JArr []) JUndef) register_viewer
              capture_and_viewer eq_refl eq_refl) as [_ Hdone].
  destruct (Hdone eq_refl) as (s' & out & Heq & _ & Hothers & _).
  exists s', out. split; [exact Heq|]. apply Hothers. discriminate.
Defined.

(** The session map of a viewer with two capture peers stays sound when
    the first of them leaves. *)
Lemma session_map_stays_sound_witness :
  sessions_ok viewer_two_captures
  ∧ sessions_ok (StreamClient._handleSignal constant_answer
                   (StreamClient.PeerDisconnected 1) viewer_two_captures).1.
Proof.
  split; [apply viewer_two_captures_ok|].
  destruct (session_map_stays_sound constant_answer viewer_two_captures)
    as [_ Hkeep].
  destruct (Hkeep viewer_two_captures_ok) as (Hsig & _). apply Hsig.
Defined.

(** When capture peer 1 leaves, the viewer's list is left with peer 2. *)
Lemma capture_peer_ids_stay_distinct_witness :
  NoDup (StreamClient.capturePeerIds viewer_two_captures)
  ∧ NoDup (StreamClient.capturePeerIds
             (StreamClient._handleSignal constant_answer
                (StreamClient.PeerDisconnected 1) viewer_two_captures).1).
Proof.
  assert (Hnd : NoDup (StreamClient.capturePeerIds viewer_two_captures)).
  { apply (bool_decide_unpack _). vm_compute. exact I. }
  split; [exact Hnd|].
  destruct (capture_peer_ids_stay_distinct constant_answer
              (StreamClient.PeerDisconnected 1) viewer_two_captures Hnd)
    as (Hnd' & _).
  exact Hnd'.
Defined.

(** Releasing [panel-main] at capture peer 1 and being offered it again
    gives the viewer a new connection. *)
Lemma released_key_starts_clean_witness :
  JsMap.get (key 1 "panel-main")
    (StreamClient.peerConnections viewer_two_captures) = Some 0%nat
  ∧ is_Some (StreamClient.store viewer_two_captures !! 0%nat)
  ∧ JsMap.get (key 1 "panel-main")
      (StreamClient.peerConnections
         (StreamClient._handleSignal constant_answer
            (StreamClient.Offer 1 "panel-main" (JStr "offer-2"))
            (StreamClient.releasePanel 1 "panel-main"
               viewer_two_captures).1).1)
    = Some 2%nat.
Proof.
  assert (Hsome : is_Some (StreamClient.store viewer_two_captures !! 0%nat)).
  { eexists. reflexivity. }
  split; [reflexivity|]. split; [exact Hsome|].
  destruct (released_key_starts_clean constant_answer 1 "panel-main"
              (JStr "offer-2") 0%nat viewer_two_captures eq_refl Hsome)
    as (_ & _ & Hnew & _).
  exact Hnew.
Defined.

(** With capture peers 1 and 2 known, dismissing [panel-main] leaves the
    session with peer 2 in place. *)
Lemma dismissal_releases_first_capture_peer_only_witness :
  sessions_ok viewer_two_captures
  ∧ StreamClient.capturePeerIds viewer_two_captures = [1; 2]
  ∧ JsMap.get (key 2 "panel-main")
      (StreamClient.peerConnections viewer_two_captures) = Some 1%nat
  ∧ JsMap.get (key 2 "panel-main")
      (StreamClient.peerConnections
         (HaloViewApp.onPanelDismissed "panel-main" viewer_two_captures).1)
    = Some 1%nat.
Proof.
  split; [apply viewer_two_captures_ok|]. split; [reflexivity|].
  split; [reflexivity|].
  assert (Hne : (2 : Z) ≠ 1) by discriminate.
  destruct (dismissal_releases_first_capture_peer_only 1 [2] 2 "panel-main"
              1%nat viewer_two_captures viewer_two_captures_ok eq_refl Hne
              eq_refl) as (_ & _ & Hkept & _).
  exact Hkept.
Defined.
End more_witnesses.

Section capture_witnesses.
Import Server Sessions.

Lemma capture_with_stream_ok : streams_ok capture_with_stream.
Proof.
  split; [|split].
  - apply (bool_decide_unpack _). vm_compute. exact I.
  - apply (bool_decide_unpack _). vm_compute. exact I.
  - intros k m Hin. simpl in Hin.
    apply list_elem_of_singleton in Hin as [= -> ->].
    eexists. split; reflexivity.
Qed.

(** Capturing another window as [panel-main] keeps the stream map
    sound. *)
Lemma stream_map_stays_sound_witness :
  streams_ok capture_with_stream
  ∧ streams_ok
      (ElectronCaptureClient._handleSignal constant_offer always_granted
         (JArr [])
         (ElectronCaptureClient.CaptureWindow 2 "window:42:0" "panel-main"
            (JStr "portrait"))
         capture_with_stream).1.
Proof.
  split; [apply capture_with_stream_ok|].
  apply (stream_map_stays_sound constant_offer always_granted (JArr [])).
  apply capture_with_stream_ok.
Defined.

(** A second request of viewer 2 for [panel-main] leaves connection 0
    without a key. *)
Lemma repeated_request_leaves_old_connection_witness :
  NoDup (ElectronCaptureClient.peerConnections capture_with_stream).*2
  ∧ JsMap.get (key 2 "panel-main")
      (ElectronCaptureClient.peerConnections capture_with_stream)
    = Some 0%nat
  ∧ is_Some (ElectronCaptureClient.store capture_with_stream !! 0%nat)
  ∧ JsMap.get (key 2 "panel-main")
      (ElectronCaptureClient.peerConnections
         (ElectronCaptureClient._sendStreamToViewer constant_offer 2
            "panel-main" 0%nat capture_with_stream).1)
    = Some 1%nat.
Proof.
  assert (Hnd : NoDup (ElectronCaptureClient.peerConnections
                         capture_with_stream).*2).
  { apply (bool_decide_unpack _). vm_compute. exact I. }
  assert (Hsome : is_Some (ElectronCaptureClient.store capture_with_stream
                           !! 0%nat)).
  { eexists. reflexivity. }
  split; [exact Hnd|]. split; [reflexivity|]. split; [exact Hsome|].
  destruct (repeated_request_leaves_old_connection constant_offer 2
              "panel-main" 0%nat 0%nat capture_with_stream Hnd eq_refl Hsome)
    as (Hnew & _).
  exact Hnew.
Defined.

(** Viewer 2, freshly connected, asks capture peer 1 for [panel-main] and
    ends up with a session for it. *)
Lemma panel_request_handshake_witness :
  JsMap.get 1 (peers capture_and_viewer)
    = Some (Peer (JStr "capture") (JArr [JStr "panel-main"]) JUndef)
  ∧ JsMap.get "panel-main" (ElectronCaptureClient.streams capture_with_stream)
    = Some 0%nat
  ∧ JsMap.get (key 1 "panel-main") (StreamClient.peerConnections fresh_viewer)
    = None
  ∧ ∃ vc1,
      JsMap.get (key 1 "panel-main") (StreamClient.peerConnections vc1)
      = Some 0%nat
      ∧ StreamClient.store vc1 !! 0%nat
        = Some (PC 1 "panel-main" false (JStr "offer") (JStr "answer") []).
Proof.
  split; [reflexivity|]. split; [reflexivity|]. split; [reflexivity|].
  destruct (panel_request_handshake constant_offer constant_answer
              always_granted (JArr []) all_open capture_and_viewer 1 2
              (Peer (JStr "capture") (JArr [JStr "panel-main"]) JUndef)
              (Peer (JStr "viewer") (JArr []) JUndef)
              "panel-main" 0%nat fresh_viewer capture_with_stream
              eq_refl eq_refl eq_refl eq_refl eq_refl eq_refl eq_refl
              eq_refl eq_refl)
    as (request & request' & offerMsg & offerMsg' & answerMsg & answerMsg'
        & cc1 & vc1 & cc2 & _ & _ & _ & _ & _ & _ & _ & _ & _ & Hkey & Hpc).
  exists vc1. split; [exact Hkey | exact Hpc].
Defined.

(** A candidate of the viewer's connection for capture peer 1 lands on the
    capture client's connection for viewer 2. *)
Lemma ice_candidate_reaches_peer_session_witness :
  StreamClient.store viewer_two_captures !! 0%nat
    = Some (PC 1 "panel-main" false JUndef JUndef [])
  ∧ JsMap.get (key 2 "panel-main")
      (ElectronCaptureClient.peerConnections capture_with_stream)
    = Some 0%nat
  ∧ ∃ msg cc',
      StreamClient.onicecandidate 0%nat (JStr "candidate") viewer_two_captures
      = [JObj msg]
      ∧ candidates <$> ElectronCaptureClient.store cc' !! 0%nat
        = Some [JStr "candidate"].
Proof.
  split; [reflexivity|]. split; [reflexivity|].
  destruct (ice_candidate_reaches_peer_session constant_offer always_granted
              (JArr []) all_open capture_and_viewer 1 2
              (Peer (JStr "capture") (JArr [JStr "panel-main"]) JUndef)
              (Peer (JStr "viewer") (JArr []) JUndef)
              "panel-main" (JStr "candidate") 0%nat 0%nat
              (PC 1 "panel-main" false JUndef JUndef [])
              (PC 2 "panel-main" false JUndef (JStr "offer") [])
              viewer_two_captures capture_with_stream
              eq_refl eq_refl eq_refl eq_refl eq_refl eq_refl eq_refl eq_refl
              eq_refl eq_refl)
    as (msg & cc' & Hsent & _ & _ & _ & Hcand).
  exists msg, cc'. split; [exact Hsent | exact Hcand].
Defined.
End capture_witnesses.
